(** * Kirigami geometry engine: a shallow embedding and its properties

    The repository generates the mesh and the flat cut/fold pattern of a
    pop-up paper sheet.  Two versions of [generateKirigamiGeometry] exist in
    the sources: [src/utils/mathEngine.ts] (seventeen shape profiles, a
    stepped strip that starts with a riser) and [src/unnamed/part_002]
    (arc-shaped strips, spine lines and statistics).  Both are embedded
    below, each in a module of its own, over the same model of JavaScript
    numbers: IEEE-754 binary64, that is Rocq's primitive [float].

    - What the language leaves to the engine ([Math.sin], [Math.cos],
      [Math.exp], [Math.pow], and the compilation of the user formula by
      [new Function]) is a parameter of the model: the class [Runtime],
      which reads a formula as an expression that has a value or fails
      and touches nothing.
    - A formula is arbitrary JavaScript, though, and is handed the [Math]
      object: the module [Live] embeds the generator for the custom
      profile with the state of the realm threaded through, and
      [MathEngine] is shown to be that generator in a realm the formula
      leaves alone.
    - The integer fields of the state ([rows], [cols], [fractalOctaves])
      and the loop counters are natural numbers; they enter arithmetic
      through [of_nat].
    - The only effects of a generator are appends to four arrays.  A column
      is embedded as the list of its appends in program order ([Emit]), and
      [execute] performs them on the arrays. *)

From Stdlib Require Uint63.
From Stdlib Require Import ZArith List Bool Lia Floats.
From Stdlib Require Import Strings.String Strings.Byte.
From Stdlib Require Import Sorting.Permutation Sorting.Sorted.
Import ListNotations.

Set Warnings "-inexact-float".
Set Implicit Arguments.
Open Scope float_scope.

(* ================================================================== *)
(** ** JavaScript numbers *)

Module JS.

(** An integer of at most 53 bits as a number (exact). *)
Definition of_Z (z : Z) : float := of_uint63 (Uint63.of_Z z).
Definition of_nat (n : nat) : float := of_Z (Z.of_nat n).

(** [isNaN(x)]. *)
Definition isNaN (x : float) : bool := is_nan x.

(** Truthiness of a number: [0], [-0] and [NaN] are falsy. *)
Definition truthy (x : float) : bool := negb (is_zero x || is_nan x).

(** [a || b] on numbers. *)
Definition or_else (a b : float) : float := if truthy a then a else b.

(** [Math.PI]. *)
Definition Math_PI : float := 0x1.921fb54442d18p+1.

Definition Math_abs (x : float) : float := abs x.
Definition Math_sqrt (x : float) : float := sqrt x.

(** [Math.min(a, b)]: NaN when either is, and [-0] below [+0]. *)
Definition Math_min (a b : float) : float :=
  if is_nan a || is_nan b then nan
  else if a <? b then a
  else if b <? a then b
  else if get_sign a then a else b.

(** [Math.max(a, b)]: NaN when either is, and [+0] above [-0]. *)
Definition Math_max (a b : float) : float :=
  if is_nan a || is_nan b then nan
  else if a <? b then b
  else if b <? a then a
  else if get_sign a then b else a.

(** [Math.floor(x)], read off the binary representation [m * 2^e]. *)
Definition Math_floor (x : float) : float :=
  match Prim2SF x with
  | S754_finite s m e =>
      if (0 <=? e)%Z then x
      else
        let q := Z.shiftr (Zpos m) (- e) in
        if (Z.shiftl q (- e) =? Zpos m)%Z then x
        else if s then - of_Z (q + 1) else of_Z q
  | _ => x
  end.

(** [x % 1]: what is left of [x] after its integer part, with the sign of
    [x]; NaN when [x] is not finite. *)
Definition rem1 (x : float) : float :=
  if is_finite x then
    if is_zero x then x
    else if x <? 0 then - (- x - Math_floor (- x)) else x - Math_floor x
  else nan.

(** The value stored in a [Float32Array]: rounded to binary32. *)
Definition fround (x : float) : float :=
  match Prim2SF x with
  | S754_finite s m e => SF2Prim (binary_round 24 128 s m e)
  | _ => x
  end.

Definition Float32Array (l : list float) : list float := map fround l.

(** The index a number denotes in an array, if it is a natural number. *)
Definition to_index (x : float) : option nat :=
  match Prim2SF x with
  | S754_zero _ => Some O
  | S754_finite false m e =>
      if (0 <=? e)%Z then Some (Z.to_nat (Z.shiftl (Zpos m) e))
      else
        let q := Z.shiftr (Zpos m) (- e) in
        if (Z.shiftl q (- e) =? Zpos m)%Z then Some (Z.to_nat q) else None
  | _ => None
  end.

(** An element of a [Uint8ClampedArray] read in arithmetic: the byte, or
    [undefined], which is NaN in a sum. *)
Definition byteAt (data : list byte) (idx : float) : float :=
  match to_index idx with
  | Some i =>
      match nth_error data i with
      | Some b => of_Z (Z.of_N (Byte.to_N b))
      | None => nan
      end
  | None => nan
  end.

End JS.
Import JS.

(** What the user formula, compiled by [new Function] and called on
    [(x, f, i, Math)], comes to when it changes nothing in the realm and
    its value, if it has one, is a primitive: the value is given by its
    number.  The module [Live] below has the formulas that do more. *)
Inductive FormulaOutcome : Type :=
| SyntaxError                (* [new Function] throws: the outer [catch] *)
| RuntimeError               (* the body throws: its own [catch] returns 0 *)
| Returns (v : float).       (* the value of the expression *)

(** The part of the JavaScript engine the code relies on and the language
    does not pin down bit for bit. *)
Class Runtime : Type := {
  Math_sin : float -> float;
  Math_cos : float -> float;
  Math_exp : float -> float;
  Math_pow : float -> float -> float;
  evalFormula : string -> float -> float -> float -> FormulaOutcome
}.

(* ================================================================== *)
(** ** THREE.Vector3, as three.js defines the methods used *)

Record Vector3 : Type := vec3 { vx : float; vy : float; vz : float }.

Module V3.

Definition zero : Vector3 := vec3 0 0 0.

(** [a.addScaledVector(v, s)]. *)
Definition addScaledVector (a v : Vector3) (s : float) : Vector3 :=
  vec3 (vx a + vx v * s) (vy a + vy v * s) (vz a + vz v * s).

Definition add (a v : Vector3) : Vector3 :=
  vec3 (vx a + vx v) (vy a + vy v) (vz a + vz v).

(** [new Vector3().subVectors(a, b)]. *)
Definition subVectors (a b : Vector3) : Vector3 :=
  vec3 (vx a - vx b) (vy a - vy b) (vz a - vz b).

Definition multiplyScalar (a : Vector3) (s : float) : Vector3 :=
  vec3 (vx a * s) (vy a * s) (vz a * s).

Definition negate (a : Vector3) : Vector3 :=
  vec3 (- vx a) (- vy a) (- vz a).

Definition lengthSq (a : Vector3) : float :=
  vx a * vx a + vy a * vy a + vz a * vz a.

Definition length (a : Vector3) : float := Math_sqrt (lengthSq a).

(** [a.normalize()] is [a.divideScalar(a.length() || 1)], and
    [divideScalar(s)] is [multiplyScalar(1 / s)]. *)
Definition normalize (a : Vector3) : Vector3 :=
  multiplyScalar a (1 / or_else (length a) 1).

(** [a.cross(b)]. *)
Definition cross (a b : Vector3) : Vector3 :=
  vec3 (vy a * vz b - vz a * vy b)
       (vz a * vx b - vx a * vz b)
       (vx a * vy b - vy a * vx b).

End V3.

(* ================================================================== *)
(** ** The types of the application ([types.ts]) *)

Inductive AlgoType : Type :=
| stairs | sine | gaussian | ripple | voronoi | noise | fractal | custom
| sphere | pyramid | steps | torus | pagoda | vase | canyon | image | sketch.

Record Point : Type := { px : float; py : float }.

Record PaperSize : Type := { width : float; height : float; margin : float }.

(** A decoded raster: [width], [height] and the RGBA bytes. *)
Record ImageData : Type := {
  imgWidth : nat;
  imgHeight : nat;
  data : list byte
}.

(** [AppState].  The counts [rows], [cols] and [fractalOctaves] are the
    integers the controls produce ([parseInt]); they enter arithmetic
    through [of_nat]. *)
Record AppState : Type := {
  algorithm : AlgoType;
  rows : nat;
  cols : nat;
  amplitude : float;
  frequency : float;
  spread : float;
  curvature : float;
  roughness : float;
  fractalOctaves : nat;
  customFormula : string;
  sketchPoints : list Point;
  foldProgress : float;
  paperThickness : float;
  showWireframe : bool;
  paperSize : PaperSize;
  heightMapData : option ImageData;
  overlayTexture : option string;
  isVideoTexture : bool
}.

Inductive LineType : Type := cut | mountain | valley | spine | outline.

Record BlueprintLine : Type := {
  x1 : float; y1 : float; x2 : float; y2 : float; type : LineType
}.

Definition PAPER_A4 : PaperSize :=
  {| width := 210; height := 297; margin := 20 |}.

Definition LineType_eqb (a b : LineType) : bool :=
  match a, b with
  | cut, cut | mountain, mountain | valley, valley
  | spine, spine | outline, outline => true
  | _, _ => false
  end.

(* ================================================================== *)
(** ** The output arrays and [pushQuad]

    [pushQuad] has the same text in both source files. *)

Record Buffers : Type := {
  positions : list float;
  normals : list float;
  indices : list nat
}.

Definition noBuffers : Buffers :=
  {| positions := []; normals := []; indices := [] |}.

(** [idx = positions.length / 3]: [positions] only ever grows by the twelve
    numbers of a quad, so the division is exact wherever the generators
    call [pushQuad] (lemma [pushQuad_cases] below). *)
Definition pushQuad (b : Buffers) (v0 v1 v2 v3 n : Vector3) : Buffers :=
  let idx := (List.length (positions b) / 3)%nat in
  if isNaN (vx v0) || isNaN (vx n) then b
  else
    {| positions := positions b ++
         [vx v0; vy v0; vz v0; vx v1; vy v1; vz v1;
          vx v2; vy v2; vz v2; vx v3; vy v3; vz v3];
       normals := normals b ++
         [vx n; vy n; vz n; vx n; vy n; vz n;
          vx n; vy n; vz n; vx n; vy n; vz n];
       indices := indices b ++
         [idx; idx + 1; idx + 2; idx; idx + 2; idx + 3]%nat |}.

(** The appends a generator performs, in program order: a call
    [pushVolumetricSegment(positions, normals, indices, v0, v1, v2, v3, n,
    thickness, true, true)] or a [blueprintLines.push(l)]. *)
Inductive Emit : Type :=
| Segment (v0 v1 v2 v3 n : Vector3)
| Line (l : BlueprintLine).

Definition mkLine (a b c d : float) (t : LineType) : BlueprintLine :=
  {| x1 := a; y1 := b; x2 := c; y2 := d; type := t |}.

(** The two arrays a generator fills. *)
Record Acc : Type := { buf : Buffers; blueprintLines : list BlueprintLine }.

Definition linesOf (es : list Emit) : list BlueprintLine :=
  flat_map (fun e => match e with Line l => [l] | Segment _ _ _ _ _ => [] end) es.

Definition isSegment (e : Emit) : bool :=
  match e with Segment _ _ _ _ _ => true | Line _ => false end.

Definition segmentsOf (es : list Emit) : list Emit := filter isSegment es.

Definition countType (t : LineType) (ls : list BlueprintLine) : nat :=
  List.length (filter (fun l => LineType_eqb (type l) t) ls).

(* ================================================================== *)
(** ** [src/unnamed/part_002]: arc strips, spine lines, statistics *)

Module Part002.

Record Stats : Type := {
  totalCutLength : float;
  totalFoldLength : float;
  polyCount : nat
}.

Record GeometryData : Type := {
  g_positions : list float;      (* Float32Array *)
  g_normals : list float;        (* Float32Array *)
  g_indices : list nat;
  g_blueprintLines : list BlueprintLine;
  stats : Stats
}.

(** [pushVolumetricSegment]: top face, and for a positive thickness the
    bottom face and the two side walls. *)
Definition pushVolumetricSegment (b : Buffers) (v0 v1 v2 v3 n : Vector3)
    (thickness : float) (generateLeftWall generateRightWall : bool) : Buffers :=
  let b := pushQuad b v0 v1 v2 v3 n in
  if 0 <? thickness then
    let safeN := V3.normalize n in
    let safeN := if isNaN (vx safeN) then vec3 0 0 1 else safeN in
    let off := V3.multiplyScalar safeN (- thickness) in
    let b0 := V3.add v0 off in
    let b1 := V3.add v1 off in
    let b2 := V3.add v2 off in
    let b3 := V3.add v3 off in
    let b := pushQuad b b0 b3 b2 b1 (V3.negate n) in
    let b :=
      if generateLeftWall then
        let edge := V3.subVectors v3 v0 in
        if 0.000001 <? V3.lengthSq edge then
          let nLeft := V3.normalize (V3.cross n edge) in
          pushQuad b v0 v3 b3 b0 nLeft
        else b
      else b in
    if generateRightWall then
      let edge := V3.subVectors v2 v1 in
      if 0.000001 <? V3.lengthSq edge then
        let nRight := V3.normalize (V3.cross edge n) in
        pushQuad b v1 b1 b2 v2 nRight
      else b
    else b
  else b.

Section Generator.
Context {rt : Runtime}.
Variable state : AppState.

Definition thickness : float := or_else (paperThickness state) 0.1.
Definition effectiveWidth : float :=
  width (paperSize state) - margin (paperSize state) * 2.
Definition stripWidth : float := effectiveWidth / of_nat (cols state).
Definition KERF : float := 0.15.

Definition foldAngleRad : float := foldProgress state * (Math_PI / 2).
Definition vecFloor : Vector3 := vec3 0 1 0.
Definition vecWall : Vector3 := vec3 0 (Math_cos foldAngleRad) (Math_sin foldAngleRad).
Definition normFloor : Vector3 := vec3 0 0 1.
Definition normWall : Vector3 := vec3 0 (- Math_sin foldAngleRad) (Math_cos foldAngleRad).

Definition xBase (c : nat) : float :=
  - width (paperSize state) / 2 + margin (paperSize state) + of_nat c * stripWidth.
Definition xLeft (c : nat) : float := xBase c + KERF / 2.
Definition xRight (c : nat) : float := xBase c + stripWidth - KERF / 2.
Definition normX (c : nat) : float := of_nat c / of_nat (cols state) * 2 - 1.
Definition isPopup (c : nat) : bool := Nat.odd c.

Definition halfHeight : float := height (paperSize state) / 2.

(** The [switch] over [state.algorithm] of an active strip. *)
Definition rawProfileRadius (c : nat) : float :=
  match algorithm state with
  | sphere =>
      let rSphere := amplitude state in
      let xDist := Math_abs (normX c * (width (paperSize state) / 2 - margin (paperSize state))) in
      if xDist <? rSphere then Math_sqrt (rSphere * rSphere - xDist * xDist) else 0
  | pyramid =>
      let rPyr := amplitude state in
      let xD := Math_abs (normX c * (width (paperSize state) / 2 - margin (paperSize state))) in
      Math_max 0 (rPyr - xD)
  | steps | stairs => amplitude state
  | _ => amplitude state * (Math_cos (normX c * Math_PI) * 0.5 + 0.5)
  end.

(** [profileRadius = Math.min(profileRadius, height/2 - margin)]. *)
Definition profileRadius (c : nat) : float :=
  Math_min (rawProfileRadius c) (halfHeight - margin (paperSize state)).

(** [pTop], [pWallMarginEnd]: the far end of the wall. *)
Definition pTop : Vector3 := V3.addScaledVector V3.zero vecWall halfHeight.

(** A fixed (even) column. *)
Definition fixedColumn (c : nat) : list Emit :=
  [ Segment (vec3 (xLeft c) (- height (paperSize state) / 2) 0)
            (vec3 (xRight c) (- height (paperSize state) / 2) 0)
            (vec3 (xRight c) 0 0) (vec3 (xLeft c) 0 0) normFloor;
    Line (mkLine (xLeft c) (- height (paperSize state) / 2) (xLeft c) 0 spine);
    Line (mkLine (xRight c) (- height (paperSize state) / 2) (xRight c) 0 spine);
    Segment (vec3 (xLeft c) (vy V3.zero) (vz V3.zero))
            (vec3 (xRight c) (vy V3.zero) (vz V3.zero))
            (vec3 (xRight c) (vy pTop) (vz pTop))
            (vec3 (xLeft c) (vy pTop) (vz pTop)) normWall;
    Line (mkLine (xLeft c) 0 (xRight c) 0 valley);
    Line (mkLine (xLeft c) 0 (xLeft c) halfHeight spine);
    Line (mkLine (xRight c) 0 (xRight c) halfHeight spine) ].

(** An active column whose radius is negligible: treated as passive. *)
Definition negligibleColumn (c : nat) : list Emit :=
  [ Segment (vec3 (xLeft c) (- height (paperSize state) / 2) 0)
            (vec3 (xRight c) (- height (paperSize state) / 2) 0)
            (vec3 (xRight c) 0 0) (vec3 (xLeft c) 0 0) normFloor;
    Segment (vec3 (xLeft c) 0 0) (vec3 (xRight c) 0 0)
            (vec3 (xRight c) (vy pTop) (vz pTop))
            (vec3 (xLeft c) (vy pTop) (vz pTop)) normWall;
    Line (mkLine (xLeft c) 0 (xRight c) 0 valley) ].

(** [steps = Math.max(2, state.rows)], as the loop bound and as a number. *)
Definition stepsN : nat := Nat.max 2 (rows state).
Definition stepsF : float := Math_max 2 (of_nat (rows state)).

(** One turn of the [for] loop over the steps: a tread, then a riser. *)
Definition stepBody (c i : nat) (currentPos : Vector3) (currentPaperY : float)
  : list Emit * Vector3 * float :=
  let r := profileRadius c in
  let ang1 := of_nat i / stepsF * (Math_PI / 2) in
  let ang2 := (of_nat i + 1) / stepsF * (Math_PI / 2) in
  let y1 := - r * Math_cos ang1 in
  let z1 := r * Math_sin ang1 in
  let y2 := - r * Math_cos ang2 in
  let z2 := r * Math_sin ang2 in
  let dy := Math_abs (y2 - y1) in
  let dz := Math_abs (z2 - z1) in
  let pTreadEnd := V3.addScaledVector currentPos vecFloor dy in
  let tread :=
    Segment (vec3 (xLeft c) (vy currentPos) (vz currentPos))
            (vec3 (xRight c) (vy currentPos) (vz currentPos))
            (vec3 (xRight c) (vy pTreadEnd) (vz pTreadEnd))
            (vec3 (xLeft c) (vy pTreadEnd) (vz pTreadEnd)) normFloor in
  let currentPaperY := currentPaperY + dy in
  let currentPos := pTreadEnd in
  let valleyFold :=
    if 0.01 <? dz
    then [Line (mkLine (xLeft c) currentPaperY (xRight c) currentPaperY valley)]
    else [] in
  let pRiserEnd := V3.addScaledVector currentPos vecWall dz in
  let riser :=
    Segment (vec3 (xLeft c) (vy currentPos) (vz currentPos))
            (vec3 (xRight c) (vy currentPos) (vz currentPos))
            (vec3 (xRight c) (vy pRiserEnd) (vz pRiserEnd))
            (vec3 (xLeft c) (vy pRiserEnd) (vz pRiserEnd)) normWall in
  let currentPaperY := currentPaperY + dz in
  let currentPos := pRiserEnd in
  let mountainFold :=
    if (of_nat i <? stepsF - 1) && (0.01 <? dy)
    then [Line (mkLine (xLeft c) currentPaperY (xRight c) currentPaperY mountain)]
    else [] in
  ([tread] ++ valleyFold ++ [riser] ++ mountainFold, currentPos, currentPaperY).

(** [for (let i = 0; i < steps; i++)]: [n] turns are left, the next is [i]. *)
Fixpoint stepLoop (c n i : nat) (currentPos : Vector3) (currentPaperY : float)
  : list Emit * Vector3 * float :=
  match n with
  | O => ([], currentPos, currentPaperY)
  | S n' =>
      let '(es, pos, y) := stepBody c i currentPos currentPaperY in
      let '(es', pos', y') := stepLoop c n' (S i) pos y in
      (es ++ es', pos', y')
  end.

(** An active column that pops up. *)
Definition activeColumn (c : nat) : list Emit :=
  let yStart := - profileRadius c in
  let currentPos := vec3 0 yStart 0 in
  let currentPaperY := yStart in
  let '(es, currentPos, _) := stepLoop c stepsN 0 currentPos currentPaperY in
  let pWallMarginEnd := V3.addScaledVector (vec3 0 0 0) vecWall halfHeight in
  [ Segment (vec3 (xLeft c) (- height (paperSize state) / 2) 0)
            (vec3 (xRight c) (- height (paperSize state) / 2) 0)
            (vec3 (xRight c) yStart 0) (vec3 (xLeft c) yStart 0) normFloor;
    Line (mkLine (xLeft c) (- height (paperSize state) / 2) (xLeft c) halfHeight cut);
    Line (mkLine (xRight c) (- height (paperSize state) / 2) (xRight c) halfHeight cut) ]
  ++ es ++
  [ Segment (vec3 (xLeft c) (vy currentPos) (vz currentPos))
            (vec3 (xRight c) (vy currentPos) (vz currentPos))
            (vec3 (xRight c) (vy pWallMarginEnd) (vz pWallMarginEnd))
            (vec3 (xLeft c) (vy pWallMarginEnd) (vz pWallMarginEnd)) normWall ].

(** The body of the loop over the columns. *)
Definition column (c : nat) : list Emit :=
  if negb (isPopup c) then fixedColumn c
  else if profileRadius c <? 1 then negligibleColumn c
  else activeColumn c.

(** Performing one append. *)
Definition perform (a : Acc) (e : Emit) : Acc :=
  match e with
  | Segment v0 v1 v2 v3 n =>
      {| buf := pushVolumetricSegment (buf a) v0 v1 v2 v3 n thickness true true;
         blueprintLines := blueprintLines a |}
  | Line l => {| buf := buf a; blueprintLines := blueprintLines a ++ [l] |}
  end.

Definition execute (es : list Emit) (a : Acc) : Acc := fold_left perform es a.

(** [for (let c = 0; c < state.cols; c++)]. *)
Definition columns : list Emit := flat_map column (seq 0 (cols state)).

(** [len] of the statistics loop. *)
Definition lineLength (l : BlueprintLine) : float :=
  Math_sqrt (Math_pow (x2 l - x1 l) 2 + Math_pow (y2 l - y1 l) 2).

(** [blueprintLines.forEach(...)]: the pair [(totalCut, totalFold)]. *)
Definition accumulate (tot : float * float) (l : BlueprintLine) : float * float :=
  let '(totalCut, totalFold) := tot in
  let len := lineLength l in
  let totalCut := if LineType_eqb (type l) cut then totalCut + len else totalCut in
  let totalFold :=
    if LineType_eqb (type l) mountain || LineType_eqb (type l) valley
    then totalFold + len else totalFold in
  (totalCut, totalFold).

Definition generateKirigamiGeometry : GeometryData :=
  let a := execute columns {| buf := noBuffers; blueprintLines := [] |} in
  let '(totalCut, totalFold) := fold_left accumulate (blueprintLines a) (0, 0) in
  {| g_positions := Float32Array (positions (buf a));
     g_normals := Float32Array (normals (buf a));
     g_indices := indices (buf a);
     g_blueprintLines := blueprintLines a;
     stats := {| totalCutLength := totalCut;
                 totalFoldLength := totalFold;
                 (* [indices.length / 3]: exact, six indices per quad *)
                 polyCount := (List.length (indices (buf a)) / 3)%nat |} |}.

End Generator.
End Part002.

(* ================================================================== *)
(** ** [src/utils/mathEngine.ts]: shape profiles, stepped strips *)

Module MathEngine.

Record GeometryData : Type := {
  g_positions : list float;      (* Float32Array *)
  g_normals : list float;        (* Float32Array *)
  g_indices : list nat;
  g_blueprintLines : list BlueprintLine
}.

(** Catmull-Rom spline interpolation. *)
Definition catmullRom (p0 p1 p2 p3 t : float) : float :=
  let v0 := (p2 - p0) * 0.5 in
  let v1 := (p3 - p1) * 0.5 in
  let t2 := t * t in
  let t3 := t * t2 in
  (2 * p1 - 2 * p2 + v0 + v1) * t3 + (- 3 * p1 + 3 * p2 - 2 * v0 - v1) * t2 + v0 * t + p1.

(** [pushVolumetricSegment]: here both side normals are [edge x n]. *)
Definition pushVolumetricSegment (b : Buffers) (v0 v1 v2 v3 n : Vector3)
    (thickness : float) (generateLeftWall generateRightWall : bool) : Buffers :=
  let b := pushQuad b v0 v1 v2 v3 n in
  if 0 <? thickness then
    let safeN := V3.normalize n in
    let safeN := if isNaN (vx safeN) then vec3 0 0 1 else safeN in
    let off := V3.multiplyScalar safeN (- thickness) in
    let b0 := V3.add v0 off in
    let b1 := V3.add v1 off in
    let b2 := V3.add v2 off in
    let b3 := V3.add v3 off in
    let b := pushQuad b b0 b3 b2 b1 (V3.negate n) in
    let b :=
      if generateLeftWall then
        let edge := V3.subVectors v3 v0 in
        if 0.000001 <? V3.lengthSq edge then
          let nLeft := V3.normalize (V3.cross edge n) in
          pushQuad b v0 v3 b3 b0 nLeft
        else b
      else b in
    if generateRightWall then
      let edge := V3.subVectors v2 v1 in
      if 0.000001 <? V3.lengthSq edge then
        let nRight := V3.normalize (V3.cross edge n) in
        pushQuad b v1 b1 b2 v2 nRight
      else b
    else b
  else b.

Section Generator.
Context {rt : Runtime}.
Variable state : AppState.

Definition thickness : float := or_else (paperThickness state) 0.1.
Definition effectiveWidth : float :=
  width (paperSize state) - margin (paperSize state) * 2.
Definition stripWidth : float := effectiveWidth / of_nat (cols state).
Definition KERF : float := 0.15.

Definition alpha : float := foldProgress state * (Math_PI / 2).
Definition vecTread : Vector3 := vec3 0 1 0.
Definition normTread : Vector3 := vec3 0 0 1.
Definition vecRiser : Vector3 := vec3 0 (Math_cos alpha) (Math_sin alpha).
Definition normRiser : Vector3 := vec3 0 (- Math_sin alpha) (Math_cos alpha).

Definition xBase (c : nat) : float :=
  - width (paperSize state) / 2 + margin (paperSize state) + of_nat c * stripWidth.
Definition xLeft (c : nat) : float := xBase c + KERF / 2.
Definition xRight (c : nat) : float := xBase c + stripWidth - KERF / 2.
Definition normX (c : nat) : float := of_nat c / of_nat (cols state) * 2 - 1.
Definition isPopup (c : nat) : bool := Nat.odd c.

(** The [for] loop of the fractal profile: [n] octaves are left, the next
    is [k]. *)
Fixpoint fractalLoop (nX : float) (n k : nat) (v amp freq : float) : float :=
  match n with
  | O => v
  | S n' =>
      let v := v + Math_sin (nX * 5 * freq + of_nat k * 1.32) * amp in
      fractalLoop nX n' (S k) v (amp * 0.5) (freq * 2)
  end.

(** [pts[i]]; the accesses below stay inside the array. *)
Definition pointAt (pts : list Point) (i : nat) : Point :=
  nth i pts {| px := nan; py := nan |}.

(** [while (i < pts.length - 2 && u > pts[i+1].x) i++]: at most
    [pts.length] turns. *)
Fixpoint sketchIndex (pts : list Point) (u : float) (fuel i : nat) : nat :=
  match fuel with
  | O => i
  | S fuel' =>
      if (i <? List.length pts - 2)%nat && (px (pointAt pts (i + 1)) <? u)
      then sketchIndex pts u fuel' (S i)
      else i
  end.

(** The [switch] over [state.algorithm] that sets [shapeFactor] of an
    active column. *)
Definition profile (c : nat) : float :=
  let normX := normX c in
  let f := frequency state in
  let rough := roughness state in
  match algorithm state with
  | stairs => 1
  | sine => Math_abs (Math_sin (normX * Math_PI * f))
  | gaussian => Math_exp (- (normX * normX * spread state / 100))
  | ripple =>
      (Math_cos (Math_abs normX * 10 * f) * 0.5 + 0.5) * Math_exp (- Math_abs normX * 2)
  | voronoi => Math_abs (Math_sin (normX * 10)) * Math_abs (Math_cos (normX * 5 * f))
  | noise => Math_sin (normX * 13.0 * f) * Math_sin (normX * 27.0) * 0.5 + 0.5
  | sphere =>
      let sphExp := Math_max 0.1 (curvature state) in
      let sphWidth := 0.5 + f * 0.5 in
      let sphX := Math_abs (normX * sphWidth) in
      if sphX <? 1 then
        let baseVal := Math_pow (1 - Math_pow sphX sphExp) (1 / sphExp) in
        if 0 <? rough
        then baseVal + Math_abs (Math_sin (normX * 40 * sphWidth)) * rough * 0.2 * baseVal
        else baseVal
      else 0
  | pyramid =>
      let pyrExp := Math_max 0.1 (curvature state) in
      let pyrWidth := 0.5 + f * 0.5 in
      let pyrX := Math_abs (normX * pyrWidth) in
      let basePyr := Math_pow (Math_max 0 (1 - pyrX)) pyrExp in
      if 0 <? rough then
        let steps := 2 + Math_floor ((1.1 - rough) * 20) in
        Math_floor (basePyr * steps) / steps
      else basePyr
  | torus =>
      let torExp := Math_max 0.1 (curvature state) in
      let torScale := 1.0 + f in
      let torX := (Math_abs normX - 0.5) * torScale * 2 in
      if Math_abs torX <? 1 then
        let baseTor := Math_pow (1 - Math_pow (Math_abs torX) torExp) (1 / torExp) in
        if 0 <? rough
        then baseTor + Math_sin (normX * 30) * rough * 0.3 * baseTor
        else baseTor
      else 0
  | pagoda =>
      let pTiers := 2 + Math_floor (f * 4) in
      let rawPagoda := Math_max 0 (1 - Math_abs normX * 1.2) in
      let pagodaCurve := curvature state * 0.5 in
      let curvedP := Math_pow rawPagoda pagodaCurve in
      let curvedP :=
        if 0 <? rough then
          let tierPhase := rem1 (curvedP * pTiers) in
          if tierPhase <? 0.2 then curvedP + (0.2 - tierPhase) * rough * 0.5 else curvedP
        else curvedP in
      Math_floor (curvedP * pTiers) / pTiers
  | vase =>
      let vx := normX * Math_PI * (f + 0.5) in
      let envPow := curvature state in
      let envelope := Math_max 0 (1 - Math_pow (Math_abs normX) envPow) in
      let vaseShape := (Math_cos (vx * 2) * 0.5 + 0.5) * envelope in
      if 0 <? rough
      then vaseShape + Math_cos (normX * 60) * rough * 0.1 * envelope
      else vaseShape
  | canyon =>
      let cx := Math_abs (normX * (0.5 + f * 0.5)) in
      let canyonExp := curvature state in
      let baseCanyon := Math_pow (Math_min 1 (Math_max 0 cx)) canyonExp in
      if 0 <? rough then
        let pseudoRand := Math_sin (of_nat c * 12.9898) * 43758.5453 in
        let noise := (pseudoRand - Math_floor pseudoRand) * rough * 0.2 in
        baseCanyon + noise
      else baseCanyon
  | steps =>
      let stepCount := Math_floor (2 + f * 8) in
      let stepRaw := Math_max 0 (1 - Math_abs normX) in
      let stepRaw := Math_pow stepRaw (curvature state) in
      Math_floor (stepRaw * stepCount) / stepCount
  | fractal =>
      let v := fractalLoop normX (fractalOctaves state) 0 0 0.5 f in
      Math_min 1 (Math_abs v + 0.1)
  | custom =>
      match evalFormula (customFormula state) normX f (of_nat c) with
      | SyntaxError => 0
      | RuntimeError =>
          let result := 0 in
          if isNaN result then 0 else Math_max 0 (Math_min 1 (Math_abs result))
      | Returns result =>
          if isNaN result then 0 else Math_max 0 (Math_min 1 (Math_abs result))
      end
  | image =>
      match heightMapData state with
      | Some img =>
          let u := (normX + 1) / 2 in
          let imgW := of_nat (imgWidth img) in
          let imgH := of_nat (imgHeight img) in
          let col := Math_floor (u * (imgW - 1)) in
          let row := Math_floor (imgH / 2) in
          let idx := (row * imgW + col) * 4 in
          let brightness :=
            (byteAt (data img) idx + byteAt (data img) (idx + 1)
             + byteAt (data img) (idx + 2)) / 3 in
          brightness / 255
      | None => 0
      end
  | sketch =>
      let pts := sketchPoints state in
      if (1 <? List.length pts)%nat then
        let u := (normX + 1) / 2 in
        if (List.length pts <? 2)%nat then py (pointAt pts 0)
        else
          let i := sketchIndex pts u (List.length pts) 0 in
          let p1 := pointAt pts i in
          let p2 := pointAt pts (i + 1) in
          let p0 := if (0 <? i)%nat then pointAt pts (i - 1)
                    else {| px := px p1 - (px p2 - px p1); py := py p1 |} in
          let p3 := if (i <? List.length pts - 2)%nat then pointAt pts (i + 2)
                    else {| px := px p2 + (px p2 - px p1); py := py p2 |} in
          let range := px p2 - px p1 in
          let tLerp := if range =? 0 then 0 else (u - px p1) / range in
          Math_max 0 (Math_min 1 (catmullRom (py p0) (py p1) (py p2) (py p3) tLerp))
      else 0.5
  end.

(** [shapeFactor]: 0 unless the column is a pop-up. *)
Definition shapeFactor (c : nat) : float :=
  if isPopup c then profile c else 0.

Definition maxSafe : float := height (paperSize state) / 2 - 5.

(** [amplitude] of a column, after the clamp. *)
Definition columnAmplitude (c : nat) : float :=
  Math_min (Math_abs (amplitude state * shapeFactor c)) maxSafe.

Definition isFlat (c : nat) : bool := columnAmplitude c <? 0.5.

Definition run (c : nat) : float := if isFlat c then 0 else columnAmplitude c.
Definition rise (c : nat) : float := if isFlat c then 0 else columnAmplitude c.
Definition numSteps (c : nat) : nat := if isFlat c then 1%nat else rows state.
Definition stepRun (c : nat) : float := run c / of_nat (numSteps c).
Definition stepRise (c : nat) : float := rise c / of_nat (numSteps c).

Definition yPaperBottom : float := - height (paperSize state) / 2.
Definition yAnchorFloor (c : nat) : float := - run c.

Definition pWallStart (c : nat) : Vector3 := V3.addScaledVector V3.zero vecRiser (rise c).
Definition pWallEnd : Vector3 :=
  V3.addScaledVector V3.zero vecRiser (height (paperSize state) / 2).

(** One turn of the strip loop: a riser, then a tread. *)
Definition stepBody (c i : nat) (currentPos : Vector3) (currentPaperY : float)
  : list Emit * Vector3 * float :=
  let pStart := currentPos in
  let pEnd := V3.addScaledVector currentPos vecRiser (stepRise c) in
  let riser :=
    Segment (vec3 (xLeft c) (vy pStart) (vz pStart))
            (vec3 (xRight c) (vy pStart) (vz pStart))
            (vec3 (xRight c) (vy pEnd) (vz pEnd))
            (vec3 (xLeft c) (vy pEnd) (vz pEnd)) normRiser in
  let currentPos := pEnd in
  let currentPaperY := currentPaperY + stepRise c in
  let mountainFold :=
    Line (mkLine (xLeft c) currentPaperY (xRight c) currentPaperY mountain) in
  let pStartT := currentPos in
  let pEndT := V3.addScaledVector currentPos vecTread (stepRun c) in
  let tread :=
    Segment (vec3 (xLeft c) (vy pStartT) (vz pStartT))
            (vec3 (xRight c) (vy pStartT) (vz pStartT))
            (vec3 (xRight c) (vy pEndT) (vz pEndT))
            (vec3 (xLeft c) (vy pEndT) (vz pEndT)) normTread in
  let currentPos := pEndT in
  let currentPaperY := currentPaperY + stepRun c in
  let valleyFold :=
    if (i <? numSteps c - 1)%nat
    then [Line (mkLine (xLeft c) currentPaperY (xRight c) currentPaperY valley)]
    else [] in
  ([riser; mountainFold; tread] ++ valleyFold, currentPos, currentPaperY).

(** [for (let i = 0; i < numSteps; i++)]: [n] turns are left, the next is [i]. *)
Fixpoint stepLoop (c n i : nat) (currentPos : Vector3) (currentPaperY : float)
  : list Emit * Vector3 * float :=
  match n with
  | O => ([], currentPos, currentPaperY)
  | S n' =>
      let '(es, pos, y) := stepBody c i currentPos currentPaperY in
      let '(es', pos', y') := stepLoop c n' (S i) pos y in
      (es ++ es', pos', y')
  end.

(** The two frames every column starts with. *)
Definition frames (c : nat) : list Emit :=
  [ Segment (vec3 (xLeft c) yPaperBottom 0) (vec3 (xRight c) yPaperBottom 0)
            (vec3 (xRight c) (yAnchorFloor c) 0) (vec3 (xLeft c) (yAnchorFloor c) 0)
            normTread;
    Segment (vec3 (xLeft c) (vy (pWallStart c)) (vz (pWallStart c)))
            (vec3 (xRight c) (vy (pWallStart c)) (vz (pWallStart c)))
            (vec3 (xRight c) (vy pWallEnd) (vz pWallEnd))
            (vec3 (xLeft c) (vy pWallEnd) (vz pWallEnd)) normRiser ].

(** The strip of a column that is not flat. *)
Definition strip (c : nat) : list Emit :=
  let currentPos := vec3 0 (yAnchorFloor c) 0 in
  let currentPaperY := yAnchorFloor c in
  let '(es, _, currentPaperY') := stepLoop c (numSteps c) 0 currentPos currentPaperY in
  [ Line (mkLine (xLeft c) (yAnchorFloor c) (xLeft c) (rise c) cut);
    Line (mkLine (xRight c) (yAnchorFloor c) (xRight c) (rise c) cut);
    Line (mkLine (xLeft c) currentPaperY (xRight c) currentPaperY valley) ]
  ++ es ++
  [ Line (mkLine (xLeft c) currentPaperY' (xRight c) currentPaperY' valley) ].

(** The flat spacer of a flat column. *)
Definition flatSpacer (c : nat) : list Emit :=
  [ Segment (vec3 (xLeft c) (yAnchorFloor c) 0) (vec3 (xRight c) (yAnchorFloor c) 0)
            (vec3 (xRight c) (vy (pWallStart c)) (vz (pWallStart c)))
            (vec3 (xLeft c) (vy (pWallStart c)) (vz (pWallStart c))) normTread;
    Line (mkLine (xLeft c) 0 (xRight c) 0 valley) ].

(** The body of the loop over the columns. *)
Definition column (c : nat) : list Emit :=
  frames c ++ (if negb (isFlat c) then strip c else flatSpacer c).

Definition perform (a : Acc) (e : Emit) : Acc :=
  match e with
  | Segment v0 v1 v2 v3 n =>
      {| buf := pushVolumetricSegment (buf a) v0 v1 v2 v3 n thickness true true;
         blueprintLines := blueprintLines a |}
  | Line l => {| buf := buf a; blueprintLines := blueprintLines a ++ [l] |}
  end.

Definition execute (es : list Emit) (a : Acc) : Acc := fold_left perform es a.

(** [for (let c = 0; c < state.cols; c++)]. *)
Definition columns : list Emit := flat_map column (seq 0 (cols state)).

Definition generateKirigamiGeometry : GeometryData :=
  let a := execute columns {| buf := noBuffers; blueprintLines := [] |} in
  {| g_positions := Float32Array (positions (buf a));
     g_normals := Float32Array (normals (buf a));
     g_indices := indices (buf a);
     g_blueprintLines := blueprintLines a |}.

End Generator.
End MathEngine.

(* ================================================================== *)
(** ** A runtime for the worked scenarios

    The correctly rounded values of the library functions at the arguments
    the scenarios below reach, NaN elsewhere, and the outcome of a few
    formula texts. *)

Definition quarterTurn : float := Math_PI / 2.
Definition eighthTurn : float := 1 / 2 * (Math_PI / 2).

Definition exampleSin (x : float) : float :=
  if is_zero x then x
  else if x =? eighthTurn then 0.7071067811865475
  else if x =? quarterTurn then 1
  else nan.

Definition exampleCos (x : float) : float :=
  if is_zero x then 1
  else if x =? eighthTurn then 0.7071067811865476
  else if x =? quarterTurn then 6.123233995736766e-17
  else nan.

Definition exampleExp (x : float) : float :=
  if is_zero x then 1 else nan.

Definition examplePow (x y : float) : float :=
  if is_zero y then 1
  else if y =? 1 then x
  else if y =? 2 then x * x
  else if x =? 1 then (if is_nan y || is_infinity y then nan else 1)
  else if is_zero x && (0 <? y) then 0
  else nan.

Definition exampleFormula (text : string) (x f i : float) : FormulaOutcome :=
  if String.eqb text "NaN" then Returns nan
  else if String.eqb text "Infinity" then Returns infinity
  else if String.eqb text "-1/0" then Returns neg_infinity
  else if String.eqb text "x" then Returns x
  else if String.eqb text "y" then RuntimeError
  else SyntaxError.

Definition exampleRuntime : Runtime :=
  {| Math_sin := exampleSin; Math_cos := exampleCos; Math_exp := exampleExp;
     Math_pow := examplePow; evalFormula := exampleFormula |}.

(** The initial state of the application, on A4 paper. *)
Definition initialState : AppState :=
  {| algorithm := sphere; rows := 12; cols := 31; amplitude := 50;
     frequency := 1.0; spread := 300; curvature := 2.0; roughness := 0.0;
     fractalOctaves := 3;
     customFormula := "Math.sin(x * 10 * f) * Math.cos(x * 5)";
     sketchPoints := [ {| px := 0; py := 0 |}; {| px := 0.5; py := 0.8 |};
                       {| px := 1; py := 0 |} ];
     foldProgress := 0.8; paperThickness := 0.2; showWireframe := false;
     paperSize := PAPER_A4; heightMapData := None; overlayTexture := None;
     isVideoTexture := false |}.

Definition withAlgorithm (a : AlgoType) (s : AppState) : AppState :=
  {| algorithm := a; rows := rows s; cols := cols s; amplitude := amplitude s;
     frequency := frequency s; spread := spread s; curvature := curvature s;
     roughness := roughness s; fractalOctaves := fractalOctaves s;
     customFormula := customFormula s; sketchPoints := sketchPoints s;
     foldProgress := foldProgress s; paperThickness := paperThickness s;
     showWireframe := showWireframe s; paperSize := paperSize s;
     heightMapData := heightMapData s; overlayTexture := overlayTexture s;
     isVideoTexture := isVideoTexture s |}.

Definition withGrid (r c : nat) (s : AppState) : AppState :=
  {| algorithm := algorithm s; rows := r; cols := c; amplitude := amplitude s;
     frequency := frequency s; spread := spread s; curvature := curvature s;
     roughness := roughness s; fractalOctaves := fractalOctaves s;
     customFormula := customFormula s; sketchPoints := sketchPoints s;
     foldProgress := foldProgress s; paperThickness := paperThickness s;
     showWireframe := showWireframe s; paperSize := paperSize s;
     heightMapData := heightMapData s; overlayTexture := overlayTexture s;
     isVideoTexture := isVideoTexture s |}.

Definition withAmplitude (a : float) (s : AppState) : AppState :=
  {| algorithm := algorithm s; rows := rows s; cols := cols s; amplitude := a;
     frequency := frequency s; spread := spread s; curvature := curvature s;
     roughness := roughness s; fractalOctaves := fractalOctaves s;
     customFormula := customFormula s; sketchPoints := sketchPoints s;
     foldProgress := foldProgress s; paperThickness := paperThickness s;
     showWireframe := showWireframe s; paperSize := paperSize s;
     heightMapData := heightMapData s; overlayTexture := overlayTexture s;
     isVideoTexture := isVideoTexture s |}.

Definition withRoughness (r : float) (s : AppState) : AppState :=
  {| algorithm := algorithm s; rows := rows s; cols := cols s;
     amplitude := amplitude s;
     frequency := frequency s; spread := spread s; curvature := curvature s;
     roughness := r; fractalOctaves := fractalOctaves s;
     customFormula := customFormula s; sketchPoints := sketchPoints s;
     foldProgress := foldProgress s; paperThickness := paperThickness s;
     showWireframe := showWireframe s; paperSize := paperSize s;
     heightMapData := heightMapData s; overlayTexture := overlayTexture s;
     isVideoTexture := isVideoTexture s |}.

Definition withFormula (t : string) (s : AppState) : AppState :=
  {| algorithm := algorithm s; rows := rows s; cols := cols s;
     amplitude := amplitude s;
     frequency := frequency s; spread := spread s; curvature := curvature s;
     roughness := roughness s; fractalOctaves := fractalOctaves s;
     customFormula := t; sketchPoints := sketchPoints s;
     foldProgress := foldProgress s; paperThickness := paperThickness s;
     showWireframe := showWireframe s; paperSize := paperSize s;
     heightMapData := heightMapData s; overlayTexture := overlayTexture s;
     isVideoTexture := isVideoTexture s |}.

(** [{ ...state, foldProgress: t }]. *)
Definition withFoldProgress (t : float) (s : AppState) : AppState :=
  {| algorithm := algorithm s; rows := rows s; cols := cols s;
     amplitude := amplitude s;
     frequency := frequency s; spread := spread s; curvature := curvature s;
     roughness := roughness s; fractalOctaves := fractalOctaves s;
     customFormula := customFormula s; sketchPoints := sketchPoints s;
     foldProgress := t; paperThickness := paperThickness s;
     showWireframe := showWireframe s; paperSize := paperSize s;
     heightMapData := heightMapData s; overlayTexture := overlayTexture s;
     isVideoTexture := isVideoTexture s |}.

(** The end-to-end scenario: three columns, two rows, stairs of amplitude
    50, fully folded, on A4 paper. *)
Definition scenario : AppState :=
  withFoldProgress 1 (withAmplitude 50 (withGrid 2 3 (withAlgorithm stairs initialState))).

(* ================================================================== *)
(** ** What the properties speak about *)

(** A number in the closed interval [0,1] (NaN is in no interval). *)
Definition in01 (r : float) : Prop := (0 <=? r) && (r <=? 1) = true.

(** The output arrays are well formed: one normal per position, three
    numbers per vertex, three indices per triangle, every index a vertex. *)
Definition wellFormed (pos nor : list float) (ind : list nat) : Prop :=
  List.length nor = List.length pos
  /\ (List.length pos mod 3 = 0)%nat
  /\ (List.length ind mod 3 = 0)%nat
  /\ Forall (fun i => (i < List.length pos / 3)%nat) ind.

(** The invariant of the arrays while they are filled: [k] quads so far. *)
Definition quads (k : nat) (b : Buffers) : Prop :=
  List.length (positions b) = (12 * k)%nat
  /\ List.length (normals b) = (12 * k)%nat
  /\ List.length (indices b) = (6 * k)%nat
  /\ Forall (fun i => (i < 4 * k)%nat) (indices b).

Definition wfBuffers (b : Buffers) : Prop := exists k, quads k b.

(** The sum of the Euclidean lengths of the lines of type [t], added up in
    the order of the blueprint. *)
Definition euclideanLength (l : BlueprintLine) : float :=
  Math_sqrt ((x2 l - x1 l) * (x2 l - x1 l) + (y2 l - y1 l) * (y2 l - y1 l)).

Definition sumLengths (keep : BlueprintLine -> bool) (ls : list BlueprintLine) : float :=
  fold_left (fun acc l => acc + euclideanLength l) (filter keep ls) 0.

Definition isCut (l : BlueprintLine) : bool := LineType_eqb (type l) cut.
Definition isFold (l : BlueprintLine) : bool :=
  LineType_eqb (type l) mountain || LineType_eqb (type l) valley.

(** A vertical line at abscissa [x]. *)
Definition verticalAt (x : float) (l : BlueprintLine) : Prop :=
  x1 l = x /\ x2 l = x.

(** A finite number: neither NaN nor an infinity. *)
Definition finite (x : float) : Prop := is_finite x = true.

(** A design configuration: an [AppState] whose numbers are finite and
    which meets the invariants of the data model. *)
Record DesignConfig (st : AppState) : Prop := {
  cols_positive : (1 <= cols st)%nat;
  amplitude_finite : finite (amplitude st);
  frequency_finite : finite (frequency st);
  spread_finite : finite (spread st);
  curvature_finite : finite (curvature st);
  roughness_finite : finite (roughness st);
  foldProgress_range : (0 <=? foldProgress st) && (foldProgress st <=? 1) = true;
  thickness_nonneg : (0 <=? paperThickness st) = true;
  width_finite : finite (width (paperSize st));
  height_finite : finite (height (paperSize st));
  margin_finite : finite (margin (paperSize st));
  margin_small :
    (margin (paperSize st)
       <? Math_min (width (paperSize st)) (height (paperSize st)) / 2) = true
}.

(** Representations: zero or [m * 2^e]; a zero. *)
Definition SFfinite (x : spec_float) : Prop :=
  match x with S754_zero _ | S754_finite _ _ _ => True | _ => False end.

Definition SFzero (x : spec_float) : Prop :=
  match x with S754_zero _ => True | _ => False end.

(** Further states of the worked examples: the vase profile at the centre
    of two columns with roughness 1, a custom formula, stairs taller and
    flatter than the scenario's. *)
Definition vaseState : AppState :=
  withRoughness 1 (withGrid 12 2 (withAlgorithm vase initialState)).

Definition customState (formula : string) : AppState :=
  withFormula formula (withGrid 12 2 (withAlgorithm custom initialState)).

Definition tallState : AppState := withAmplitude 140 scenario.

Definition flatState : AppState := withAmplitude 0 scenario.

(** What the end-to-end scenario says of a generator, given the events of
    its columns, its blueprint and the extents of column 1: two segments
    in columns 0 and 2, two static segments and two pairs in column 1, two
    cut lines at the extents, one mountain line, at most two valley lines
    in column 1. *)
Definition scenarioClaim (column : nat -> list Emit) (blueprint : list BlueprintLine)
    (xL xR : float) : Prop :=
  List.length (segmentsOf (column 0%nat)) = 2%nat
  /\ List.length (segmentsOf (column 2%nat)) = 2%nat
  /\ List.length (segmentsOf (column 1%nat)) = (2 + 2 * 2)%nat
  /\ (exists y y', filter isCut blueprint = [mkLine xL y xL y' cut; mkLine xR y xR y' cut])
  /\ countType mountain blueprint = 1%nat
  /\ (countType valley (linesOf (column 1%nat)) <= 2)%nat.

(** The numbers a byte can be, and the check that the normalized
    brightness of three of them is in [0,1]. *)
Definition byteValues : list float := Eval vm_compute in map of_nat (seq 0 256).

Definition brightnessOk (a b c : float) : bool :=
  let r := (a + b + c) / 3 / 255 in
  (0 <=? r) && (r <=? 1).

Section RuntimeConditions.
Context {rt : Runtime}.

(** The correctly rounded sines and cosines the scenario reaches. *)
Definition trigAtScenario : Prop :=
  Math_sin 0 = 0 /\ Math_cos 0 = 1
  /\ Math_sin eighthTurn = 0.7071067811865475
  /\ Math_cos eighthTurn = 0.7071067811865476
  /\ Math_sin quarterTurn = 1
  /\ Math_cos quarterTurn = 6.123233995736766e-17.

(** [Math.pow(x, 2)] is the square of [x]. *)
Definition powSquares : Prop := forall x : float, Math_pow x 2 = x * x.

(** The exact values the language requires at zero. *)
Definition exactAtZero : Prop := Math_cos 0 = 1 /\ Math_pow 0 2 = 0.

End RuntimeConditions.

(* ================================================================== *)
(** ** [src/unnamed/part_004]: the application state and its history *)

Module App.

(** The three [useState] cells of the component. *)
Record Store : Type := {
  appState : AppState;
  history : list AppState;
  historyIndex : nat
}.

(** [useState(initialState)], [useState([initialState])], [useState(0)]. *)
Definition initialStore : Store :=
  {| appState := initialState; history := [initialState]; historyIndex := 0 |}.

(** A call of one of the three setters.  A handler reads the cells of the
    render it was created in and calls setters; the calls are applied, in
    order, to the cells before the next render.  [setAppState] takes an
    updater; storing a value [v] is the updater [fun _ => v]. *)
Inductive SetCall : Type :=
| setAppState (f : AppState -> AppState)
| setHistory (h : list AppState)
| setHistoryIndex (i : nat).

Definition applyCall (s : Store) (u : SetCall) : Store :=
  match u with
  | setAppState f =>
      {| appState := f (appState s); history := history s; historyIndex := historyIndex s |}
  | setHistory h =>
      {| appState := appState s; history := h; historyIndex := historyIndex s |}
  | setHistoryIndex i =>
      {| appState := appState s; history := history s; historyIndex := i |}
  end.

Definition applyCalls (calls : list SetCall) (s : Store) : Store :=
  fold_left applyCall calls s.

(** [updateState(key, value)]: the updater [prev => ({ ...prev, [key]: value })],
    given as the function [set] it is ([withAlgorithm algo] for the key
    [algorithm], and so on). *)
Definition updateState (set : AppState -> AppState) : list SetCall :=
  [setAppState set].

(** [commitState]: the history up to the current index, then the current
    state; the oldest entry goes when there are more than twenty. *)
Definition commitState (s : Store) : list SetCall :=
  let newHistory := firstn (historyIndex s + 1) (history s) in
  let newHistory := newHistory ++ [appState s] in
  let newHistory :=
    if (20 <? List.length newHistory)%nat then tl newHistory else newHistory in
  [setHistory newHistory; setHistoryIndex (List.length newHistory - 1)].

(** [undo].  [history[newIndex]] is [undefined] outside the array: [None]
    stands for an application state that is no state any more. *)
Definition undo (s : Store) : option (list SetCall) :=
  if (0 <? historyIndex s)%nat then
    let newIndex := (historyIndex s - 1)%nat in
    match nth_error (history s) newIndex with
    | Some entry => Some [setHistoryIndex newIndex; setAppState (fun _ => entry)]
    | None => None
    end
  else Some [].

(** What the controls do: a control that edits a field
    ([onChange = updateState(key, value)]), one that commits
    ([onPointerUp = commitState], [onBlur = commitState]), one that does
    both in the same handler ([updateState('algorithm', algo);
    commitState()]), and the undo button. *)
Inductive Event : Type :=
| Edit (set : AppState -> AppState)
| Commit
| EditCommit (set : AppState -> AppState)
| Undo.

Definition chooseAlgorithm (algo : AlgoType) : Event := EditCommit (withAlgorithm algo).

Definition handle (s : Store) (e : Event) : option (list SetCall) :=
  match e with
  | Edit set => Some (updateState set)
  | Commit => Some (commitState s)
  | EditCommit set => Some (updateState set ++ commitState s)
  | Undo => undo s
  end.

Definition step (s : Store) (e : Event) : option Store :=
  match handle s e with
  | Some calls => Some (applyCalls calls s)
  | None => None
  end.

Fixpoint run (s : Store) (es : list Event) : option Store :=
  match es with
  | [] => Some s
  | e :: es' =>
      match step s e with
      | Some s' => run s' es'
      | None => None
      end
  end.

(** The index points into the history, which holds at most twenty
    entries. *)
Definition historyOk (s : Store) : Prop :=
  (historyIndex s < List.length (history s))%nat
  /\ (List.length (history s) <= 20)%nat.

(** The entry at the index is the current state. *)
Definition recorded (s : Store) : Prop :=
  nth_error (history s) (historyIndex s) = Some (appState s).

End App.

(* ================================================================== *)
(** ** [src/unnamed/part_003]: the sketch pad *)

Module SketchPad.

(** The fields of a pointer event and of [canvas.getBoundingClientRect()]
    the handlers read. *)
Record PointerEvent : Type := { clientX : float; clientY : float }.

Record DOMRect : Type := { left : float; top : float; width : float; height : float }.

(** [points[points.length - 1]]: [undefined] on the empty array. *)
Definition lastPoint (points : list Point) : option Point :=
  nth_error points (List.length points - 1).

(** [addPoint], on a mounted canvas.  [Some newPoints] is the call
    [onChange(newPoints)], [None] the early [return]. *)
Definition addPoint (points : list Point) (rect : DOMRect) (e : PointerEvent)
  : option (list Point) :=
  let x := Math_max 0 (Math_min 1 ((clientX e - left rect) / width rect)) in
  let y := Math_max 0 (Math_min 1 (1 - (clientY e - top rect) / height rect)) in
  let tooClose :=
    match lastPoint points with
    | Some lastPt => Math_abs (px lastPt - x) <? 0.005
    | None => false
    end in
  if tooClose then None else Some (points ++ [ {| px := x; py := y |} ]).

(** [[...points].sort((a, b) => a.x - b.x)].  The sort of the language is
    stable and puts an element after another when the comparator is
    positive (NaN counts as 0): each element is inserted, from the right,
    past the elements the comparator puts before it.  This is the sort of
    the engine when the abscissas are numbers; with a NaN among them the
    comparator is not consistent and the order is the engine's own. *)
Fixpoint insert (a : Point) (sorted : list Point) : list Point :=
  match sorted with
  | [] => [a]
  | b :: rest => if 0 <? px a - px b then b :: insert a rest else a :: sorted
  end.

Fixpoint sortByX (points : list Point) : list Point :=
  match points with
  | [] => []
  | a :: rest => insert a (sortByX rest)
  end.

(** [handlePointerUp]: the argument of [onChange]. *)
Definition handlePointerUp (points : list Point) : list Point :=
  let sorted := sortByX points in
  match sorted with
  | [] => sorted
  | first :: _ =>
      let sorted :=
        if 0.01 <? px first then {| px := 0; py := py first |} :: sorted else sorted in
      let lastPt := List.last sorted first in
      if px lastPt <? 0.99 then sorted ++ [ {| px := 1; py := py lastPt |} ] else sorted
  end.

Definition handleReset : list Point :=
  [ {| px := 0; py := 0.5 |}; {| px := 0.5; py := 1 |}; {| px := 1; py := 0.5 |} ].

Definition handleClear : list Point := [].

(** A point of the unit square. *)
Definition unitSquare (p : Point) : Prop := in01 (px p) /\ in01 (py p).

(** In the order of the abscissas. *)
Definition leX (p q : Point) : Prop := (px p <=? px q) = true.

(** A pointer event on a canvas that has an extent: finite numbers, and
    neither side of the rectangle is 0. *)
Definition onCanvas (rect : DOMRect) (e : PointerEvent) : Prop :=
  finite (clientX e) /\ finite (clientY e)
  /\ finite (left rect) /\ finite (top rect)
  /\ finite (width rect) /\ finite (height rect)
  /\ is_zero (width rect) = false /\ is_zero (height rect) = false.

End SketchPad.

(* ================================================================== *)
(** ** [src/unnamed/part_004]: the DXF export *)

Module Dxf.

Local Open Scope string_scope.
Local Open Scope list_scope.

(** The strings of the union type of [BlueprintLine.type]. *)
Definition typeName (t : LineType) : string :=
  match t with
  | cut => "cut" | mountain => "mountain" | valley => "valley"
  | spine => "spine" | outline => "outline"
  end.

Definition layerMap : list (string * string) :=
  [ ("cut", "CUT"); ("mountain", "MOUNTAIN"); ("valley", "VALLEY");
    ("spine", "OUTLINE"); ("outline", "OUTLINE") ].

(** [layerMap[key]]: [undefined] for a key the object does not have. *)
Fixpoint lookup (key : string) (m : list (string * string)) : option string :=
  match m with
  | [] => None
  | (k, v) :: m' => if String.eqb key k then Some v else lookup key m'
  end.

(** [layerMap[line.type] || '0']: the empty string is falsy as well. *)
Definition layerOf (t : LineType) : string :=
  match lookup (typeName t) layerMap with
  | Some layer => if String.eqb layer EmptyString then "0" else layer
  | None => "0"
  end.

(** [allLines]: the blueprint, then the four sides of the sheet. *)
Definition allLines (blueprintLines : list BlueprintLine) (w h : float)
  : list BlueprintLine :=
  blueprintLines ++
  [ mkLine (- w / 2) (- h / 2) (w / 2) (- h / 2) outline;
    mkLine (w / 2) (- h / 2) (w / 2) (h / 2) outline;
    mkLine (w / 2) (h / 2) (- w / 2) (h / 2) outline;
    mkLine (- w / 2) (h / 2) (- w / 2) (- h / 2) outline ].

(** A DXF file read as a sequence of groups: a code, then a value. *)
Fixpoint groups (content : list string) : list (string * string) :=
  match content with
  | code :: value :: rest => (code, value) :: groups rest
  | _ => []
  end.

(** The initial value of [dxfContent]. *)
Definition header : list string :=
  [ "999"; "Kirigami DXF Generated by KiriGen X";
    "  0"; "SECTION"; "  2"; "HEADER"; "  9"; "$ACADVER"; "  1"; "AC1009"; "  0"; "ENDSEC";
    "  0"; "SECTION"; "  2"; "TABLES";
    "  0"; "TABLE"; "  2"; "LAYER"; " 70"; "4";
    "  0"; "LAYER"; "  2"; "CUT"; " 70"; "0"; " 62"; "1"; "  6"; "CONTINUOUS";
    "  0"; "LAYER"; "  2"; "MOUNTAIN"; " 70"; "0"; " 62"; "5"; "  6"; "DASHED";
    "  0"; "LAYER"; "  2"; "VALLEY"; " 70"; "0"; " 62"; "3"; "  6"; "DASHED";
    "  0"; "LAYER"; "  2"; "OUTLINE"; " 70"; "0"; " 62"; "7"; "  6"; "CONTINUOUS";
    "  0"; "ENDTAB"; "  0"; "ENDSEC";
    "  0"; "SECTION"; "  2"; "ENTITIES" ].

Section ExportDXF.
Context {rt : Runtime}.

(** [x.toFixed(digits)], left to the engine. *)
Variable toFixed : float -> nat -> string.

(** The strings one turn of [allLines.forEach] pushes. *)
Definition entity (line : BlueprintLine) : list string :=
  let layer := layerOf (type line) in
  [ "  0"; "LINE"; "  8"; layer;
    " 10"; toFixed (x1 line) 4; " 20"; toFixed (y1 line) 4; " 30"; "0.0";
    " 11"; toFixed (x2 line) 4; " 21"; toFixed (y2 line) 4; " 31"; "0.0" ].

(** The groups of one entity. *)
Definition entityGroups (line : BlueprintLine) : list (string * string) :=
  groups (entity line).

(** [dxfContent] when the loop is over and the end marks are pushed. *)
Definition dxfContent (appState : AppState) : list string :=
  let blueprintLines :=
    MathEngine.g_blueprintLines (MathEngine.generateKirigamiGeometry appState) in
  let w := width (paperSize appState) in
  let h := height (paperSize appState) in
  header ++ flat_map entity (allLines blueprintLines w h)
  ++ [ "  0"; "ENDSEC"; "  0"; "EOF" ].

(** The text of the file [handleExportDXF] offers for download:
    [dxfContent.join("\r\n")]. *)
Definition handleExportDXF (appState : AppState) : string :=
  String.concat (String (Ascii.ascii_of_nat 13) (String (Ascii.ascii_of_nat 10) EmptyString))
    (dxfContent appState).

End ExportDXF.

(** The layers a file declares: the name (group 2) that follows each
    [LAYER] record (group 0). *)
Fixpoint declaredLayers (g : list (string * string)) : list string :=
  match g with
  | [] => []
  | (c0, v0) :: rest =>
      match rest with
      | (c1, v1) :: _ =>
          if String.eqb c0 "  0" && String.eqb v0 "LAYER" && String.eqb c1 "  2"
          then v1 :: declaredLayers rest
          else declaredLayers rest
      | [] => []
      end
  end.

(** The layers the entities of a file are on: the values of group 8. *)
Definition entityLayers (g : list (string * string)) : list string :=
  map snd (filter (fun cv => String.eqb (fst cv) "  8") g).

(** The [LINE] entities of a file. *)
Definition lineEntities (g : list (string * string)) : list (string * string) :=
  filter (fun cv => String.eqb (fst cv) "  0" && String.eqb (snd cv) "LINE") g.

(** Lines that follow one another and come back to where they started. *)
Fixpoint linked (first : BlueprintLine) (ls : list BlueprintLine) : Prop :=
  match ls with
  | [] => True
  | [l] => x2 l = x1 first /\ y2 l = y1 first
  | l :: ((l' :: _) as rest) => x2 l = x1 l' /\ y2 l = y1 l' /\ linked first rest
  end.

End Dxf.

(* ================================================================== *)
(** ** [src/unnamed/part_004]: which controls are shown *)

Module Controls.

(** [['sphere', 'pyramid', 'steps', 'torus', 'pagoda', 'vase',
    'canyon'].includes(appState.algorithm)]: the Curvature and Roughness
    sliders are rendered when it holds. *)
Definition isGeometric (appState : AppState) : bool :=
  match algorithm appState with
  | sphere | pyramid | steps | torus | pagoda | vase | canyon => true
  | _ => false
  end.

(** The condition under which the Scale slider, which sets [frequency],
    is rendered. *)
Definition scaleShown (appState : AppState) : bool :=
  match algorithm appState with
  | sketch | custom | image => false
  | _ => true
  end.

End Controls.

(** [{ ...state, curvature: k }], [{ ...state, frequency: f }]. *)
Definition withCurvature (k : float) (s : AppState) : AppState :=
  {| algorithm := algorithm s; rows := rows s; cols := cols s;
     amplitude := amplitude s;
     frequency := frequency s; spread := spread s; curvature := k;
     roughness := roughness s; fractalOctaves := fractalOctaves s;
     customFormula := customFormula s; sketchPoints := sketchPoints s;
     foldProgress := foldProgress s; paperThickness := paperThickness s;
     showWireframe := showWireframe s; paperSize := paperSize s;
     heightMapData := heightMapData s; overlayTexture := overlayTexture s;
     isVideoTexture := isVideoTexture s |}.

Definition withFrequency (f : float) (s : AppState) : AppState :=
  {| algorithm := algorithm s; rows := rows s; cols := cols s;
     amplitude := amplitude s;
     frequency := f; spread := spread s; curvature := curvature s;
     roughness := roughness s; fractalOctaves := fractalOctaves s;
     customFormula := customFormula s; sketchPoints := sketchPoints s;
     foldProgress := foldProgress s; paperThickness := paperThickness s;
     showWireframe := showWireframe s; paperSize := paperSize s;
     heightMapData := heightMapData s; overlayTexture := overlayTexture s;
     isVideoTexture := isVideoTexture s |}.

(** Two states that differ at most in the fields only the shape profiles
    of [mathEngine.ts] read. *)
Definition sameFrame (s1 s2 : AppState) : Prop :=
  rows s1 = rows s2 /\ cols s1 = cols s2 /\ amplitude s1 = amplitude s2
  /\ foldProgress s1 = foldProgress s2 /\ paperThickness s1 = paperThickness s2
  /\ paperSize s1 = paperSize s2.

(* ================================================================== *)
(** ** What the further properties of the generators speak about *)

(** A quad as [pushQuad] receives it: four corners and a normal. *)
Record Quad : Type := { q0 : Vector3; q1 : Vector3; q2 : Vector3; q3 : Vector3; qn : Vector3 }.

Definition quadPositions (q : Quad) : list float :=
  [ vx (q0 q); vy (q0 q); vz (q0 q); vx (q1 q); vy (q1 q); vz (q1 q);
    vx (q2 q); vy (q2 q); vz (q2 q); vx (q3 q); vy (q3 q); vz (q3 q) ].

Definition quadNormals (q : Quad) : list float :=
  [ vx (qn q); vy (qn q); vz (qn q); vx (qn q); vy (qn q); vz (qn q);
    vx (qn q); vy (qn q); vz (qn q); vx (qn q); vy (qn q); vz (qn q) ].

(** The two triangles of the quad number [k]. *)
Definition quadIndices (k : nat) : list nat :=
  [ 4 * k; 4 * k + 1; 4 * k + 2; 4 * k; 4 * k + 2; 4 * k + 3 ]%nat.

(** What the guard of [pushQuad] lets through. *)
Definition passesGuard (q : Quad) : Prop :=
  isNaN (vx (q0 q)) = false /\ isNaN (vx (qn q)) = false.

(** Arrays that hold the quads [qs], whole and in order. *)
Definition madeOf (qs : list Quad) (b : Buffers) : Prop :=
  positions b = flat_map quadPositions qs
  /\ normals b = flat_map quadNormals qs
  /\ indices b = flat_map quadIndices (seq 0 (List.length qs))
  /\ Forall passesGuard qs.

(** Arrays that hold [qs] and at most [k] quads more. *)
Definition grows (qs : list Quad) (k : nat) (b : Buffers) : Prop :=
  exists qs', madeOf (qs ++ qs') b /\ (List.length qs' <= k)%nat.

(** The lines a column with the extents [xL] and [xR] may contribute: a
    cut or spine line is vertical at one of the extents, a mountain or
    valley line is horizontal from one extent to the other. *)
Definition lineOfColumn (xL xR : float) (l : BlueprintLine) : Prop :=
  match type l with
  | cut | spine => verticalAt xL l \/ verticalAt xR l
  | mountain | valley => x1 l = xL /\ x2 l = xR /\ y1 l = y2 l
  | outline => False
  end.

(** The segments among [es] form a band between the abscissas [xL] and
    [xR], from the point [from] of the profile (an ordinate and a height)
    to the point [to]: each segment spans the band, from the point where
    the one before it ended to a point of its own, and its normal is one of
    [normals]. *)
Fixpoint band (xL xR : float) (normals : list Vector3) (from : float * float)
    (es : list Emit) (to : float * float) : Prop :=
  match es with
  | [] => from = to
  | Segment v0 v1 v2 v3 n :: rest =>
      v0 = vec3 xL (fst from) (snd from) /\ v1 = vec3 xR (fst from) (snd from)
      /\ vx v3 = xL /\ vx v2 = xR /\ vy v2 = vy v3 /\ vz v2 = vz v3
      /\ In n normals
      /\ band xL xR normals (vy v3, vz v3) rest to
  | Line _ :: rest => band xL xR normals from rest to
  end.

(* ================================================================== *)
(** ** The custom profile in a realm the formula can change

    [new Function] compiles the text of the formula in the global scope,
    and the call hands it the [Math] object itself.  What the text
    evaluates to, and what it does to the realm besides, is the engine's
    affair; the code of [generateKirigamiGeometry] around it is embedded
    here for [state.algorithm = 'custom'], with the state of the realm
    threaded through:

    - an evaluation ends normally, with an exception, or not at all;
    - the value of the formula may be any value: [isNaN(result)] and
      [Math.abs(result)] convert it to a number one after the other, and
      the conversion of an object runs its [valueOf];
    - [Math.cos], [Math.sin], [Math.abs], [Math.min] and [Math.max] are
      looked up when the generator calls them, as the formula left them;
      a function the formula put in their place is taken to return a
      number, to throw or not to return.

    The other globals ([isNaN], [Function], the methods of arrays and of
    [THREE.Vector3]) are as the language and the library define them.
    [MathEngine] above is this model on a realm in which the formula
    yields a primitive value and changes nothing. *)

Module Live.

(** How an evaluation ends, and the state it leaves the realm in. *)
Inductive Completion (W A : Type) : Type :=
| Normal (a : A) (w : W)
| Throw (w : W)
| NoReturn.

Arguments Throw {W A} w.
Arguments NoReturn {W A}.

Definition M (W A : Type) : Type := W -> Completion W A.

Definition ret {W A : Type} (a : A) : M W A := fun w => Normal a w.

Definition bind {W A B : Type} (m : M W A) (k : A -> M W B) : M W B :=
  fun w =>
    match m w with
    | Normal a w' => k a w'
    | Throw w' => Throw w'
    | NoReturn => NoReturn
    end.

(** [try { m } catch (e) { handler }]. *)
Definition tryCatch {W A : Type} (m handler : M W A) : M W A :=
  fun w =>
    match m w with
    | Throw w' => handler w'
    | r => r
    end.

Declare Scope live_scope.
Delimit Scope live_scope with live.
Notation "x <- m ;; k" := (bind m (fun x => k))
  (at level 100, m at next level, right associativity) : live_scope.
Local Open Scope live_scope.

(** A value, as [isNaN] and [Math.abs] see it: a primitive, given by the
    number [ToNumber] makes of it, or an object, which [ToNumber] asks
    for its [valueOf] (a symbol or a BigInt is an object whose conversion
    throws). *)
Inductive Value (O : Type) : Type :=
| Primitive (n : float)
| Object (o : O).

Arguments Primitive {O} n.

(** What [new Function(..., `try { return (${formula}); } catch(e) {
    return 0; }`)] and the call of the function come to. *)
Inductive FormulaRun (W O : Type) : Type :=
| SyntaxError                      (* [new Function] throws *)
| Returns (v : Value O) (w : W)    (* the expression has the value [v] *)
| Caught (w : W)                   (* the expression throws: the template returns 0 *)
| Escapes (w : W)                  (* a text that leaves the [try] of the template: the call throws *)
| Diverges.                        (* the call does not return *)

Arguments SyntaxError {W O}.
Arguments Caught {W O} w.
Arguments Escapes {W O} w.
Arguments Diverges {W O}.

(** The functions of [Math] the generator calls once a formula has run. *)
Record MathObject (W O : Type) : Type := {
  call_cos : float -> M W float;
  call_sin : float -> M W float;
  call_abs : Value O -> M W float;
  call_min : float -> float -> M W float;
  call_max : float -> float -> M W float
}.

(** The realm: its states, its objects, what a formula text does on
    [(x, f, i)], what the [valueOf] of an object does, and the [Math]
    object of a state. *)
Class Realm : Type := {
  World : Type;
  Obj : Type;
  runFormula : string -> float -> float -> float -> World -> FormulaRun World Obj;
  valueOf : Obj -> M World float;
  MathOf : World -> MathObject World Obj
}.

Section Generator.
Context {realm : Realm}.

Definition ToNumber (v : Value Obj) : M World float :=
  match v with
  | Primitive n => ret n
  | Object o => valueOf o
  end.

(** The global [isNaN]. *)
Definition isNaNOf (v : Value Obj) : M World bool :=
  n <- ToNumber v ;; ret (is_nan n).

(** [Math] as the engine provides it. *)
Definition intactMath {rt : Runtime} : MathObject World Obj :=
  {| call_cos := fun x => ret (Math_cos x);
     call_sin := fun x => ret (Math_sin x);
     call_abs := fun v => n <- ToNumber v ;; ret (Math_abs n);
     call_min := fun a b => ret (Math_min a b);
     call_max := fun a b => ret (Math_max a b) |}.

(** A call chain on [Math]: the functions are read off the object before
    the first of them is called. *)
Definition withMath {A : Type} (k : MathObject World Obj -> M World A) : M World A :=
  fun w => k (MathOf w) w.

Variable state : AppState.

(** [isNaN(result) ? 0 : Math.max(0, Math.min(1, Math.abs(result)))]. *)
Definition clampResult (result : Value Obj) : M World float :=
  b <- isNaNOf result ;;
  if b : bool then ret 0
  else withMath (fun m =>
         a <- call_abs m result ;;
         r <- call_min m 1 a ;;
         call_max m 0 r).

(** [case 'custom']: the outer [try] turns every exception into 0. *)
Definition customProfile (c : nat) : M World float :=
  fun w =>
    match runFormula (customFormula state) (MathEngine.normX state c)
            (frequency state) (of_nat c) w with
    | SyntaxError => Normal 0 w
    | Escapes w' => Normal 0 w'
    | Diverges => NoReturn
    | Caught w' => tryCatch (clampResult (Primitive 0)) (ret 0) w'
    | Returns result w' => tryCatch (clampResult result) (ret 0) w'
    end.

(** [shapeFactor]: 0 unless the column is a pop-up. *)
Definition shapeFactor (c : nat) : M World float :=
  if MathEngine.isPopup c then customProfile c else ret 0.

(** [Math.min(Math.abs(state.amplitude * shapeFactor), maxSafe)], outside
    every [try]. *)
Definition columnAmplitude (shapeFactor : float) : M World float :=
  withMath (fun m =>
    a <- call_abs m (Primitive (amplitude state * shapeFactor)) ;;
    call_min m a (MathEngine.maxSafe state)).

(** The rest of the loop body, which calls no function of [Math]: the
    frames and the strip or the flat spacer of a column, given the vectors
    of the wall and the amplitude of the column. *)
Section Body.
Variables (vecRiser normRiser : Vector3) (c : nat) (amplitude : float).

Definition isFlat : bool := amplitude <? 0.5.
Definition run : float := if isFlat then 0 else amplitude.
Definition rise : float := if isFlat then 0 else amplitude.
Definition numSteps : nat := if isFlat then 1%nat else rows state.
Definition stepRun : float := run / of_nat numSteps.
Definition stepRise : float := rise / of_nat numSteps.
Definition yAnchorFloor : float := - run.
Definition pWallStart : Vector3 := V3.addScaledVector V3.zero vecRiser rise.
Definition pWallEnd : Vector3 :=
  V3.addScaledVector V3.zero vecRiser (height (paperSize state) / 2).

Definition xLeft : float := MathEngine.xLeft state c.
Definition xRight : float := MathEngine.xRight state c.

Definition stepBody (i : nat) (currentPos : Vector3) (currentPaperY : float)
  : list Emit * Vector3 * float :=
  let pStart := currentPos in
  let pEnd := V3.addScaledVector currentPos vecRiser stepRise in
  let riser :=
    Segment (vec3 xLeft (vy pStart) (vz pStart))
            (vec3 xRight (vy pStart) (vz pStart))
            (vec3 xRight (vy pEnd) (vz pEnd))
            (vec3 xLeft (vy pEnd) (vz pEnd)) normRiser in
  let currentPos := pEnd in
  let currentPaperY := currentPaperY + stepRise in
  let mountainFold :=
    Line (mkLine xLeft currentPaperY xRight currentPaperY mountain) in
  let pStartT := currentPos in
  let pEndT := V3.addScaledVector currentPos MathEngine.vecTread stepRun in
  let tread :=
    Segment (vec3 xLeft (vy pStartT) (vz pStartT))
            (vec3 xRight (vy pStartT) (vz pStartT))
            (vec3 xRight (vy pEndT) (vz pEndT))
            (vec3 xLeft (vy pEndT) (vz pEndT)) MathEngine.normTread in
  let currentPos := pEndT in
  let currentPaperY := currentPaperY + stepRun in
  let valleyFold :=
    if (i <? numSteps - 1)%nat
    then [Line (mkLine xLeft currentPaperY xRight currentPaperY valley)]
    else [] in
  ([riser; mountainFold; tread] ++ valleyFold, currentPos, currentPaperY).

Fixpoint stepLoop (n i : nat) (currentPos : Vector3) (currentPaperY : float)
  : list Emit * Vector3 * float :=
  match n with
  | O => ([], currentPos, currentPaperY)
  | S n' =>
      let '(es, pos, y) := stepBody i currentPos currentPaperY in
      let '(es', pos', y') := stepLoop n' (S i) pos y in
      (es ++ es', pos', y')
  end.

Definition frames : list Emit :=
  [ Segment (vec3 xLeft (MathEngine.yPaperBottom state) 0)
            (vec3 xRight (MathEngine.yPaperBottom state) 0)
            (vec3 xRight yAnchorFloor 0) (vec3 xLeft yAnchorFloor 0)
            MathEngine.normTread;
    Segment (vec3 xLeft (vy pWallStart) (vz pWallStart))
            (vec3 xRight (vy pWallStart) (vz pWallStart))
            (vec3 xRight (vy pWallEnd) (vz pWallEnd))
            (vec3 xLeft (vy pWallEnd) (vz pWallEnd)) normRiser ].

Definition strip : list Emit :=
  let currentPos := vec3 0 yAnchorFloor 0 in
  let currentPaperY := yAnchorFloor in
  let '(es, _, currentPaperY') := stepLoop numSteps 0 currentPos currentPaperY in
  [ Line (mkLine xLeft yAnchorFloor xLeft rise cut);
    Line (mkLine xRight yAnchorFloor xRight rise cut);
    Line (mkLine xLeft currentPaperY xRight currentPaperY valley) ]
  ++ es ++
  [ Line (mkLine xLeft currentPaperY' xRight currentPaperY' valley) ].

Definition flatSpacer : list Emit :=
  [ Segment (vec3 xLeft yAnchorFloor 0) (vec3 xRight yAnchorFloor 0)
            (vec3 xRight (vy pWallStart) (vz pWallStart))
            (vec3 xLeft (vy pWallStart) (vz pWallStart)) MathEngine.normTread;
    Line (mkLine xLeft 0 xRight 0 valley) ].

Definition columnBody : list Emit :=
  frames ++ (if negb isFlat then strip else flatSpacer).

End Body.

(** One turn of the loop over the columns. *)
Definition column (vecRiser normRiser : Vector3) (c : nat) : M World (list Emit) :=
  factor <- shapeFactor c ;;
  a <- columnAmplitude factor ;;
  ret (columnBody vecRiser normRiser c a).

(** [for (let c = 0; c < state.cols; c++)]: [n] columns are left, the next
    is [c]. *)
Fixpoint columnsFrom (vecRiser normRiser : Vector3) (n c : nat) : M World (list Emit) :=
  match n with
  | O => ret []
  | S n' =>
      es <- column vecRiser normRiser c ;;
      rest <- columnsFrom vecRiser normRiser n' (S c) ;;
      ret (es ++ rest)
  end.

(** The generator: the vectors of the wall first, by four calls on
    [Math], then the columns; the arrays are the generator's own, so that
    an exception loses them. *)
Definition generateKirigamiGeometry : M World MathEngine.GeometryData :=
  let alpha := MathEngine.alpha state in
  c1 <- withMath (fun m => call_cos m alpha) ;;
  s1 <- withMath (fun m => call_sin m alpha) ;;
  s2 <- withMath (fun m => call_sin m alpha) ;;
  c2 <- withMath (fun m => call_cos m alpha) ;;
  let vecRiser := vec3 0 c1 s1 in
  let normRiser := vec3 0 (- s2) c2 in
  es <- columnsFrom vecRiser normRiser (cols state) 0 ;;
  let a := MathEngine.execute state es {| buf := noBuffers; blueprintLines := [] |} in
  ret {| MathEngine.g_positions := Float32Array (positions (buf a));
         MathEngine.g_normals := Float32Array (normals (buf a));
         MathEngine.g_indices := indices (buf a);
         MathEngine.g_blueprintLines := blueprintLines a |}.

End Generator.

(** The formula left the realm as it found it and gave a primitive value,
    or failed in a way the code catches. *)
Definition quiet {rt : Runtime} {realm : Realm} (text : string) (w : World) : Prop :=
  MathOf w = intactMath
  /\ forall x f i : float,
       match runFormula text x f i w with
       | SyntaxError => True
       | Caught w' => w' = w
       | Returns (Primitive _) w' => w' = w
       | _ => False
       end.

(** The formula, and the conversion of its value, threw or gave a number
    that is not finite. *)
Definition nonFinite {W O : Type} (r : FormulaRun W O) : Prop :=
  match r with
  | SyntaxError | Caught _ | Escapes _ => True
  | Returns (Primitive v) _ => is_nan v = true \/ is_infinity v = true
  | _ => False
  end.

End Live.

(* ================================================================== *)
(** ** A realm for the worked examples

    Its state holds the numbers [Math.random] is going to return, what the
    formulas that ran have done to [Math], and how often the object of the
    last formula has been converted.  It knows the outcome of a few
    formula texts, each on its own; any other text is taken not to
    compile. *)

Record ExampleWorld : Type := {
  randoms : list float;      (* the numbers [Math.random] is going to return *)
  maxReplaced : bool;        (* after [Math.max = () => 7] *)
  absRemoved : bool;         (* after [Math.abs = null] *)
  cosWrapped : bool;         (* after [Math.cos = a => (Math.a = a, Math.c(a))] *)
  angle : float;             (* [Math.a] as a number: NaN while it is undefined *)
  conversions : nat          (* conversions of the object of the last formula *)
}.

(** The object [{ n: 0, valueOf() { return this.n++ ? NaN : 0.5; } }]. *)
Inductive ExampleObj : Type := Fickle.

Definition withRandoms (rs : list float) (w : ExampleWorld) : ExampleWorld :=
  {| randoms := rs; maxReplaced := maxReplaced w; absRemoved := absRemoved w;
     cosWrapped := cosWrapped w; angle := angle w; conversions := conversions w |}.

Definition withMaxReplaced (w : ExampleWorld) : ExampleWorld :=
  {| randoms := randoms w; maxReplaced := true; absRemoved := absRemoved w;
     cosWrapped := cosWrapped w; angle := angle w; conversions := conversions w |}.

Definition withAbsRemoved (w : ExampleWorld) : ExampleWorld :=
  {| randoms := randoms w; maxReplaced := maxReplaced w; absRemoved := true;
     cosWrapped := cosWrapped w; angle := angle w; conversions := conversions w |}.

Definition withCosWrapped (w : ExampleWorld) : ExampleWorld :=
  {| randoms := randoms w; maxReplaced := maxReplaced w; absRemoved := absRemoved w;
     cosWrapped := true; angle := angle w; conversions := conversions w |}.

Definition withAngle (a : float) (w : ExampleWorld) : ExampleWorld :=
  {| randoms := randoms w; maxReplaced := maxReplaced w; absRemoved := absRemoved w;
     cosWrapped := cosWrapped w; angle := a; conversions := conversions w |}.

Definition withConversions (n : nat) (w : ExampleWorld) : ExampleWorld :=
  {| randoms := randoms w; maxReplaced := maxReplaced w; absRemoved := absRemoved w;
     cosWrapped := cosWrapped w; angle := angle w; conversions := n |}.

(** A formula that puts a function in the place of [Math.cos] which notes
    its argument, and reads the note. *)
Definition angleFormula : string :=
  "(Math.c || (Math.c = Math.cos, Math.cos = a => (Math.a = a, Math.c(a))), Math.a > 1 ? 1 : 0.5)".

Definition exampleRun (text : string) (x f i : float) (w : ExampleWorld)
  : Live.FormulaRun ExampleWorld ExampleObj :=
  if String.eqb text "NaN" then Live.Returns (Live.Primitive nan) w
  else if String.eqb text "Infinity" then Live.Returns (Live.Primitive infinity) w
  else if String.eqb text "-1/0" then Live.Returns (Live.Primitive neg_infinity) w
  else if String.eqb text "x" then Live.Returns (Live.Primitive x) w
  else if String.eqb text "y" then Live.Caught w
  else if String.eqb text "Math.random()" then
    match randoms w with
    | r :: rest => Live.Returns (Live.Primitive r) (withRandoms rest w)
    | [] => Live.Returns (Live.Primitive 0) w
    end
  else if String.eqb text "(Math.max = () => 7, 0.5)" then
    Live.Returns (Live.Primitive 0.5) (withMaxReplaced w)
  else if String.eqb text "(Math.abs = null, 0)" then
    Live.Returns (Live.Primitive 0) (withAbsRemoved w)
  else if String.eqb text angleFormula then
    Live.Returns (Live.Primitive (if 1 <? angle w then 1 else 0.5)) (withCosWrapped w)
  else if String.eqb text "{ n: 0, valueOf() { return this.n++ ? NaN : 0.5; } }" then
    Live.Returns (Live.Object Fickle) (withConversions 0 w)
  else if String.eqb text "0); } finally { throw 1; } try { (0" then Live.Escapes w
  else if String.eqb text "(() => { for (;;) {} })()" then Live.Diverges
  else Live.SyntaxError.

Definition exampleValueOf (o : ExampleObj) : Live.M ExampleWorld float :=
  fun w =>
    match conversions w with
    | O => Live.Normal 0.5 (withConversions 1 w)
    | S n => Live.Normal nan (withConversions (S (S n)) w)
    end.

Definition exampleMath (w : ExampleWorld) : Live.MathObject ExampleWorld ExampleObj :=
  let toNumber (v : Live.Value ExampleObj) : Live.M ExampleWorld float :=
    match v with
    | Live.Primitive n => Live.ret n
    | Live.Object o => exampleValueOf o
    end in
  {| Live.call_cos :=
       if cosWrapped w
       then fun x w' => Live.Normal (exampleCos x) (withAngle x w')
       else fun x => Live.ret (exampleCos x);
     Live.call_sin := fun x => Live.ret (exampleSin x);
     Live.call_abs :=
       if absRemoved w
       then fun _ => Live.Throw
       else fun v => Live.bind (toNumber v) (fun n => Live.ret (Math_abs n));
     Live.call_min := fun a b => Live.ret (Math_min a b);
     Live.call_max :=
       if maxReplaced w
       then fun _ _ => Live.ret 7
       else fun a b => Live.ret (Math_max a b) |}.

Definition exampleRealm : Live.Realm :=
  {| Live.World := ExampleWorld; Live.Obj := ExampleObj;
     Live.runFormula := exampleRun; Live.valueOf := exampleValueOf;
     Live.MathOf := exampleMath |}.

(** A fresh realm whose [Math.random] is going to return the given
    numbers. *)
Definition freshWorld (rs : list float) : ExampleWorld :=
  {| randoms := rs; maxReplaced := false; absRemoved := false; cosWrapped := false;
     angle := nan; conversions := 0 |}.

(** A runtime of [MathEngine] reads a formula as the realm runs it, in a
    state the formula leaves as it is. *)
Definition readsAs {rt : Runtime} {realm : Live.Realm} (text : string) (w : Live.World)
  : Prop :=
  forall x f i : float,
    match Live.runFormula text x f i w with
    | Live.SyntaxError => evalFormula text x f i = SyntaxError
    | Live.Caught w' => w' = w /\ evalFormula text x f i = RuntimeError
    | Live.Returns (Live.Primitive v) w' => w' = w /\ evalFormula text x f i = Returns v
    | _ => False
    end.

(** Steps of amplitude 0 whose step count, [Math.floor(2 + frequency * 8)],
    is 0. *)
Definition noStepState : AppState :=
  withFrequency (-0.25) (withAlgorithm steps flatState).

(** Representations of magnitude at most [2^k]; those that are not
    negative. *)
Definition SFbelow (k : Z) (x : spec_float) : Prop :=
  match x with
  | S754_zero _ => True
  | S754_finite _ m e => (e <= k)%Z /\ (Z.pos m <= 2 ^ (k - e))%Z
  | _ => False
  end.

Definition SFnonneg (x : spec_float) : Prop :=
  match x with
  | S754_zero _ | S754_finite false _ _ => True
  | _ => False
  end.

Section RangeConditions.
Context {rt : Runtime}.

(** A sine or cosine is NaN or lies between -1 and 1. *)
Definition trigInRange : Prop :=
  forall x : float,
    (is_nan (Math_sin x) = true \/ (Math_abs (Math_sin x) <=? 1) = true)
    /\ (is_nan (Math_cos x) = true \/ (Math_abs (Math_cos x) <=? 1) = true).

(** The exponential of a number that is not positive is NaN or lies
    between 0 and 1. *)
Definition expInRange : Prop :=
  forall x : float,
    (0 <? x) = false -> is_nan (Math_exp x) = true \/ in01 (Math_exp x).

(** A power of a base that is NaN or in [0,1], to an exponent that is not
    negative, is NaN or in [0,1]. *)
Definition powInRange : Prop :=
  forall x y : float,
    is_nan x = true \/ in01 x -> (y <? 0) = false ->
    is_nan (Math_pow x y) = true \/ in01 (Math_pow x y).

End RangeConditions.

(** Representations that are not below zero: NaN, the zeros, the positive
    numbers and the positive infinity. *)
Definition SFnotBelowZero (x : spec_float) : Prop :=
  match x with
  | S754_finite true _ _ | S754_infinity true => False
  | _ => True
  end.

(* ================================================================== *)
(** ** Facts about numbers *)

Section NumberFacts.

Lemma is_nan_Prim2SF (x : float) : is_nan x = true <-> Prim2SF x = S754_nan.
Proof.
  unfold Prim2SF. destruct (is_nan x); split; intro H; try reflexivity; try discriminate.
  destruct (is_zero x); [discriminate|].
  destruct (is_infinity x); [discriminate|].
  destruct (Z.frexp x) as [r e].
  destruct (shr_fexp prec emax _ _ _) as [s e'].
  destruct (shr_m s); discriminate.
Qed.

Lemma is_nan_false_Prim2SF (x : float) : is_nan x = false <-> Prim2SF x <> S754_nan.
Proof.
  rewrite <- is_nan_Prim2SF. destruct (is_nan x); split; congruence.
Qed.

Lemma SFcompare_antisym (x y : spec_float) :
  SFcompare y x = option_map CompOpp (SFcompare x y).
Proof.
  destruct x as [sx|sx| |sx mx ex], y as [sy|sy| |sy my ey]; simpl;
    try destruct sx; try destruct sy; try reflexivity.
  - rewrite (Z.compare_antisym ex ey). destruct (ex ?= ey)%Z; simpl; try reflexivity.
    do 2 f_equal. exact (eq_sym (Pos.compare_cont_antisym mx my Eq)).
  - rewrite (Z.compare_antisym ex ey). destruct (ex ?= ey)%Z; simpl; try reflexivity.
    f_equal. exact (eq_sym (Pos.compare_cont_antisym mx my Eq)).
Qed.

Lemma SFcompare_total (x y : spec_float) :
  x <> S754_nan -> y <> S754_nan -> exists c, SFcompare x y = Some c.
Proof.
  destruct x, y; simpl; intros; try congruence; eauto.
Qed.

Lemma SFcompare_refl (x : spec_float) : x <> S754_nan -> SFcompare x x = Some Eq.
Proof.
  destruct x as [s|s| |s m e]; simpl; intros; try congruence; destruct s; try reflexivity;
    rewrite Z.compare_refl, Pos.compare_cont_refl; reflexivity.
Qed.

Lemma ltb_irrefl (x : float) : (x <? x) = false.
Proof.
  rewrite ltb_spec. unfold SFltb.
  destruct (Prim2SF x) eqn:E; try reflexivity; rewrite SFcompare_refl; congruence.
Qed.

Lemma ltb_asym (x y : float) : (x <? y) = true -> (y <? x) = false.
Proof.
  rewrite !ltb_spec. unfold SFltb. rewrite (SFcompare_antisym (Prim2SF x) (Prim2SF y)).
  destruct (SFcompare (Prim2SF x) (Prim2SF y)) as [[]|]; simpl; congruence.
Qed.

Lemma ltb_leb (x y : float) : (x <? y) = true -> (x <=? y) = true.
Proof.
  rewrite ltb_spec, leb_spec. unfold SFltb, SFleb.
  destruct (SFcompare (Prim2SF x) (Prim2SF y)) as [[]|]; congruence.
Qed.

Lemma not_ltb_leb (x y : float) :
  is_nan x = false -> is_nan y = false -> (y <? x) = false -> (x <=? y) = true.
Proof.
  rewrite !is_nan_false_Prim2SF, ltb_spec, leb_spec. unfold SFltb, SFleb.
  intros Hx Hy. rewrite (SFcompare_antisym (Prim2SF x) (Prim2SF y)).
  destruct (SFcompare_total Hx Hy) as [c ->]. destruct c; simpl; congruence.
Qed.

Lemma ltb_nan_r (x y : float) : is_nan y = true -> (x <? y) = false.
Proof.
  rewrite is_nan_Prim2SF, ltb_spec. intros ->. unfold SFltb. destruct (Prim2SF x); reflexivity.
Qed.

Lemma ltb_nan_l (x y : float) : is_nan x = true -> (x <? y) = false.
Proof.
  rewrite is_nan_Prim2SF, ltb_spec. intros ->. reflexivity.
Qed.

Lemma abs_is_nan (x : float) : is_nan (abs x) = is_nan x.
Proof.
  destruct (is_nan x) eqn:E.
  - apply is_nan_Prim2SF. rewrite abs_spec. apply is_nan_Prim2SF in E. rewrite E. reflexivity.
  - apply is_nan_false_Prim2SF. rewrite abs_spec. apply is_nan_false_Prim2SF in E.
    destruct (Prim2SF x); simpl; congruence.
Qed.

(** [Math.min] never exceeds either argument, [Math.max] is never below. *)
Lemma Math_min_not_above_r (a b : float) : (b <? Math_min a b) = false.
Proof.
  unfold Math_min.
  destruct (is_nan a || is_nan b) eqn:En; [apply ltb_nan_r; reflexivity|].
  destruct (a <? b) eqn:Eab; [apply ltb_asym; assumption|].
  destruct (b <? a) eqn:Eba; [apply ltb_irrefl|].
  destruct (get_sign a); [assumption|apply ltb_irrefl].
Qed.

Lemma Math_min_not_above_l (a b : float) : (a <? Math_min a b) = false.
Proof.
  unfold Math_min.
  destruct (is_nan a || is_nan b) eqn:En; [apply ltb_nan_r; reflexivity|].
  destruct (a <? b) eqn:Eab; [apply ltb_irrefl|].
  destruct (b <? a) eqn:Eba; [apply ltb_asym; assumption|].
  destruct (get_sign a); [apply ltb_irrefl|assumption].
Qed.

Lemma Math_max_not_below_l (a b : float) : (Math_max a b <? a) = false.
Proof.
  unfold Math_max.
  destruct (is_nan a || is_nan b) eqn:En; [apply ltb_nan_l; reflexivity|].
  destruct (a <? b) eqn:Eab; [apply ltb_asym; assumption|].
  destruct (b <? a) eqn:Eba; [apply ltb_irrefl|].
  destruct (get_sign a); [assumption|apply ltb_irrefl].
Qed.

(** The clamp [Math.max(0, Math.min(1, x))] of a number. *)
Lemma Math_min_1 (x : float) :
  is_nan x = false ->
  is_nan (Math_min 1 x) = false /\ (Math_min 1 x <=? 1) = true.
Proof.
  intros Hx. unfold Math_min. rewrite Hx.
  change (is_nan 1 || false) with false. cbv iota.
  destruct (1 <? x) eqn:E1; [split; reflexivity|].
  destruct (x <? 1) eqn:E2; [split; [assumption|apply ltb_leb; assumption]|].
  change (get_sign 1) with false. cbv iota.
  split; [assumption|]. apply not_ltb_leb; [assumption|reflexivity|assumption].
Qed.

Lemma Math_max_0 (m : float) :
  is_nan m = false -> (m <=? 1) = true -> in01 (Math_max 0 m).
Proof.
  intros Hm H1. unfold Math_max, in01. rewrite Hm.
  change (is_nan 0 || false) with false. cbv iota.
  destruct (0 <? m) eqn:E1; [rewrite (ltb_leb E1), H1; reflexivity|].
  destruct (m <? 0) eqn:E2; [reflexivity|].
  reflexivity.
Qed.

Lemma clamp01 (x : float) :
  is_nan x = false -> in01 (Math_max 0 (Math_min 1 (Math_abs x))).
Proof.
  intros Hx. unfold Math_abs.
  destruct (@Math_min_1 (abs x)) as [Hn Hle]; [rewrite abs_is_nan; assumption|].
  apply Math_max_0; assumption.
Qed.

End NumberFacts.

(** Rounding a non-negative mantissa never gives NaN. *)
Section Rounding.
Variables prec emax : Z.

Lemma shr_1_nonneg (r : shr_record) : (0 <= shr_m r)%Z -> (0 <= shr_m (shr_1 r))%Z.
Proof.
  destruct r as [m b s]. cbn [shr_m]. intros H.
  destruct m as [|p|p]; [cbn; lia| |lia].
  destruct p; cbn; lia.
Qed.

Lemma iter_pos_shr_1_nonneg (p : positive) :
  forall r, (0 <= shr_m r)%Z -> (0 <= shr_m (iter_pos shr_1 p r))%Z.
Proof.
  induction p as [p IH|p IH|]; intros r H; cbn [iter_pos].
  - apply IH, IH, shr_1_nonneg, H.
  - apply IH, IH, H.
  - apply shr_1_nonneg, H.
Qed.

Lemma shr_fexp_nonneg (m e : Z) (l : location) :
  (0 <= m)%Z -> (0 <= shr_m (fst (shr_fexp prec emax m e l)))%Z.
Proof.
  intros H. unfold shr_fexp, shr.
  assert (H0 : (0 <= shr_m (shr_record_of_loc m l))%Z).
  { destruct l as [|[]]; exact H. }
  destruct (_ - e)%Z; cbn [fst]; try exact H0.
  apply iter_pos_shr_1_nonneg, H0.
Qed.

Lemma round_nearest_even_nonneg (m : Z) (l : location) :
  (0 <= m)%Z -> (0 <= round_nearest_even m l)%Z.
Proof.
  intros H. destruct l as [|[]]; cbn; try lia. destruct (Z.even m); lia.
Qed.

Lemma binary_round_aux_not_nan (sx : bool) (mx ex : Z) (lx : location) :
  (0 <= mx)%Z -> binary_round_aux prec emax sx mx ex lx <> S754_nan.
Proof.
  intros H. unfold binary_round_aux.
  pose proof (shr_fexp_nonneg ex lx H) as H1.
  destruct (shr_fexp prec emax mx ex lx) as [mrs' e']. cbn [fst] in H1.
  pose proof (shr_fexp_nonneg e' loc_Exact
                (round_nearest_even_nonneg (loc_of_shr_record mrs') H1)) as H2.
  destruct (shr_fexp prec emax _ e' loc_Exact) as [mrs'' e'']. cbn [fst] in H2.
  destruct (shr_m mrs''); [discriminate| |lia].
  destruct (e'' <=? emax - prec)%Z; discriminate.
Qed.

Lemma binary_normalize_not_nan (m e : Z) (sz : bool) :
  binary_normalize prec emax m e sz <> S754_nan.
Proof.
  unfold binary_normalize, binary_round.
  destruct m; [discriminate| |];
    destruct (shl_align _ _ _); apply binary_round_aux_not_nan; lia.
Qed.

End Rounding.

Lemma is_finite_Prim2SF (x : float) : is_finite x = true -> SFfinite (Prim2SF x).
Proof.
  unfold is_finite, Prim2SF. destruct (is_nan x); [discriminate|].
  destruct (is_infinity x); [discriminate|]. intros _.
  destruct (is_zero x); [exact I|].
  destruct (Z.frexp x) as [r e].
  destruct (shr_fexp prec emax _ _ _) as [s e'].
  destruct (shr_m s); exact I.
Qed.

Lemma SFsub_not_nan (x y : spec_float) :
  x <> S754_nan -> SFfinite y -> SF64sub x y <> S754_nan.
Proof.
  unfold SF64sub, SFsub.
  destruct x as [sx|sx| |sx mx ex], y as [sy|sy| |sy my ey]; cbn; intros Hx Hy;
    try contradiction; try congruence; try discriminate.
  - destruct sx, sy; discriminate.
  - apply binary_normalize_not_nan.
Qed.

Lemma SFdiv_not_nan (x y : spec_float) sy my ey :
  SFfinite x -> y = S754_finite sy my ey -> SF64div x y <> S754_nan.
Proof.
  intros Hx ->. unfold SF64div, SFdiv.
  destruct x as [sx|sx| |sx mx ex]; cbn in Hx; try contradiction; try discriminate.
  unfold SFdiv_core_binary.
  set (s := (_ - _ - _)%Z).
  set (m' := match s with Zpos _ => Z.shiftl (Zpos mx) s | Z0 => Zpos mx | Zneg _ => Z0 end).
  assert (Hm : (0 <= m')%Z).
  { subst m'. destruct s; try lia. apply Z.shiftl_nonneg. lia. }
  pose proof (Z.div_pos m' (Zpos my) Hm ltac:(lia)) as Hq.
  unfold Z.div in Hq.
  destruct (Z.div_eucl m' (Zpos my)) as [q r]. cbn [fst] in Hq.
  apply binary_round_aux_not_nan, Hq.
Qed.

(** Half of a finite number less a finite number is a number. *)
Lemma half_minus_not_nan (h m : float) :
  is_finite h = true -> is_finite m = true -> is_nan (h / 2 - m) = false.
Proof.
  intros Hh Hm. apply is_nan_false_Prim2SF.
  rewrite sub_spec, div_spec.
  apply SFsub_not_nan; [|apply is_finite_Prim2SF, Hm].
  eapply SFdiv_not_nan; [apply is_finite_Prim2SF, Hh|reflexivity].
Qed.

Lemma finite_times_zero (a : float) : is_finite a = true -> abs (a * 0) = 0.
Proof.
  intros H. apply Prim2SF_inj. rewrite abs_spec, mul_spec.
  apply is_finite_Prim2SF in H.
  change (Prim2SF 0) with (S754_zero false).
  destruct (Prim2SF a) as [s|s| |s m e]; cbn in H; try contradiction;
    destruct s; reflexivity.
Qed.

Lemma zero_times (x : float) : is_nan (0 * x) = false -> SFzero (Prim2SF (0 * x)).
Proof.
  rewrite is_nan_false_Prim2SF, mul_spec.
  change (Prim2SF 0) with (S754_zero false).
  destruct (Prim2SF x) as [s|s| |s m e]; cbn; intros H; try exact I; congruence.
Qed.

Lemma abs_ltb_zero (x : float) : (abs x <? 0) = false.
Proof.
  rewrite ltb_spec, abs_spec. change (Prim2SF 0) with (S754_zero false).
  destruct (Prim2SF x) as [s|s| |s m e]; reflexivity.
Qed.

(** [0 - |x|] is never positive. *)
Lemma zero_ltb_zero_minus_abs (x : float) : (0 <? 0 - abs x) = false.
Proof.
  rewrite ltb_spec, sub_spec, abs_spec. change (Prim2SF 0) with (S754_zero false).
  destruct (Prim2SF x) as [s|s| |s m e]; reflexivity.
Qed.

(** The smaller of a zero and a number is below every positive number. *)
Lemma Math_min_zero_below (z m k : float) :
  SFzero (Prim2SF z) -> is_nan m = false -> (0 <? k) = true ->
  (Math_min z m <? k) = true.
Proof.
  intros Hz Hm Hk.
  assert (Hzk : (z <? k) = true).
  { rewrite ltb_spec in *. change (Prim2SF 0) with (S754_zero false) in Hk.
    destruct (Prim2SF z); cbn in Hz; try contradiction.
    destruct (Prim2SF k); cbn in *; congruence. }
  assert (Hzn : is_nan z = false).
  { apply is_nan_false_Prim2SF. destruct (Prim2SF z); cbn in Hz; try contradiction; discriminate. }
  unfold Math_min. rewrite Hzn, Hm. cbn [orb].
  destruct (z <? m) eqn:E1; [exact Hzk|].
  destruct (m <? z) eqn:E2.
  - rewrite ltb_spec in *. change (Prim2SF 0) with (S754_zero false) in Hk.
    destruct (Prim2SF z); cbn in Hz; try contradiction.
    destruct (Prim2SF m) as [sm|sm| |sm mm em], (Prim2SF k) as [sk|sk| |sk mk ek];
      cbn in *; try congruence;
      try destruct sm; try destruct sk; cbn in *; congruence.
  - destruct (get_sign z); [exact Hzk|].
    apply is_nan_false_Prim2SF in Hm.
    rewrite ltb_spec in *. change (Prim2SF 0) with (S754_zero false) in Hk.
    destruct (Prim2SF z); cbn in Hz; try contradiction.
    destruct (Prim2SF m) as [sm|sm| |sm mm em], (Prim2SF k) as [sk|sk| |sk mk ek];
      cbn in *; try congruence;
      try destruct sm; try destruct sk; cbn in *; congruence.
Qed.

(* ================================================================== *)
(** ** Facts about the arrays *)

Section BufferFacts.

Lemma quads_empty : quads 0 noBuffers.
Proof. repeat split; constructor. Qed.

(** A quad is dropped or appended whole. *)
Lemma pushQuad_cases (b : Buffers) (v0 v1 v2 v3 n : Vector3) (k : nat) :
  quads k b ->
  quads k (pushQuad b v0 v1 v2 v3 n) \/ quads (S k) (pushQuad b v0 v1 v2 v3 n).
Proof.
  intros (Hp & Hn & Hi & Hf). unfold pushQuad.
  destruct (isNaN (vx v0) || isNaN (vx n)).
  - left. repeat split; assumption.
  - right. unfold quads. cbn [positions normals indices].
    rewrite !length_app, Hp, Hn, Hi. cbn [List.length].
    replace (12 * k)%nat with (4 * k * 3)%nat by lia. rewrite Nat.div_mul by lia.
    repeat split; try lia.
    apply Forall_app. split.
    + eapply Forall_impl; [|exact Hf]. cbn beta. intros; lia.
    + repeat (apply Forall_cons; [lia|]). apply Forall_nil.
Qed.

Lemma pushQuad_wf (b : Buffers) (v0 v1 v2 v3 n : Vector3) :
  wfBuffers b -> wfBuffers (pushQuad b v0 v1 v2 v3 n).
Proof.
  intros [k H]. destruct (pushQuad_cases v0 v1 v2 v3 n H); [exists k|exists (S k)]; assumption.
Qed.

Lemma Part002_segment_wf (b : Buffers) (v0 v1 v2 v3 n : Vector3) (th : float) (l r : bool) :
  wfBuffers b -> wfBuffers (Part002.pushVolumetricSegment b v0 v1 v2 v3 n th l r).
Proof.
  intros H. unfold Part002.pushVolumetricSegment. cbv zeta.
  repeat match goal with
         | |- wfBuffers (if ?c then _ else _) => destruct c
         | |- wfBuffers (pushQuad _ _ _ _ _ _) => apply pushQuad_wf
         end; assumption.
Qed.

Lemma MathEngine_segment_wf (b : Buffers) (v0 v1 v2 v3 n : Vector3) (th : float) (l r : bool) :
  wfBuffers b -> wfBuffers (MathEngine.pushVolumetricSegment b v0 v1 v2 v3 n th l r).
Proof.
  intros H. unfold MathEngine.pushVolumetricSegment. cbv zeta.
  repeat match goal with
         | |- wfBuffers (if ?c then _ else _) => destruct c
         | |- wfBuffers (pushQuad _ _ _ _ _ _) => apply pushQuad_wf
         end; assumption.
Qed.

Lemma Part002_execute_wf (st : AppState) (es : list Emit) (a : Acc) :
  wfBuffers (buf a) -> wfBuffers (buf (Part002.execute st es a)).
Proof.
  unfold Part002.execute. revert a.
  induction es as [|e es IH]; intros a H; [assumption|].
  cbn [fold_left]. apply IH. destruct e; cbn [Part002.perform buf];
    [apply Part002_segment_wf|]; assumption.
Qed.

Lemma MathEngine_execute_wf (st : AppState) (es : list Emit) (a : Acc) :
  wfBuffers (buf a) -> wfBuffers (buf (MathEngine.execute st es a)).
Proof.
  unfold MathEngine.execute. revert a.
  induction es as [|e es IH]; intros a H; [assumption|].
  cbn [fold_left]. apply IH. destruct e; cbn [MathEngine.perform buf];
    [apply MathEngine_segment_wf|]; assumption.
Qed.

(** The lines of the blueprint are the line events, in order. *)
Lemma Part002_execute_lines (st : AppState) (es : list Emit) (a : Acc) :
  blueprintLines (Part002.execute st es a) = blueprintLines a ++ linesOf es.
Proof.
  unfold Part002.execute. revert a.
  induction es as [|e es IH]; intros a; cbn [fold_left linesOf flat_map].
  - rewrite app_nil_r. reflexivity.
  - rewrite IH. destruct e; cbn [Part002.perform blueprintLines].
    + reflexivity.
    + rewrite <- app_assoc. reflexivity.
Qed.

Lemma MathEngine_execute_lines (st : AppState) (es : list Emit) (a : Acc) :
  blueprintLines (MathEngine.execute st es a) = blueprintLines a ++ linesOf es.
Proof.
  unfold MathEngine.execute. revert a.
  induction es as [|e es IH]; intros a; cbn [fold_left linesOf flat_map].
  - rewrite app_nil_r. reflexivity.
  - rewrite IH. destruct e; cbn [MathEngine.perform blueprintLines].
    + reflexivity.
    + rewrite <- app_assoc. reflexivity.
Qed.

Lemma linesOf_app (es es' : list Emit) : linesOf (es ++ es') = linesOf es ++ linesOf es'.
Proof. unfold linesOf. apply flat_map_app. Qed.

Lemma linesOf_flat_map (f : nat -> list Emit) (cs : list nat) :
  linesOf (flat_map f cs) = flat_map (fun c => linesOf (f c)) cs.
Proof.
  induction cs as [|c cs IH]; [reflexivity|].
  cbn [flat_map]. rewrite linesOf_app, IH. reflexivity.
Qed.

Lemma wfBuffers_wellFormed (b : Buffers) :
  wfBuffers b ->
  wellFormed (Float32Array (positions b)) (Float32Array (normals b)) (indices b).
Proof.
  intros (k & Hp & Hn & Hi & Hf). unfold wellFormed, Float32Array.
  rewrite !length_map, Hp, Hn, Hi.
  replace (12 * k)%nat with (4 * k * 3)%nat by lia.
  replace (6 * k)%nat with (2 * k * 3)%nat by lia.
  rewrite !Nat.Div0.mod_mul, Nat.div_mul by lia.
  repeat split. exact Hf.
Qed.

End BufferFacts.

Lemma finite_zero_times (x : float) : is_finite x = true -> abs (0 * x) = 0.
Proof.
  intros H. apply Prim2SF_inj. rewrite abs_spec, mul_spec.
  apply is_finite_Prim2SF in H.
  change (Prim2SF 0) with (S754_zero false).
  destruct (Prim2SF x) as [s|s| |s m e]; cbn in H; try contradiction;
    destruct s; reflexivity.
Qed.

(** The clamp of a value that may be NaN. *)
Lemma clamp_bounds (v : float) :
  is_nan (Math_max 0 (Math_min 1 v)) = true \/ in01 (Math_max 0 (Math_min 1 v)).
Proof.
  destruct (is_nan v) eqn:Hv.
  - left. unfold Math_min. rewrite Hv, orb_true_r. reflexivity.
  - right. destruct (@Math_min_1 v Hv) as [Hn Hle]. apply Math_max_0; assumption.
Qed.

(** The brightness of the [image] profile: every combination of three
    bytes is checked. *)
Lemma allBrightnessOk :
  forallb (fun a => forallb (fun b => forallb (fun c => brightnessOk a b c) byteValues)
                      byteValues) byteValues = true.
Proof. vm_compute. reflexivity. Qed.

Lemma forallb3 (A : Type) (f : A -> A -> A -> bool) (l : list A) :
  forallb (fun a => forallb (fun b => forallb (fun c => f a b c) l) l) l = true ->
  forall a b c, In a l -> In b l -> In c l -> f a b c = true.
Proof.
  intros H a b c Ha Hb Hc.
  rewrite forallb_forall in H. specialize (H a Ha).
  rewrite forallb_forall in H. specialize (H b Hb).
  rewrite forallb_forall in H. exact (H c Hc).
Qed.

Lemma brightness_in01 (a b c : float) :
  In a byteValues -> In b byteValues -> In c byteValues ->
  in01 ((a + b + c) / 3 / 255).
Proof.
  intros Ha Hb Hc.
  exact (@forallb3 float brightnessOk byteValues allBrightnessOk a b c Ha Hb Hc).
Qed.

Lemma byteAt_cases (data : list byte) (idx : float) :
  byteAt data idx = nan \/ In (byteAt data idx) byteValues.
Proof.
  unfold byteAt. destruct (to_index idx) as [i|]; [|left; reflexivity].
  destruct (nth_error data i) as [b|]; [|left; reflexivity].
  right. change byteValues with (map of_nat (seq 0 256)).
  replace (of_Z (Z.of_N (Byte.to_N b))) with (of_nat (N.to_nat (Byte.to_N b))).
  - apply in_map, in_seq. pose proof (Byte.to_N_bounded b). lia.
  - unfold of_nat. rewrite N_nat_Z. reflexivity.
Qed.

Lemma add_nan_l (x y : float) : is_nan x = true -> is_nan (x + y) = true.
Proof.
  rewrite !is_nan_Prim2SF, add_spec. intros ->. reflexivity.
Qed.

Lemma add_nan_r (x y : float) : is_nan y = true -> is_nan (x + y) = true.
Proof.
  rewrite !is_nan_Prim2SF, add_spec. intros ->. destruct (Prim2SF x); reflexivity.
Qed.

Lemma div_nan_l (x y : float) : is_nan x = true -> is_nan (x / y) = true.
Proof.
  rewrite !is_nan_Prim2SF, div_spec. intros ->. reflexivity.
Qed.

(** What is read from a raster: NaN past its end, else in [0,1]. *)
Lemma image_brightness (data : list byte) (idx : float) :
  let r := (byteAt data idx + byteAt data (idx + 1) + byteAt data (idx + 2)) / 3 / 255 in
  is_nan r = true \/ in01 r.
Proof.
  cbv zeta.
  destruct (byteAt_cases data idx) as [-> | Ha].
  { left. apply div_nan_l, div_nan_l, add_nan_l, add_nan_l. reflexivity. }
  destruct (byteAt_cases data (idx + 1)) as [-> | Hb].
  { left. apply div_nan_l, div_nan_l, add_nan_l, add_nan_r. reflexivity. }
  destruct (byteAt_cases data (idx + 2)) as [-> | Hc].
  { left. apply div_nan_l, div_nan_l, add_nan_r. reflexivity. }
  right. apply brightness_in01; assumption.
Qed.
(* ================================================================== *)
(** ** The blueprint does not depend on the fold angle *)

(** Exposing the fields a definition reads, to see that [foldProgress] is
    not among them. *)
Ltac expose_fields :=
  unfold Part002.profileRadius, Part002.rawProfileRadius, Part002.halfHeight,
    Part002.normX, Part002.xLeft, Part002.xRight, Part002.xBase,
    Part002.stripWidth, Part002.effectiveWidth, Part002.stepsF, Part002.stepsN,
    MathEngine.xLeft, MathEngine.xRight, MathEngine.xBase,
    MathEngine.stripWidth, MathEngine.effectiveWidth,
    withFoldProgress;
  cbn [algorithm rows cols amplitude frequency spread curvature roughness
       fractalOctaves customFormula sketchPoints foldProgress paperThickness
       showWireframe paperSize heightMapData overlayTexture isVideoTexture].

Section Blueprint.
Context {rt : Runtime}.

Lemma Part002_blueprint (st : AppState) :
  Part002.g_blueprintLines (Part002.generateKirigamiGeometry st)
  = flat_map (fun c => linesOf (Part002.column st c)) (seq 0 (cols st)).
Proof.
  unfold Part002.generateKirigamiGeometry.
  destruct (fold_left _ _ _) as [tc tf]. cbn [Part002.g_blueprintLines].
  rewrite Part002_execute_lines. cbn [blueprintLines app].
  apply linesOf_flat_map.
Qed.

Lemma MathEngine_blueprint (st : AppState) :
  MathEngine.g_blueprintLines (MathEngine.generateKirigamiGeometry st)
  = flat_map (fun c => linesOf (MathEngine.column st c)) (seq 0 (cols st)).
Proof.
  unfold MathEngine.generateKirigamiGeometry. cbn [MathEngine.g_blueprintLines].
  rewrite MathEngine_execute_lines. cbn [blueprintLines app].
  apply linesOf_flat_map.
Qed.

(** Unfolding one turn of the loops. *)
Lemma Part002_stepLoop_S (st : AppState) (c n i : nat) (pos : Vector3) (y : float) :
  Part002.stepLoop st c (S n) i pos y =
  let b := Part002.stepBody st c i pos y in
  let r := Part002.stepLoop st c n (S i) (snd (fst b)) (snd b) in
  (fst (fst b) ++ fst (fst r), snd (fst r), snd r).
Proof.
  cbn [Part002.stepLoop]. cbv zeta.
  destruct (Part002.stepBody st c i pos y) as [[es p] y'].
  cbn [fst snd].
  destruct (Part002.stepLoop st c n (S i) p y') as [[es' p'] y'']. reflexivity.
Qed.

Lemma Part002_stepBody_fold (st : AppState) (t1 t2 : float) (c i : nat)
    (p1 p2 : Vector3) (y : float) :
  linesOf (fst (fst (Part002.stepBody (withFoldProgress t1 st) c i p1 y)))
  = linesOf (fst (fst (Part002.stepBody (withFoldProgress t2 st) c i p2 y)))
  /\ snd (Part002.stepBody (withFoldProgress t1 st) c i p1 y)
     = snd (Part002.stepBody (withFoldProgress t2 st) c i p2 y).
Proof.
  split; [|reflexivity].
  unfold Part002.stepBody. cbv zeta. cbn [fst snd].
  rewrite !linesOf_app. expose_fields.
  repeat match goal with |- context [if ?b then _ else _] => destruct b end;
  reflexivity.
Qed.

Lemma Part002_stepLoop_fold (st : AppState) (t1 t2 : float) (c n : nat) :
  forall (i : nat) (p1 p2 : Vector3) (y : float),
  linesOf (fst (fst (Part002.stepLoop (withFoldProgress t1 st) c n i p1 y)))
  = linesOf (fst (fst (Part002.stepLoop (withFoldProgress t2 st) c n i p2 y)))
  /\ snd (Part002.stepLoop (withFoldProgress t1 st) c n i p1 y)
     = snd (Part002.stepLoop (withFoldProgress t2 st) c n i p2 y).
Proof.
  induction n as [|n IH]; intros i p1 p2 y; [split; reflexivity|].
  rewrite !Part002_stepLoop_S. cbv zeta. cbn [fst snd].
  destruct (Part002_stepBody_fold st t1 t2 c i p1 p2 y) as [Hl Hy].
  rewrite Hy.
  destruct (IH (S i)
              (snd (fst (Part002.stepBody (withFoldProgress t1 st) c i p1 y)))
              (snd (fst (Part002.stepBody (withFoldProgress t2 st) c i p2 y)))
              (snd (Part002.stepBody (withFoldProgress t2 st) c i p2 y))) as [Hl' Hy'].
  split; [|exact Hy'].
  rewrite !linesOf_app, Hl, Hl'. reflexivity.
Qed.

Lemma Part002_column_fold (st : AppState) (t1 t2 : float) (c : nat) :
  linesOf (Part002.column (withFoldProgress t1 st) c)
  = linesOf (Part002.column (withFoldProgress t2 st) c).
Proof.
  unfold Part002.column.
  change (Part002.profileRadius (withFoldProgress t1 st) c) with (Part002.profileRadius st c).
  change (Part002.profileRadius (withFoldProgress t2 st) c) with (Part002.profileRadius st c).
  destruct (negb (Part002.isPopup c)); [reflexivity|].
  destruct (Part002.profileRadius st c <? 1); [reflexivity|].
  unfold Part002.activeColumn. cbv zeta.
  change (Part002.stepsN (withFoldProgress t1 st)) with (Part002.stepsN st).
  change (Part002.stepsN (withFoldProgress t2 st)) with (Part002.stepsN st).
  change (Part002.profileRadius (withFoldProgress t1 st) c) with (Part002.profileRadius st c).
  change (Part002.profileRadius (withFoldProgress t2 st) c) with (Part002.profileRadius st c).
  pose proof (Part002_stepLoop_fold st t1 t2 c (Part002.stepsN st) 0
                (vec3 0 (- Part002.profileRadius st c) 0)
                (vec3 0 (- Part002.profileRadius st c) 0)
                (- Part002.profileRadius st c)) as [Hl _].
  destruct (Part002.stepLoop (withFoldProgress t1 st) _ _ _ _ _) as [[es1 q1] y1'].
  destruct (Part002.stepLoop (withFoldProgress t2 st) _ _ _ _ _) as [[es2 q2] y2'].
  cbn [fst] in Hl.
  rewrite !linesOf_app, Hl. reflexivity.
Qed.

Lemma MathEngine_stepLoop_S (st : AppState) (c n i : nat) (pos : Vector3) (y : float) :
  MathEngine.stepLoop st c (S n) i pos y =
  let b := MathEngine.stepBody st c i pos y in
  let r := MathEngine.stepLoop st c n (S i) (snd (fst b)) (snd b) in
  (fst (fst b) ++ fst (fst r), snd (fst r), snd r).
Proof.
  cbn [MathEngine.stepLoop]. cbv zeta.
  destruct (MathEngine.stepBody st c i pos y) as [[es p] y'].
  cbn [fst snd].
  destruct (MathEngine.stepLoop st c n (S i) p y') as [[es' p'] y'']. reflexivity.
Qed.

Lemma MathEngine_stepBody_fold (st : AppState) (t1 t2 : float) (c i : nat)
    (p1 p2 : Vector3) (y : float) :
  linesOf (fst (fst (MathEngine.stepBody (withFoldProgress t1 st) c i p1 y)))
  = linesOf (fst (fst (MathEngine.stepBody (withFoldProgress t2 st) c i p2 y)))
  /\ snd (MathEngine.stepBody (withFoldProgress t1 st) c i p1 y)
     = snd (MathEngine.stepBody (withFoldProgress t2 st) c i p2 y).
Proof.
  split; [|reflexivity].
  unfold MathEngine.stepBody. cbv zeta. cbn [fst snd].
  change (MathEngine.numSteps (withFoldProgress t1 st) c) with (MathEngine.numSteps st c).
  change (MathEngine.numSteps (withFoldProgress t2 st) c) with (MathEngine.numSteps st c).
  rewrite !linesOf_app.
  destruct (i <? MathEngine.numSteps st c - 1)%nat; reflexivity.
Qed.

Lemma MathEngine_stepLoop_fold (st : AppState) (t1 t2 : float) (c n : nat) :
  forall (i : nat) (p1 p2 : Vector3) (y : float),
  linesOf (fst (fst (MathEngine.stepLoop (withFoldProgress t1 st) c n i p1 y)))
  = linesOf (fst (fst (MathEngine.stepLoop (withFoldProgress t2 st) c n i p2 y)))
  /\ snd (MathEngine.stepLoop (withFoldProgress t1 st) c n i p1 y)
     = snd (MathEngine.stepLoop (withFoldProgress t2 st) c n i p2 y).
Proof.
  induction n as [|n IH]; intros i p1 p2 y; [split; reflexivity|].
  rewrite !MathEngine_stepLoop_S. cbv zeta. cbn [fst snd].
  destruct (MathEngine_stepBody_fold st t1 t2 c i p1 p2 y) as [Hl Hy].
  rewrite Hy.
  destruct (IH (S i)
              (snd (fst (MathEngine.stepBody (withFoldProgress t1 st) c i p1 y)))
              (snd (fst (MathEngine.stepBody (withFoldProgress t2 st) c i p2 y)))
              (snd (MathEngine.stepBody (withFoldProgress t2 st) c i p2 y))) as [Hl' Hy'].
  split; [|exact Hy'].
  rewrite !linesOf_app, Hl, Hl'. reflexivity.
Qed.

Lemma MathEngine_column_fold (st : AppState) (t1 t2 : float) (c : nat) :
  linesOf (MathEngine.column (withFoldProgress t1 st) c)
  = linesOf (MathEngine.column (withFoldProgress t2 st) c).
Proof.
  unfold MathEngine.column. rewrite !linesOf_app.
  change (MathEngine.isFlat (withFoldProgress t1 st) c) with (MathEngine.isFlat st c).
  change (MathEngine.isFlat (withFoldProgress t2 st) c) with (MathEngine.isFlat st c).
  f_equal.
  destruct (negb (MathEngine.isFlat st c)); [|reflexivity].
  unfold MathEngine.strip. cbv zeta.
  change (MathEngine.numSteps (withFoldProgress t1 st) c) with (MathEngine.numSteps st c).
  change (MathEngine.numSteps (withFoldProgress t2 st) c) with (MathEngine.numSteps st c).
  change (MathEngine.yAnchorFloor (withFoldProgress t1 st) c) with (MathEngine.yAnchorFloor st c).
  change (MathEngine.yAnchorFloor (withFoldProgress t2 st) c) with (MathEngine.yAnchorFloor st c).
  pose proof (MathEngine_stepLoop_fold st t1 t2 c (MathEngine.numSteps st c) 0
                (vec3 0 (MathEngine.yAnchorFloor st c) 0)
                (vec3 0 (MathEngine.yAnchorFloor st c) 0)
                (MathEngine.yAnchorFloor st c)) as [Hl Hy].
  destruct (MathEngine.stepLoop (withFoldProgress t1 st) _ _ _ _ _) as [[es1 q1] y1'].
  destruct (MathEngine.stepLoop (withFoldProgress t2 st) _ _ _ _ _) as [[es2 q2] y2'].
  cbn [fst snd] in Hl, Hy. subst y2'.
  rewrite !linesOf_app, Hl. reflexivity.
Qed.

End Blueprint.

(* ================================================================== *)
(** ** Facts about the columns *)

Section ColumnFacts.
Context {rt : Runtime}.

(** The folds inside a strip are mountain or valley lines. *)
Lemma Part002_stepLoop_folds (st : AppState) (c n : nat) :
  forall i pos y l,
  In l (linesOf (fst (fst (Part002.stepLoop st c n i pos y)))) ->
  type l = valley \/ type l = mountain.
Proof.
  induction n as [|n IH]; intros i pos y l; [intros []|].
  rewrite Part002_stepLoop_S. cbv zeta. cbn [fst snd].
  rewrite linesOf_app, in_app_iff. intros [H|H]; [|eapply IH; exact H].
  revert H. unfold Part002.stepBody. cbv zeta. cbn [fst snd].
  rewrite !linesOf_app.
  repeat match goal with |- context [if ?b then _ else _] => destruct b end;
    cbn; intros H; repeat (destruct H as [<-|H]; [auto|]); contradiction.
Qed.

Lemma MathEngine_stepLoop_folds (st : AppState) (c n : nat) :
  forall i pos y l,
  In l (linesOf (fst (fst (MathEngine.stepLoop st c n i pos y)))) ->
  type l = valley \/ type l = mountain.
Proof.
  induction n as [|n IH]; intros i pos y l; [intros []|].
  rewrite MathEngine_stepLoop_S. cbv zeta. cbn [fst snd].
  rewrite linesOf_app, in_app_iff. intros [H|H]; [|eapply IH; exact H].
  revert H. unfold MathEngine.stepBody. cbv zeta. cbn [fst snd].
  rewrite !linesOf_app.
  repeat match goal with |- context [if ?b then _ else _] => destruct b end;
    cbn; intros H; repeat (destruct H as [<-|H]; [auto|]); contradiction.
Qed.

(** The cut lines of a column: its two side edges, and only if it pops up. *)
Lemma Part002_column_cut (st : AppState) (c : nat) (l : BlueprintLine) :
  In l (linesOf (Part002.column st c)) -> type l = cut ->
  Nat.odd c = true
  /\ (verticalAt (Part002.xLeft st c) l \/ verticalAt (Part002.xRight st c) l).
Proof.
  unfold Part002.column, Part002.isPopup.
  destruct (Nat.odd c); cbn [negb].
  2:{ cbn. intros H Hc. repeat (destruct H as [<-|H]; [discriminate Hc|]). contradiction. }
  destruct (Part002.profileRadius st c <? 1).
  { cbn. intros H Hc. repeat (destruct H as [<-|H]; [discriminate Hc|]). contradiction. }
  unfold Part002.activeColumn. cbv zeta.
  pose proof (@Part002_stepLoop_folds st c (Part002.stepsN st) 0
                (vec3 0 (- Part002.profileRadius st c) 0)
                (- Part002.profileRadius st c) l) as Hfolds.
  destruct (Part002.stepLoop st _ _ _ _ _) as [[es q] y']. cbn [fst] in Hfolds.
  rewrite !linesOf_app, !in_app_iff. cbn.
  intros [[<-|[<-|[]]]|[H|[]]] Hc.
  - split; [reflexivity|]. left. split; reflexivity.
  - split; [reflexivity|]. right. split; reflexivity.
  - destruct (Hfolds H) as [E|E]; rewrite E in Hc; discriminate.
Qed.

Lemma MathEngine_column_cut (st : AppState) (c : nat) (l : BlueprintLine) :
  In l (linesOf (MathEngine.column st c)) -> type l = cut ->
  MathEngine.isFlat st c = false
  /\ (verticalAt (MathEngine.xLeft st c) l \/ verticalAt (MathEngine.xRight st c) l).
Proof.
  unfold MathEngine.column. rewrite linesOf_app. cbn [MathEngine.frames linesOf flat_map app].
  destruct (MathEngine.isFlat st c); cbn [negb].
  { cbn. intros H Hc. repeat (destruct H as [<-|H]; [discriminate Hc|]). contradiction. }
  unfold MathEngine.strip. cbv zeta.
  pose proof (@MathEngine_stepLoop_folds st c (MathEngine.numSteps st c) 0
                (vec3 0 (MathEngine.yAnchorFloor st c) 0)
                (MathEngine.yAnchorFloor st c) l) as Hfolds.
  destruct (MathEngine.stepLoop st _ _ _ _ _) as [[es q] y']. cbn [fst] in Hfolds.
  rewrite !linesOf_app, !in_app_iff. cbn.
  intros [[<-|[<-|[<-|[]]]]|[H|[<-|[]]]] Hc; try discriminate Hc.
  - split; [reflexivity|]. left. split; reflexivity.
  - split; [reflexivity|]. right. split; reflexivity.
  - destruct (Hfolds H) as [E|E]; rewrite E in Hc; discriminate.
Qed.

(** A column of [mathEngine.ts] whose shape factor is 0 is flat when the
    amplitude and the paper height are finite; so is every fixed column. *)
Lemma MathEngine_zero_factor_isFlat (st : AppState) (c : nat) :
  finite (amplitude st) -> finite (height (paperSize st)) ->
  MathEngine.shapeFactor st c = 0 -> MathEngine.isFlat st c = true.
Proof.
  intros Ha Hh Hc.
  unfold MathEngine.isFlat, MathEngine.columnAmplitude, Math_abs.
  rewrite Hc, (@finite_times_zero (amplitude st) Ha).
  apply Math_min_zero_below; [exact I| |reflexivity].
  unfold MathEngine.maxSafe. apply half_minus_not_nan; [exact Hh|reflexivity].
Qed.

Lemma MathEngine_even_isFlat (st : AppState) (c : nat) :
  finite (amplitude st) -> finite (height (paperSize st)) ->
  Nat.odd c = false -> MathEngine.isFlat st c = true.
Proof.
  intros Ha Hh Hc. apply MathEngine_zero_factor_isFlat; try assumption.
  unfold MathEngine.shapeFactor, MathEngine.isPopup. rewrite Hc. reflexivity.
Qed.

(** With amplitude 0 the radius of [part_002] is a zero, if it is a number. *)
Lemma Part002_zero_amplitude_radius (st : AppState) (c : nat) :
  amplitude st = 0 -> is_nan (Part002.rawProfileRadius st c) = false ->
  SFzero (Prim2SF (Part002.rawProfileRadius st c)).
Proof.
  intros Ha. unfold Part002.rawProfileRadius. rewrite Ha. cbv zeta.
  destruct (algorithm st); try (apply zero_times); try (intros _; exact I).
  - unfold Math_abs. rewrite abs_ltb_zero. intros _; exact I.
  - unfold Math_abs, Math_max. intros Hn.
    destruct (is_nan 0 || is_nan _) eqn:En; [discriminate Hn|].
    rewrite zero_ltb_zero_minus_abs.
    destruct (_ <? 0); exact I.
Qed.

(** The statistics loop computes the two filtered sums in one pass. *)
Lemma accumulate_sums (ls : list BlueprintLine) :
  forall totalCut totalFold : float,
  fold_left Part002.accumulate ls (totalCut, totalFold)
  = (fold_left (fun acc l => acc + Part002.lineLength l) (filter isCut ls) totalCut,
     fold_left (fun acc l => acc + Part002.lineLength l) (filter isFold ls) totalFold).
Proof.
  induction ls as [|l ls IH]; intros tc tf; [reflexivity|].
  cbn [fold_left filter]. unfold Part002.accumulate at 2. cbv zeta.
  rewrite IH. unfold isCut, isFold.
  destruct (LineType_eqb (type l) cut);
    destruct (LineType_eqb (type l) mountain || LineType_eqb (type l) valley);
    reflexivity.
Qed.

Lemma fold_left_lengths (ls : list BlueprintLine) :
  powSquares ->
  forall a : float,
  fold_left (fun acc l => acc + Part002.lineLength l) ls a
  = fold_left (fun acc l => acc + euclideanLength l) ls a.
Proof.
  intros H. induction ls as [|l ls IH]; intros a; [reflexivity|].
  cbn [fold_left]. rewrite IH. unfold Part002.lineLength, euclideanLength.
  rewrite !H. reflexivity.
Qed.

End ColumnFacts.

(** Evaluating a scenario once the sines and cosines it reaches are known. *)
Ltac evaluate_with H :=
  let Hs0 := fresh "Hs0" in let Hc0 := fresh "Hc0" in
  let Hs1 := fresh "Hs1" in let Hc1 := fresh "Hc1" in
  let Hs2 := fresh "Hs2" in let Hc2 := fresh "Hc2" in
  destruct H as (Hs0 & Hc0 & Hs1 & Hc1 & Hs2 & Hc2);
  cbv - [Math_sin Math_cos] in Hs0, Hc0, Hs1, Hc1, Hs2, Hc2;
  cbv - [Math_sin Math_cos];
  repeat (progress (rewrite ?Hs0, ?Hc0, ?Hs1, ?Hc1, ?Hs2, ?Hc2); cbv - [Math_sin Math_cos]).

(** A state of the examples is a design configuration. *)
Ltac design_config :=
  constructor; unfold finite; solve [vm_compute; reflexivity | cbn; lia].

(** Membership in a list that evaluates. *)
Ltac in_evaluated :=
  vm_compute; repeat (try (left; reflexivity); right).

Lemma exampleRuntime_trig : @trigAtScenario exampleRuntime.
Proof. repeat split. Qed.

Lemma exampleRuntime_powSquares : @powSquares exampleRuntime.
Proof. intros x. reflexivity. Qed.

Lemma exampleRuntime_exactAtZero : @exactAtZero exampleRuntime.
Proof. split; reflexivity. Qed.

Lemma DesignConfig_scenario : DesignConfig scenario.
Proof. design_config. Qed.

Lemma DesignConfig_vaseState : DesignConfig vaseState.
Proof. design_config. Qed.

Lemma DesignConfig_tallState : DesignConfig tallState.
Proof. design_config. Qed.

Lemma DesignConfig_flatState : DesignConfig flatState.
Proof. design_config. Qed.

(* ================================================================== *)
(** ** The model at work *)

Example Math_floor_examples :
  map Math_floor [0.5; -0.5; 2.7; -2.7; 6.6; 15.4; -0; 1e300]
  = [0; -1; 2; -3; 6; 15; -0; 1e300].
Proof. vm_compute. reflexivity. Qed.

Example rem1_examples : map rem1 [2.25; -2.25; 3; 0.5] = [0.25; -0.25; 0; 0.5].
Proof. vm_compute. reflexivity. Qed.

Example fround_examples :
  map fround [0.2; 1; 16777217; 1e39] = [0.20000000298023224; 1; 16777216; infinity].
Proof. vm_compute. reflexivity. Qed.

Example Math_min_max_examples :
  (Math_min 50 128.5, Math_max 2 12, is_nan (Math_min nan 1), Math_max 0 (Math_min 1 infinity))
  = (50, 12, true, 1).
Proof. vm_compute. reflexivity. Qed.

(** The blueprint of the scenario, by type, in [part_002] and in
    [mathEngine.ts]. *)
Example part002_scenario_types :
  map type (Part002.g_blueprintLines (@Part002.generateKirigamiGeometry exampleRuntime scenario))
  = [spine; spine; valley; spine; spine;
     cut; cut; valley; mountain; valley;
     spine; spine; valley; spine; spine].
Proof. vm_compute. reflexivity. Qed.

Example mathEngine_scenario_types :
  map type (MathEngine.g_blueprintLines
              (@MathEngine.generateKirigamiGeometry exampleRuntime scenario))
  = [valley; cut; cut; valley; mountain; valley; mountain; valley; valley].
Proof. vm_compute. reflexivity. Qed.

Example part002_scenario_stats :
  let g := @Part002.generateKirigamiGeometry exampleRuntime scenario in
  Part002.polyCount (Part002.stats g) = 80%nat
  /\ Part002.totalCutLength (Part002.stats g) = 594
  /\ List.length (Part002.g_positions g) = 480%nat.
Proof. vm_compute. repeat split; reflexivity. Qed.

(** The [while] loop of the sketch profile stops within its fuel: at the
    index returned the loop condition is false. *)
Lemma sketchIndex_exits (pts : list Point) (u : float) :
  forall fuel i : nat,
  (List.length pts - 2 <= fuel + i)%nat ->
  let j := MathEngine.sketchIndex pts u fuel i in
  (j <? List.length pts - 2)%nat && (px (MathEngine.pointAt pts (j + 1)) <? u) = false.
Proof.
  induction fuel as [|fuel IH]; intros i H; cbn [MathEngine.sketchIndex]; cbv zeta.
  - replace (i <? List.length pts - 2)%nat with false; [reflexivity|].
    symmetry. apply Nat.ltb_ge. lia.
  - destruct ((i <? List.length pts - 2)%nat
              && (px (MathEngine.pointAt pts (i + 1)) <? u)) eqn:E.
    + apply IH. lia.
    + exact E.
Qed.

(** [pushQuad] drops a quad exactly when the first coordinate of its first
    vertex or of its normal is NaN. *)
Lemma pushQuad_dropped (b : Buffers) (v0 v1 v2 v3 n : Vector3) :
  pushQuad b v0 v1 v2 v3 n = b <-> isNaN (vx v0) || isNaN (vx n) = true.
Proof.
  unfold pushQuad. destruct (isNaN (vx v0) || isNaN (vx n)); split; intros H;
    try reflexivity; try discriminate H.
  apply (f_equal (fun x => List.length (positions x))) in H.
  cbn [positions] in H. rewrite length_app in H. cbn [List.length] in H. lia.
Qed.

(* ================================================================== *)
(** ** The end-to-end scenario *)

(** C2, as amended.  For three columns, two rows, stairs of amplitude 50
    and full fold on A4 paper, the generator of [part_002] does what the
    scenario says: columns 0 and 2 are fixed with two segments each, column
    1 has two static segments and two tread and riser pairs, the blueprint
    has two cut lines at the extents of column 1, one mountain line, and
    column 1 has two valley lines.  The generator of [mathEngine.ts] builds
    three segments in columns 0 and 2 and, in column 1, two riser and tread
    pairs with two cut, two mountain and three valley lines. *)
Theorem scenario_columns_and_blueprint {rt : Runtime} :
  trigAtScenario ->
  (scenarioClaim (Part002.column scenario)
     (Part002.g_blueprintLines (Part002.generateKirigamiGeometry scenario))
     (Part002.xLeft scenario 1) (Part002.xRight scenario 1)
   /\ Part002.column scenario 0 = Part002.fixedColumn scenario 0
   /\ Part002.column scenario 2 = Part002.fixedColumn scenario 2
   /\ Part002.column scenario 1 = Part002.activeColumn scenario 1
   /\ Part002.stepsN scenario = 2%nat
   /\ countType valley (linesOf (Part002.column scenario 1)) = 2%nat)
  /\
  (List.length (segmentsOf (MathEngine.column scenario 0)) = 3%nat
   /\ List.length (segmentsOf (MathEngine.column scenario 2)) = 3%nat
   /\ List.length (segmentsOf (MathEngine.column scenario 1)) = (2 + 2 * 2)%nat
   /\ MathEngine.numSteps scenario 1 = 2%nat
   /\ filter isCut (MathEngine.g_blueprintLines (MathEngine.generateKirigamiGeometry scenario))
      = [mkLine (MathEngine.xLeft scenario 1) (-50) (MathEngine.xLeft scenario 1) 50 cut;
         mkLine (MathEngine.xRight scenario 1) (-50) (MathEngine.xRight scenario 1) 50 cut]
   /\ countType mountain
        (MathEngine.g_blueprintLines (MathEngine.generateKirigamiGeometry scenario)) = 2%nat
   /\ countType valley (linesOf (MathEngine.column scenario 1)) = 3%nat).
Proof.
  intros H. split.
  - unfold scenarioClaim. rewrite Part002_blueprint.
    repeat match goal with |- _ /\ _ => split end;
      try (exists (- height (paperSize scenario) / 2), (Part002.halfHeight scenario));
      try reflexivity;
      try (evaluate_with H; first [reflexivity | lia]).
  - rewrite MathEngine_blueprint.
    repeat match goal with |- _ /\ _ => split end;
      cbv - [Math_sin Math_cos]; reflexivity.
Qed.

Lemma scenario_columns_and_blueprint_witness :
  @trigAtScenario exampleRuntime
  /\ countType mountain
       (Part002.g_blueprintLines (@Part002.generateKirigamiGeometry exampleRuntime scenario))
     = 1%nat.
Proof.
  split; [exact exampleRuntime_trig|].
  destruct (@scenario_columns_and_blueprint exampleRuntime exampleRuntime_trig)
    as [[(_ & _ & _ & _ & Hm & _) _] _].
  exact Hm.
Defined.

(** C2 fails as stated on [mathEngine.ts]: three segments in column 0. *)
Lemma MathEngine_scenario_differs :
  ~ scenarioClaim (@MathEngine.column exampleRuntime scenario)
      (MathEngine.g_blueprintLines (@MathEngine.generateKirigamiGeometry exampleRuntime scenario))
      (MathEngine.xLeft scenario 1) (MathEngine.xRight scenario 1).
Proof.
  intros (H & _). vm_compute in H. discriminate H.
Qed.

(* ================================================================== *)
(** ** The blueprint *)





(* ================================================================== *)
(** ** The arrays *)

(** C8.  [pushQuad] tests the first coordinate of the first vertex and of
    the normal only: a quad with NaN or an infinity in any other
    coordinate is appended, and both generators return NaN positions for
    a NaN amplitude. *)
Theorem pushQuad_keeps_non_finite_coordinates :
  existsb isNaN
    (positions (pushQuad noBuffers (vec3 0 nan 0) (vec3 1 0 0) (vec3 1 1 0)
                  (vec3 0 1 0) (vec3 0 0 1))) = true
  /\ existsb is_infinity
       (normals (pushQuad noBuffers (vec3 0 0 0) (vec3 1 0 0) (vec3 1 1 0)
                   (vec3 0 1 0) (vec3 0 infinity 0))) = true
  /\ existsb isNaN
       (MathEngine.g_positions
          (@MathEngine.generateKirigamiGeometry exampleRuntime (withAmplitude nan scenario)))
     = true
  /\ existsb isNaN
       (Part002.g_positions
          (@Part002.generateKirigamiGeometry exampleRuntime (withAmplitude nan scenario)))
     = true.
Proof. repeat split; vm_compute; reflexivity. Qed.

(** C9.  The statistics of [part_002]: [polyCount] is the number of
    triangles, [indices.length / 3] with nothing left over;
    [totalCutLength] is the sum of the Euclidean lengths of the cut lines
    and [totalFoldLength] that of the mountain and valley lines. *)
Theorem stats_agree_with_output {rt : Runtime} (st : AppState) :
  powSquares ->
  let g := Part002.generateKirigamiGeometry st in
  (3 * Part002.polyCount (Part002.stats g))%nat = List.length (Part002.g_indices g)
  /\ Part002.polyCount (Part002.stats g) = (List.length (Part002.g_indices g) / 3)%nat
  /\ Part002.totalCutLength (Part002.stats g) = sumLengths isCut (Part002.g_blueprintLines g)
  /\ Part002.totalFoldLength (Part002.stats g) = sumLengths isFold (Part002.g_blueprintLines g).
Proof.
  intros Hpow. cbv zeta. unfold Part002.generateKirigamiGeometry.
  rewrite accumulate_sums.
  cbn [Part002.stats Part002.polyCount Part002.totalCutLength Part002.totalFoldLength
       Part002.g_indices Part002.g_blueprintLines].
  unfold sumLengths. rewrite !(fold_left_lengths _ Hpow).
  repeat split.
  pose proof (@Part002_execute_wf st (Part002.columns st)
                {| buf := noBuffers; blueprintLines := [] |}
                (ex_intro _ 0%nat quads_empty)) as (k & _ & _ & Hi & _).
  rewrite Hi. replace (6 * k)%nat with (2 * k * 3)%nat by lia.
  rewrite Nat.div_mul; lia.
Qed.

Lemma stats_agree_with_output_witness :
  @powSquares exampleRuntime
  /\ Part002.totalCutLength
       (Part002.stats (@Part002.generateKirigamiGeometry exampleRuntime scenario))
     = sumLengths isCut
         (Part002.g_blueprintLines (@Part002.generateKirigamiGeometry exampleRuntime scenario)).
Proof.
  split; [exact exampleRuntime_powSquares|].
  destruct (@stats_agree_with_output exampleRuntime scenario exampleRuntime_powSquares)
    as (_ & _ & H & _).
  exact H.
Defined.


(* ================================================================== *)
(** ** The arrays, quad by quad *)

Section QuadFacts.

Lemma madeOf_empty : madeOf [] noBuffers.
Proof. repeat split. apply Forall_nil. Qed.

Lemma madeOf_length (qs : list Quad) (b : Buffers) :
  madeOf qs b -> List.length (positions b) = (12 * List.length qs)%nat.
Proof.
  intros (Hp & _). rewrite Hp. clear Hp.
  induction qs as [|q qs IH]; [reflexivity|].
  cbn [flat_map]. rewrite length_app, IH. cbn [List.length quadPositions]. lia.
Qed.

Lemma grows_refl (qs : list Quad) (k : nat) (b : Buffers) : madeOf qs b -> grows qs k b.
Proof. intros H. exists []. rewrite app_nil_r. split; [exact H|cbn; lia]. Qed.

(** [pushQuad] drops the quad or appends it whole, as the quad number
    [qs.length]. *)
Lemma pushQuad_madeOf (qs : list Quad) (b : Buffers) (v0 v1 v2 v3 n : Vector3) :
  madeOf qs b -> grows qs 1 (pushQuad b v0 v1 v2 v3 n).
Proof.
  intros H. pose proof (madeOf_length H) as Hlen.
  destruct H as (Hp & Hn & Hi & Hg). unfold pushQuad.
  destruct (isNaN (vx v0) || isNaN (vx n)) eqn:E.
  - apply grows_refl. repeat split; assumption.
  - apply orb_false_elim in E. destruct E as [E0 En].
    exists [ {| q0 := v0; q1 := v1; q2 := v2; q3 := v3; qn := n |} ].
    split; [|cbn; lia]. unfold madeOf. cbn [positions normals indices].
    rewrite !flat_map_app, length_app. cbn [List.length].
    rewrite seq_app, flat_map_app. cbn [seq flat_map]. rewrite !app_nil_r.
    rewrite Hlen.
    replace (12 * List.length qs / 3)%nat with (4 * List.length qs)%nat.
    2:{ replace (12 * List.length qs)%nat with (4 * List.length qs * 3)%nat by lia.
        rewrite Nat.div_mul by lia. reflexivity. }
    split; [rewrite Hp; reflexivity|]. split; [rewrite Hn; reflexivity|].
    split; [rewrite Hi; reflexivity|].
    apply Forall_app. split; [exact Hg|].
    apply Forall_cons; [split; assumption|apply Forall_nil].
Qed.

Lemma grows_pushQuad (qs : list Quad) (k : nat) (b : Buffers) (v0 v1 v2 v3 n : Vector3) :
  grows qs k b -> grows qs (S k) (pushQuad b v0 v1 v2 v3 n).
Proof.
  intros (qa & Ha & La).
  destruct (pushQuad_madeOf v0 v1 v2 v3 n Ha) as (qb & Hb & Lb).
  exists (qa ++ qb). rewrite app_assoc. split; [exact Hb|rewrite length_app; lia].
Qed.

Ltac grow :=
  repeat match goal with
  | |- grows _ _ (if ?c then _ else _) => destruct c
  | |- grows _ (S _) (pushQuad _ _ _ _ _ _) => apply grows_pushQuad
  | H : madeOf ?qs ?b |- grows ?qs _ ?b => exact (grows_refl _ H)
  end.

Lemma Part002_segment_madeOf (qs : list Quad) (b : Buffers) (v0 v1 v2 v3 n : Vector3)
    (th : float) (l r : bool) :
  madeOf qs b -> grows qs 4 (Part002.pushVolumetricSegment b v0 v1 v2 v3 n th l r).
Proof. intros H. unfold Part002.pushVolumetricSegment. cbv zeta. grow. Qed.

Lemma MathEngine_segment_madeOf (qs : list Quad) (b : Buffers) (v0 v1 v2 v3 n : Vector3)
    (th : float) (l r : bool) :
  madeOf qs b -> grows qs 4 (MathEngine.pushVolumetricSegment b v0 v1 v2 v3 n th l r).
Proof. intros H. unfold MathEngine.pushVolumetricSegment. cbv zeta. grow. Qed.

Lemma Part002_execute_madeOf (st : AppState) (es : list Emit) :
  forall (qs : list Quad) (a : Acc),
  madeOf qs (buf a) ->
  grows qs (4 * List.length (segmentsOf es)) (buf (Part002.execute st es a)).
Proof.
  unfold Part002.execute.
  induction es as [|e es IH]; intros qs a H; [apply grows_refl; exact H|].
  cbn [fold_left]. destruct e as [v0 v1 v2 v3 n|l].
  - cbn [segmentsOf filter isSegment List.length Part002.perform].
    destruct (Part002_segment_madeOf v0 v1 v2 v3 n (Part002.thickness st) true true H)
      as (qa & Ha & La).
    destruct (IH (qs ++ qa) (Part002.perform st a (Segment v0 v1 v2 v3 n)) Ha)
      as (qb & Hb & Lb).
    exists (qa ++ qb). rewrite app_assoc. split; [exact Hb|].
    rewrite length_app. fold (segmentsOf es). lia.
  - cbn [segmentsOf filter isSegment Part002.perform]. apply IH. exact H.
Qed.

Lemma MathEngine_execute_madeOf (st : AppState) (es : list Emit) :
  forall (qs : list Quad) (a : Acc),
  madeOf qs (buf a) ->
  grows qs (4 * List.length (segmentsOf es)) (buf (MathEngine.execute st es a)).
Proof.
  unfold MathEngine.execute.
  induction es as [|e es IH]; intros qs a H; [apply grows_refl; exact H|].
  cbn [fold_left]. destruct e as [v0 v1 v2 v3 n|l].
  - cbn [segmentsOf filter isSegment List.length MathEngine.perform].
    destruct (MathEngine_segment_madeOf v0 v1 v2 v3 n (MathEngine.thickness st) true true H)
      as (qa & Ha & La).
    destruct (IH (qs ++ qa) (MathEngine.perform st a (Segment v0 v1 v2 v3 n)) Ha)
      as (qb & Hb & Lb).
    exists (qa ++ qb). rewrite app_assoc. split; [exact Hb|].
    rewrite length_app. fold (segmentsOf es). lia.
  - cbn [segmentsOf filter isSegment MathEngine.perform]. apply IH. exact H.
Qed.

Lemma flat_map_length_const (A B : Type) (f : A -> list B) (k : nat) (l : list A) :
  (forall a, List.length (f a) = k) -> List.length (flat_map f l) = (k * List.length l)%nat.
Proof.
  intros H. induction l as [|a l IH]; cbn [flat_map List.length]; [lia|].
  rewrite length_app, H, IH. lia.
Qed.

End QuadFacts.


(* ================================================================== *)
(** ** The lines of a column *)

Section LineFacts.
Context {rt : Runtime}.

Lemma Part002_stepLoop_lines (st : AppState) (c n : nat) :
  forall i pos y l,
  In l (linesOf (fst (fst (Part002.stepLoop st c n i pos y)))) ->
  (type l = valley \/ type l = mountain)
  /\ x1 l = Part002.xLeft st c /\ x2 l = Part002.xRight st c /\ y1 l = y2 l.
Proof.
  induction n as [|n IH]; intros i pos y l; [intros []|].
  rewrite Part002_stepLoop_S. cbv zeta. cbn [fst snd].
  rewrite linesOf_app, in_app_iff. intros [H|H]; [|eapply IH; exact H].
  revert H. unfold Part002.stepBody. cbv zeta. cbn [fst snd].
  rewrite !linesOf_app.
  repeat match goal with |- context [if ?b then _ else _] => destruct b end;
    cbn; intros H; repeat (destruct H as [<-|H]; [cbn; auto|]); contradiction.
Qed.

Lemma MathEngine_stepLoop_lines (st : AppState) (c n : nat) :
  forall i pos y l,
  In l (linesOf (fst (fst (MathEngine.stepLoop st c n i pos y)))) ->
  (type l = valley \/ type l = mountain)
  /\ x1 l = MathEngine.xLeft st c /\ x2 l = MathEngine.xRight st c /\ y1 l = y2 l.
Proof.
  induction n as [|n IH]; intros i pos y l; [intros []|].
  rewrite MathEngine_stepLoop_S. cbv zeta. cbn [fst snd].
  rewrite linesOf_app, in_app_iff. intros [H|H]; [|eapply IH; exact H].
  revert H. unfold MathEngine.stepBody. cbv zeta. cbn [fst snd].
  rewrite !linesOf_app.
  repeat match goal with |- context [if ?b then _ else _] => destruct b end;
    cbn; intros H; repeat (destruct H as [<-|H]; [cbn; auto|]); contradiction.
Qed.

Lemma fold_lineOfColumn (xL xR : float) (l : BlueprintLine) :
  (type l = valley \/ type l = mountain) /\ x1 l = xL /\ x2 l = xR /\ y1 l = y2 l ->
  lineOfColumn xL xR l /\ type l <> spine.
Proof.
  intros ([E|E] & H). all: unfold lineOfColumn; rewrite E; split; [exact H|discriminate].
Qed.

Lemma Part002_column_lines (st : AppState) (c : nat) (l : BlueprintLine) :
  In l (linesOf (Part002.column st c)) ->
  lineOfColumn (Part002.xLeft st c) (Part002.xRight st c) l
  /\ (type l = spine -> Nat.odd c = false).
Proof.
  unfold Part002.column, Part002.isPopup.
  destruct (Nat.odd c); cbn [negb].
  2:{ cbn. intros H.
      repeat (destruct H as [<-|H];
              [split; [unfold lineOfColumn, verticalAt; cbn; auto|reflexivity]|]).
      contradiction. }
  destruct (Part002.profileRadius st c <? 1).
  { cbn. intros H.
    repeat (destruct H as [<-|H];
            [split; [unfold lineOfColumn, verticalAt; cbn; auto|discriminate]|]).
    contradiction. }
  unfold Part002.activeColumn. cbv zeta.
  pose proof (@Part002_stepLoop_lines st c (Part002.stepsN st) 0
                (vec3 0 (- Part002.profileRadius st c) 0)
                (- Part002.profileRadius st c) l) as Hfolds.
  destruct (Part002.stepLoop st _ _ _ _ _) as [[es q] y']. cbn [fst] in Hfolds.
  rewrite !linesOf_app, !in_app_iff. cbn.
  intros [[<-|[<-|[]]]|[H|[]]].
  - split; [unfold lineOfColumn, verticalAt; cbn; auto|discriminate].
  - split; [unfold lineOfColumn, verticalAt; cbn; auto|discriminate].
  - destruct (@fold_lineOfColumn _ _ _ (Hfolds H)) as [Hs Hn]. split; [exact Hs|]. intros E. contradiction.
Qed.

Lemma MathEngine_column_lines (st : AppState) (c : nat) (l : BlueprintLine) :
  In l (linesOf (MathEngine.column st c)) ->
  lineOfColumn (MathEngine.xLeft st c) (MathEngine.xRight st c) l /\ type l <> spine.
Proof.
  unfold MathEngine.column. rewrite linesOf_app. cbn [MathEngine.frames linesOf flat_map app].
  destruct (MathEngine.isFlat st c); cbn [negb].
  { cbn. intros H.
    repeat (destruct H as [<-|H];
            [split; [unfold lineOfColumn; cbn; auto|discriminate]|]).
    contradiction. }
  unfold MathEngine.strip. cbv zeta.
  pose proof (@MathEngine_stepLoop_lines st c (MathEngine.numSteps st c) 0
                (vec3 0 (MathEngine.yAnchorFloor st c) 0)
                (MathEngine.yAnchorFloor st c) l) as Hfolds.
  destruct (MathEngine.stepLoop st _ _ _ _ _) as [[es q] y']. cbn [fst] in Hfolds.
  rewrite !linesOf_app, !in_app_iff. cbn.
  intros [[<-|[<-|[<-|[]]]]|[H|[<-|[]]]].
  - split; [unfold lineOfColumn, verticalAt; cbn; auto|discriminate].
  - split; [unfold lineOfColumn, verticalAt; cbn; auto|discriminate].
  - split; [unfold lineOfColumn; cbn; auto|discriminate].
  - exact (@fold_lineOfColumn _ _ _ (Hfolds H)).
  - split; [unfold lineOfColumn; cbn; auto|discriminate].
Qed.

End LineFacts.


(* ================================================================== *)
(** ** The extents of the cut lines *)



(* ================================================================== *)
(** ** Counting the segments and the folds of a column *)

Section CountFacts.
Context {rt : Runtime}.

Lemma segmentsOf_app (es es' : list Emit) :
  segmentsOf (es ++ es') = segmentsOf es ++ segmentsOf es'.
Proof. unfold segmentsOf. apply filter_app. Qed.

Lemma countType_app (t : LineType) (ls ls' : list BlueprintLine) :
  countType t (ls ++ ls') = (countType t ls + countType t ls')%nat.
Proof. unfold countType. rewrite filter_app, length_app. reflexivity. Qed.

(** The strip loop of [mathEngine.ts] when [n] turns are left: two
    segments and a mountain line a turn, a valley line after every turn
    but the last. *)
Lemma MathEngine_stepLoop_counts (st : AppState) (c n : nat) :
  forall i pos y,
  (i + n = MathEngine.numSteps st c)%nat ->
  let es := fst (fst (MathEngine.stepLoop st c n i pos y)) in
  List.length (segmentsOf es) = (2 * n)%nat
  /\ countType mountain (linesOf es) = n
  /\ countType valley (linesOf es) = (n - 1)%nat
  /\ countType cut (linesOf es) = 0%nat.
Proof.
  induction n as [|n IH]; intros i pos y Hi; [repeat split|].
  rewrite MathEngine_stepLoop_S. cbv zeta. cbn [fst snd].
  rewrite segmentsOf_app, linesOf_app, !countType_app, length_app.
  destruct (IH (S i) (snd (fst (MathEngine.stepBody st c i pos y)))
              (snd (MathEngine.stepBody st c i pos y)) ltac:(lia)) as (Hs & Hm & Hv & Hc).
  cbv zeta in Hs, Hm, Hv, Hc. rewrite Hs, Hm, Hv, Hc.
  unfold MathEngine.stepBody. cbv zeta. cbn [fst snd].
  destruct (i <? MathEngine.numSteps st c - 1)%nat eqn:E.
  - apply Nat.ltb_lt in E. cbn. repeat split; lia.
  - apply Nat.ltb_ge in E. cbn. repeat split; lia.
Qed.

(** The loop of [part_002] when [n] turns are left: two segments a turn,
    at most one valley and one mountain line a turn, and no mountain line
    in a turn where [i < steps - 1] fails. *)
Lemma Part002_stepLoop_counts (st : AppState) (c n : nat) :
  forall i pos y,
  let es := fst (fst (Part002.stepLoop st c n i pos y)) in
  List.length (segmentsOf es) = (2 * n)%nat
  /\ (countType valley (linesOf es) <= n)%nat
  /\ (countType mountain (linesOf es) <= n)%nat
  /\ countType cut (linesOf es) = 0%nat
  /\ countType spine (linesOf es) = 0%nat
  /\ ((of_nat (i + n - 1) <? Part002.stepsF st - 1) = false ->
      (countType mountain (linesOf es) <= n - 1)%nat).
Proof.
  induction n as [|n IH]; intros i pos y; [cbn; repeat split; lia|].
  rewrite Part002_stepLoop_S. cbv zeta. cbn [fst snd].
  rewrite segmentsOf_app, linesOf_app, !countType_app, length_app.
  destruct (IH (S i) (snd (fst (Part002.stepBody st c i pos y)))
              (snd (Part002.stepBody st c i pos y))) as (Hs & Hv & Hm & Hc & Hsp & Hlast).
  cbv zeta in Hs, Hv, Hm, Hc, Hsp, Hlast. rewrite Hs, Hc, Hsp.
  replace (S i + n - 1)%nat with (i + S n - 1)%nat in Hlast by lia.
  set (rest := Part002.stepLoop st c n (S i) _ _) in *. clearbody rest.
  unfold Part002.stepBody. cbv zeta. cbn [fst snd].
  rewrite !linesOf_app, !segmentsOf_app, !countType_app, !length_app.
  destruct (of_nat i <? Part002.stepsF st - 1) eqn:Em; cbn [andb];
    repeat match goal with |- context [if ?b then _ else _] => destruct b end.
  all: cbn [linesOf flat_map app segmentsOf filter isSegment countType List.length
            LineType_eqb type mkLine].
  all: (split; [lia|split; [lia|split; [lia|split; [lia|split; [lia|]]]]]).
  all: intros Hstop; specialize (Hlast Hstop); try lia.
  all: destruct n as [|n]; [|lia].
  all: replace (i + 1 - 1)%nat with i in Hstop by lia; congruence.
Qed.

(** On the values the Y-Res control allows, the test [i < steps - 1]
    fails in the last turn. *)
Lemma last_turn_computed :
  forallb (fun r => negb (of_nat (Nat.max 2 r - 1) <? Math_max 2 (of_nat r) - 1)) (seq 0 49)
  = true.
Proof. vm_compute. reflexivity. Qed.

Lemma Part002_last_turn (st : AppState) :
  (rows st <= 48)%nat ->
  (of_nat (0 + Part002.stepsN st - 1) <? Part002.stepsF st - 1) = false.
Proof.
  intros H. pose proof last_turn_computed as Hall.
  rewrite forallb_forall in Hall. specialize (Hall (rows st)).
  unfold Part002.stepsN, Part002.stepsF. cbn [Nat.add].
  apply negb_true_iff, Hall, in_seq. lia.
Qed.

End CountFacts.

(** X4.  A column of [mathEngine.ts] that pops up is built of the two frames
    and [rows] risers and treads; its lines are the two cut lines, one
    mountain line for each riser and the valley lines: one at the foot of
    the strip, one after each tread but the last, one at the end.  A flat
    column is three segments and a single line. *)
Theorem mathEngine_column_counts {rt : Runtime} (st : AppState) (c : nat) :
  (MathEngine.isFlat st c = false ->
   List.length (segmentsOf (MathEngine.column st c)) = (2 + 2 * rows st)%nat
   /\ countType cut (linesOf (MathEngine.column st c)) = 2%nat
   /\ countType mountain (linesOf (MathEngine.column st c)) = rows st
   /\ countType valley (linesOf (MathEngine.column st c)) = (2 + (rows st - 1))%nat
   /\ List.length (linesOf (MathEngine.column st c)) = (4 + rows st + (rows st - 1))%nat)
  /\
  (MathEngine.isFlat st c = true ->
   List.length (segmentsOf (MathEngine.column st c)) = 3%nat
   /\ List.length (linesOf (MathEngine.column st c)) = 1%nat).
Proof.
  split; intros Hflat; unfold MathEngine.column; rewrite Hflat; cbn [negb];
    [|split; reflexivity].
  rewrite segmentsOf_app, linesOf_app, !countType_app, !length_app.
  unfold MathEngine.strip. cbv zeta.
  assert (Hn : MathEngine.numSteps st c = rows st).
  { unfold MathEngine.numSteps. rewrite Hflat. reflexivity. }
  pose proof (@MathEngine_stepLoop_counts rt st c (MathEngine.numSteps st c) 0
                (vec3 0 (MathEngine.yAnchorFloor st c) 0)
                (MathEngine.yAnchorFloor st c) eq_refl) as (Hs & Hm & Hv & Hc).
  cbv zeta in Hs, Hm, Hv, Hc.
  pose proof (@MathEngine_stepLoop_lines rt st c (MathEngine.numSteps st c) 0
                (vec3 0 (MathEngine.yAnchorFloor st c) 0)
                (MathEngine.yAnchorFloor st c)) as Hfolds.
  destruct (MathEngine.stepLoop st _ _ _ _ _) as [[es q] y']. cbn [fst] in *.
  rewrite Hn in *.
  rewrite !segmentsOf_app, !linesOf_app, !countType_app, !length_app, Hs, Hm, Hv, Hc.
  assert (Hlen : List.length (linesOf es) = (rows st + (rows st - 1))%nat).
  { transitivity (countType mountain (linesOf es) + countType valley (linesOf es))%nat;
      [|rewrite Hm, Hv; reflexivity].
    clear - Hfolds. unfold countType.
    induction (linesOf es) as [|l ls IH]; [reflexivity|].
    cbn [filter List.length].
    assert (IH' := IH (fun l' H' => Hfolds l' (or_intror H'))).
    destruct (Hfolds l (or_introl eq_refl)) as [[E|E] _]; rewrite E; cbn; lia. }
  rewrite Hlen. cbn. repeat split; lia.
Qed.

Lemma mathEngine_column_counts_witness :
  @MathEngine.isFlat exampleRuntime scenario 1 = false
  /\ countType mountain (linesOf (@MathEngine.column exampleRuntime scenario 1)) = 2%nat.
Proof.
  assert (H : @MathEngine.isFlat exampleRuntime scenario 1 = false) by (vm_compute; reflexivity).
  split; [exact H|].
  destruct (@mathEngine_column_counts exampleRuntime scenario 1%nat) as [Hup _].
  destruct (Hup H) as (_ & _ & Hm & _). exact Hm.
Defined.

(** X5.  A column of [part_002] that pops up is built of the two margins and
    [steps = max(2, rows)] treads and risers, six segments at least; its
    lines are the two cut lines, at most one valley line a step and, for
    the rows the Y-Res control allows, at most [steps - 1] mountain lines:
    none after the last riser.  A fixed column is two segments, four spine
    lines and a valley line. *)
Theorem part002_column_counts {rt : Runtime} (st : AppState) (c : nat) :
  (Nat.odd c = true -> (Part002.profileRadius st c <? 1) = false ->
   List.length (segmentsOf (Part002.column st c)) = (2 + 2 * Nat.max 2 (rows st))%nat
   /\ countType cut (linesOf (Part002.column st c)) = 2%nat
   /\ countType spine (linesOf (Part002.column st c)) = 0%nat
   /\ (countType valley (linesOf (Part002.column st c)) <= Nat.max 2 (rows st))%nat
   /\ ((rows st <= 48)%nat ->
       (countType mountain (linesOf (Part002.column st c)) <= Nat.max 2 (rows st) - 1)%nat))
  /\
  (Nat.odd c = false ->
   List.length (segmentsOf (Part002.column st c)) = 2%nat
   /\ map type (linesOf (Part002.column st c)) = [spine; spine; valley; spine; spine]).
Proof.
  unfold Part002.column, Part002.isPopup. split.
  2:{ intros ->. split; reflexivity. }
  intros -> ->. cbn [negb].
  unfold Part002.activeColumn. cbv zeta.
  pose proof (@Part002_stepLoop_counts rt st c (Part002.stepsN st) 0
                (vec3 0 (- Part002.profileRadius st c) 0)
                (- Part002.profileRadius st c)) as (Hs & Hv & Hm & Hc & Hsp & Hlast).
  cbv zeta in Hs, Hv, Hm, Hc, Hsp, Hlast.
  destruct (Part002.stepLoop st _ _ _ _ _) as [[es q] y']. cbn [fst] in *.
  rewrite !segmentsOf_app, !linesOf_app, !countType_app, !length_app, Hs, Hc, Hsp.
  change (Part002.stepsN st) with (Nat.max 2 (rows st)) in *.
  cbn [linesOf flat_map app segmentsOf filter isSegment countType List.length
       LineType_eqb type mkLine].
  split; [lia|]. split; [lia|]. split; [lia|]. split; [lia|].
  intros Hrows. specialize (Hlast (Part002_last_turn st Hrows)). lia.
Qed.

Lemma part002_column_counts_witness :
  Nat.odd 1 = true /\ (@Part002.profileRadius exampleRuntime scenario 1 <? 1) = false
  /\ List.length (segmentsOf (@Part002.column exampleRuntime scenario 1)) = 6%nat.
Proof.
  assert (H : (@Part002.profileRadius exampleRuntime scenario 1 <? 1) = false)
    by (vm_compute; reflexivity).
  split; [reflexivity|]. split; [exact H|].
  destruct (@part002_column_counts exampleRuntime scenario 1%nat) as [Hup _].
  destruct (Hup eq_refl H) as (Hs & _). exact Hs.
Defined.

(* ================================================================== *)
(** ** The strips are bands without gaps *)

Section BandFacts.
Context {rt : Runtime}.

Lemma band_app (xL xR : float) (ns : list Vector3) (es es' : list Emit) :
  forall a b c : float * float,
  band xL xR ns a es b -> band xL xR ns b es' c -> band xL xR ns a (es ++ es') c.
Proof.
  induction es as [|e es IH]; intros a b c H H'; cbn [app band] in *.
  - rewrite H. exact H'.
  - destruct e as [v0 v1 v2 v3 n|l].
    + destruct H as (H0 & H1 & H2 & H3 & H4 & H5 & H6 & H).
      repeat (split; [assumption|]). exact (IH _ _ _ H H').
    + exact (IH _ _ _ H H').
Qed.

Lemma Part002_stepLoop_band (st : AppState) (c n : nat) :
  forall i pos y,
  band (Part002.xLeft st c) (Part002.xRight st c) [Part002.normFloor; Part002.normWall st]
       (vy pos, vz pos)
       (fst (fst (Part002.stepLoop st c n i pos y)))
       (vy (snd (fst (Part002.stepLoop st c n i pos y))),
        vz (snd (fst (Part002.stepLoop st c n i pos y)))).
Proof.
  induction n as [|n IH]; intros i pos y; [reflexivity|].
  rewrite Part002_stepLoop_S. cbv zeta. cbn [fst snd].
  eapply band_app; [|apply IH].
  unfold Part002.stepBody. cbv zeta. cbn [fst snd].
  repeat match goal with |- context [if ?b then _ else _] => destruct b end;
    cbn [app band fst snd vx vy vz In]; repeat split; auto.
Qed.

Lemma MathEngine_stepLoop_band (st : AppState) (c n : nat) :
  forall i pos y,
  band (MathEngine.xLeft st c) (MathEngine.xRight st c)
       [MathEngine.normTread; MathEngine.normRiser st]
       (vy pos, vz pos)
       (fst (fst (MathEngine.stepLoop st c n i pos y)))
       (vy (snd (fst (MathEngine.stepLoop st c n i pos y))),
        vz (snd (fst (MathEngine.stepLoop st c n i pos y)))).
Proof.
  induction n as [|n IH]; intros i pos y; [reflexivity|].
  rewrite MathEngine_stepLoop_S. cbv zeta. cbn [fst snd].
  eapply band_app; [|apply IH].
  unfold MathEngine.stepBody. cbv zeta. cbn [fst snd].
  repeat match goal with |- context [if ?b then _ else _] => destruct b end;
    cbn [app band fst snd vx vy vz In]; repeat split; auto.
Qed.

End BandFacts.

(** X6.  In [part_002] the segments of every column, fixed or active, form a
    band without gaps from the bottom edge of the sheet to the far end of
    the wall: every segment spans its column from the left extent to the
    right one, starts on the edge where the one before it ended, and
    carries the normal of the floor or that of the wall.  In
    [mathEngine.ts] the floor frame, the flat spacer and the wall frame of
    a flat column form such a band; in a column that pops up the strip
    continues the floor frame without a gap. *)
Theorem strips_are_bands {rt : Runtime} (st : AppState) (c : nat) :
  band (Part002.xLeft st c) (Part002.xRight st c) [Part002.normFloor; Part002.normWall st]
       (- height (paperSize st) / 2, 0)
       (Part002.column st c)
       (vy (Part002.pTop st), vz (Part002.pTop st))
  /\
  exists floorFrame wallFrame,
    MathEngine.frames st c = [floorFrame; wallFrame]
    /\ (MathEngine.isFlat st c = true ->
        band (MathEngine.xLeft st c) (MathEngine.xRight st c)
             [MathEngine.normTread; MathEngine.normRiser st]
             (- height (paperSize st) / 2, 0)
             (floorFrame :: MathEngine.flatSpacer st c ++ [wallFrame])
             (vy (MathEngine.pWallEnd st), vz (MathEngine.pWallEnd st)))
    /\ (MathEngine.isFlat st c = false ->
        exists endPos,
          band (MathEngine.xLeft st c) (MathEngine.xRight st c)
               [MathEngine.normTread; MathEngine.normRiser st]
               (- height (paperSize st) / 2, 0)
               (floorFrame :: MathEngine.strip st c)
               endPos).
Proof.
  split.
  - unfold Part002.column.
    destruct (negb (Part002.isPopup c));
      [cbn [Part002.fixedColumn band fst snd vx vy vz In V3.zero]; repeat split; auto|].
    destruct (Part002.profileRadius st c <? 1);
      [cbn [Part002.negligibleColumn band fst snd vx vy vz In]; repeat split; auto|].
    unfold Part002.activeColumn. cbv zeta.
    pose proof (@Part002_stepLoop_band rt st c (Part002.stepsN st) 0
                  (vec3 0 (- Part002.profileRadius st c) 0)
                  (- Part002.profileRadius st c)) as Hb.
    destruct (Part002.stepLoop st _ _ _ _ _) as [[es q] y']. cbn [fst snd vy vz] in Hb.
    cbn [app band fst snd vx vy vz In]. repeat (split; [auto; fail|]).
    eapply band_app; [exact Hb|]. cbn [band fst snd vx vy vz In]. repeat split; auto.
  - eexists _, _. split; [reflexivity|]. split.
    + intros _. cbn [MathEngine.flatSpacer app band fst snd vx vy vz In].
      repeat split; auto.
    + intros _. unfold MathEngine.strip. cbv zeta.
      pose proof (@MathEngine_stepLoop_band rt st c (MathEngine.numSteps st c) 0
                    (vec3 0 (MathEngine.yAnchorFloor st c) 0)
                    (MathEngine.yAnchorFloor st c)) as Hb.
      destruct (MathEngine.stepLoop st _ _ _ _ _) as [[es q] y']. cbn [fst snd vy vz] in Hb.
      exists (vy q, vz q). cbn [app band fst snd vx vy vz In].
      repeat (split; [auto; fail|]).
      eapply band_app; [exact Hb|]. reflexivity.
Qed.

(* ================================================================== *)
(** ** The sketch profile *)

Lemma sketchIndex_search (pts : list Point) (u : float) :
  forall fuel i : nat,
  (i <= List.length pts - 2)%nat -> (List.length pts - 2 <= fuel + i)%nat ->
  (forall j, (j < i)%nat -> (px (MathEngine.pointAt pts (j + 1)) <? u) = true) ->
  let r := MathEngine.sketchIndex pts u fuel i in
  (r <= List.length pts - 2)%nat
  /\ (forall j, (j < r)%nat -> (px (MathEngine.pointAt pts (j + 1)) <? u) = true)
  /\ (r = (List.length pts - 2)%nat \/ (px (MathEngine.pointAt pts (r + 1)) <? u) = false).
Proof.
  induction fuel as [|fuel IH]; intros i Hi Hfuel Hbelow; cbn [MathEngine.sketchIndex]; cbv zeta.
  - split; [exact Hi|]. split; [exact Hbelow|]. left. lia.
  - destruct (i <? List.length pts - 2)%nat eqn:Elt; cbn [andb].
    + apply Nat.ltb_lt in Elt.
      destruct (px (MathEngine.pointAt pts (i + 1)) <? u) eqn:Eu.
      * apply IH; [lia|lia|]. intros j Hj.
        destruct (Nat.eq_dec j i) as [->|Hne]; [exact Eu|apply Hbelow; lia].
      * split; [exact Hi|]. split; [exact Hbelow|]. right. exact Eu.
    + apply Nat.ltb_ge in Elt. split; [exact Hi|]. split; [exact Hbelow|]. left. lia.
Qed.

(** X7.  The search of the sketch profile, on two points or more: the index it
    stops at, [i], has [pts[i]] and [pts[i+1]] inside the array (so have
    the two neighbours, read only when they exist); every segment before
    it ends to the left of [u], and it is the last segment or does not
    end to the left of [u]. *)
Theorem sketch_search_stays_in_bounds (pts : list Point) (u : float) :
  (2 <= List.length pts)%nat ->
  let i := MathEngine.sketchIndex pts u (List.length pts) 0 in
  (exists p1 p2, nth_error pts i = Some p1 /\ nth_error pts (i + 1) = Some p2
                 /\ MathEngine.pointAt pts i = p1 /\ MathEngine.pointAt pts (i + 1) = p2)
  /\ ((0 <? i)%nat = true -> nth_error pts (i - 1) = Some (MathEngine.pointAt pts (i - 1)))
  /\ ((i <? List.length pts - 2)%nat = true ->
      nth_error pts (i + 2) = Some (MathEngine.pointAt pts (i + 2)))
  /\ (forall j, (j < i)%nat -> (px (MathEngine.pointAt pts (j + 1)) <? u) = true)
  /\ (i = (List.length pts - 2)%nat \/ (px (MathEngine.pointAt pts (i + 1)) <? u) = false).
Proof.
  intros Hlen.
  destruct (@sketchIndex_search pts u (List.length pts) 0) as (Hr & Hbelow & Hstop);
    [lia|lia|intros j Hj; lia|].
  cbv zeta. set (i := MathEngine.sketchIndex pts u (List.length pts) 0) in *.
  assert (Hnth : forall k, (k < List.length pts)%nat ->
                 nth_error pts k = Some (MathEngine.pointAt pts k)).
  { intros k Hk. unfold MathEngine.pointAt. apply nth_error_nth'. exact Hk. }
  split.
  { exists (MathEngine.pointAt pts i), (MathEngine.pointAt pts (i + 1)).
    repeat split; try reflexivity; apply Hnth; lia. }
  split; [intros _; apply Hnth; lia|].
  split; [intros H; apply Nat.ltb_lt in H; apply Hnth; lia|].
  split; assumption.
Qed.

Lemma sketch_search_stays_in_bounds_witness :
  (2 <= List.length (sketchPoints initialState))%nat
  /\ exists p1 p2,
       nth_error (sketchPoints initialState)
         (MathEngine.sketchIndex (sketchPoints initialState) 0.75
            (List.length (sketchPoints initialState)) 0) = Some p1
       /\ nth_error (sketchPoints initialState)
            (MathEngine.sketchIndex (sketchPoints initialState) 0.75
               (List.length (sketchPoints initialState)) 0 + 1) = Some p2
       /\ px p1 = 0.5 /\ px p2 = 1.
Proof.
  assert (H : (2 <= List.length (sketchPoints initialState))%nat) by (cbn; lia).
  split; [exact H|].
  destruct (@sketch_search_stays_in_bounds (sketchPoints initialState) 0.75 H)
    as ((p1 & p2 & H1 & H2 & _) & _).
  exists p1, p2. split; [exact H1|]. split; [exact H2|].
  vm_compute in H1, H2. injection H1 as <-. injection H2 as <-. split; reflexivity.
Defined.

(* ================================================================== *)
(** ** The controls and the fields the profiles read *)

Section FrameFacts.
Context {rt : Runtime}.
Variables s1 s2 : AppState.
Hypothesis Hframe : sameFrame s1 s2.
Hypothesis Hshape : forall c, MathEngine.shapeFactor s1 c = MathEngine.shapeFactor s2 c.

Ltac frame_fields :=
  destruct Hframe as (Hr & Hc & Ha & Hf & Ht & Hp).

Lemma frame_columnAmplitude (c : nat) :
  MathEngine.columnAmplitude s1 c = MathEngine.columnAmplitude s2 c.
Proof.
  frame_fields. unfold MathEngine.columnAmplitude, MathEngine.maxSafe.
  rewrite Hshape, Ha, Hp. reflexivity.
Qed.

Lemma frame_isFlat (c : nat) : MathEngine.isFlat s1 c = MathEngine.isFlat s2 c.
Proof. unfold MathEngine.isFlat. rewrite frame_columnAmplitude. reflexivity. Qed.

Lemma frame_run (c : nat) : MathEngine.run s1 c = MathEngine.run s2 c.
Proof. unfold MathEngine.run. rewrite frame_isFlat, frame_columnAmplitude. reflexivity. Qed.

Lemma frame_rise (c : nat) : MathEngine.rise s1 c = MathEngine.rise s2 c.
Proof. unfold MathEngine.rise. rewrite frame_isFlat, frame_columnAmplitude. reflexivity. Qed.

Lemma frame_numSteps (c : nat) : MathEngine.numSteps s1 c = MathEngine.numSteps s2 c.
Proof. frame_fields. unfold MathEngine.numSteps. rewrite frame_isFlat, Hr. reflexivity. Qed.

Lemma frame_stepRun (c : nat) : MathEngine.stepRun s1 c = MathEngine.stepRun s2 c.
Proof. unfold MathEngine.stepRun. rewrite frame_run, frame_numSteps. reflexivity. Qed.

Lemma frame_stepRise (c : nat) : MathEngine.stepRise s1 c = MathEngine.stepRise s2 c.
Proof. unfold MathEngine.stepRise. rewrite frame_rise, frame_numSteps. reflexivity. Qed.

Lemma frame_xLeft (c : nat) : MathEngine.xLeft s1 c = MathEngine.xLeft s2 c.
Proof.
  frame_fields.
  unfold MathEngine.xLeft, MathEngine.xBase, MathEngine.stripWidth, MathEngine.effectiveWidth.
  rewrite Hp, Hc. reflexivity.
Qed.

Lemma frame_xRight (c : nat) : MathEngine.xRight s1 c = MathEngine.xRight s2 c.
Proof.
  frame_fields.
  unfold MathEngine.xRight, MathEngine.xBase, MathEngine.stripWidth, MathEngine.effectiveWidth.
  rewrite Hp, Hc. reflexivity.
Qed.

Lemma frame_vecRiser : MathEngine.vecRiser s1 = MathEngine.vecRiser s2.
Proof. frame_fields. unfold MathEngine.vecRiser, MathEngine.alpha. rewrite Hf. reflexivity. Qed.

Lemma frame_normRiser : MathEngine.normRiser s1 = MathEngine.normRiser s2.
Proof. frame_fields. unfold MathEngine.normRiser, MathEngine.alpha. rewrite Hf. reflexivity. Qed.

Lemma frame_stepBody (c i : nat) (pos : Vector3) (y : float) :
  MathEngine.stepBody s1 c i pos y = MathEngine.stepBody s2 c i pos y.
Proof.
  unfold MathEngine.stepBody.
  rewrite frame_xLeft, frame_xRight, frame_vecRiser, frame_normRiser, frame_stepRise,
    frame_stepRun, frame_numSteps.
  reflexivity.
Qed.

Lemma frame_stepLoop (c n : nat) :
  forall i pos y, MathEngine.stepLoop s1 c n i pos y = MathEngine.stepLoop s2 c n i pos y.
Proof.
  induction n as [|n IH]; intros i pos y; [reflexivity|].
  rewrite !MathEngine_stepLoop_S. cbv zeta. rewrite frame_stepBody, IH. reflexivity.
Qed.

Lemma frame_column (c : nat) : MathEngine.column s1 c = MathEngine.column s2 c.
Proof.
  unfold MathEngine.column, MathEngine.frames, MathEngine.strip, MathEngine.flatSpacer,
    MathEngine.yAnchorFloor, MathEngine.pWallStart, MathEngine.pWallEnd,
    MathEngine.yPaperBottom.
  rewrite frame_isFlat, frame_xLeft, frame_xRight, frame_vecRiser, frame_normRiser,
    frame_run, frame_rise, frame_numSteps, frame_stepLoop.
  destruct Hframe as (_ & _ & _ & _ & _ & ->). reflexivity.
Qed.

Lemma frame_geometry :
  MathEngine.generateKirigamiGeometry s1 = MathEngine.generateKirigamiGeometry s2.
Proof.
  unfold MathEngine.generateKirigamiGeometry, MathEngine.columns, MathEngine.execute.
  replace (MathEngine.perform s1) with (MathEngine.perform s2).
  2:{ unfold MathEngine.perform, MathEngine.thickness.
      destruct Hframe as (_ & _ & _ & _ & -> & _). reflexivity. }
  replace (flat_map (MathEngine.column s1) (seq 0 (cols s1)))
    with (flat_map (MathEngine.column s2) (seq 0 (cols s2))); [reflexivity|].
  destruct Hframe as (_ & -> & _). apply flat_map_ext. intros c. symmetry. apply frame_column.
Qed.

End FrameFacts.

(** X8.  A slider that is not shown has no effect: for the algorithms other
    than the geometric ones, the geometry of [mathEngine.ts] (mesh and
    blueprint) does not depend on [curvature] and [roughness]; for
    [sketch] and [image], where the Scale slider is not shown either, it
    does not depend on [frequency]. *)
Theorem hidden_sliders_have_no_effect {rt : Runtime} (st : AppState) (k r f : float) :
  (Controls.isGeometric st = false ->
   MathEngine.generateKirigamiGeometry (withCurvature k (withRoughness r st))
   = MathEngine.generateKirigamiGeometry st)
  /\
  (Controls.scaleShown st = false -> algorithm st <> custom ->
   MathEngine.generateKirigamiGeometry (withFrequency f st)
   = MathEngine.generateKirigamiGeometry st).
Proof.
  split.
  - intros Hg. apply frame_geometry; [repeat split|].
    intros c. unfold MathEngine.shapeFactor. destruct (MathEngine.isPopup c); [|reflexivity].
    unfold Controls.isGeometric in Hg. unfold MathEngine.profile.
    change (algorithm (withCurvature k (withRoughness r st))) with (algorithm st).
    destruct (algorithm st); try discriminate Hg; reflexivity.
  - intros Hg Hc. apply frame_geometry; [repeat split|].
    intros c. unfold MathEngine.shapeFactor. destruct (MathEngine.isPopup c); [|reflexivity].
    unfold Controls.scaleShown in Hg. unfold MathEngine.profile.
    change (algorithm (withFrequency f st)) with (algorithm st).
    destruct (algorithm st); try discriminate Hg; try reflexivity. congruence.
Qed.

Lemma hidden_sliders_have_no_effect_witness :
  Controls.isGeometric (withAlgorithm stairs initialState) = false
  /\ @MathEngine.generateKirigamiGeometry exampleRuntime
       (withCurvature 5 (withRoughness 1 (withAlgorithm stairs initialState)))
     = @MathEngine.generateKirigamiGeometry exampleRuntime (withAlgorithm stairs initialState).
Proof.
  split; [reflexivity|].
  exact (proj1 (@hidden_sliders_have_no_effect exampleRuntime
                  (withAlgorithm stairs initialState) 5 1 1) eq_refl).
Defined.

(* ================================================================== *)
(** ** Edge cases of the generators *)

Lemma positive_of_nonneg_nonzero (x : float) :
  (0 <=? x) = true -> is_zero x = false -> (0 <? x) = true.
Proof.
  unfold is_zero. rewrite leb_spec, ltb_spec, FloatAxioms.eqb_spec.
  unfold SFleb, SFltb, SFeqb.
  change (Prim2SF zero) with (S754_zero false). change (Prim2SF 0) with (S754_zero false).
  rewrite (SFcompare_antisym (S754_zero false) (Prim2SF x)).
  destruct (SFcompare (S754_zero false) (Prim2SF x)) as [[]|]; cbn; congruence.
Qed.

Lemma leb_not_nan_r (x y : float) : (x <=? y) = true -> is_nan y = false.
Proof.
  rewrite leb_spec. intros H. destruct (is_nan y) eqn:E; [|reflexivity].
  apply is_nan_Prim2SF in E. rewrite E in H. unfold SFleb in H.
  destruct (Prim2SF x); discriminate H.
Qed.

(** X9.  With no column there is nothing to build: both generators return
    empty arrays and an empty blueprint, and the statistics of [part_002]
    are zero. *)
Theorem no_columns_no_geometry {rt : Runtime} (st : AppState) :
  cols st = 0%nat ->
  MathEngine.generateKirigamiGeometry st
  = {| MathEngine.g_positions := []; MathEngine.g_normals := [];
       MathEngine.g_indices := []; MathEngine.g_blueprintLines := [] |}
  /\ Part002.generateKirigamiGeometry st
     = {| Part002.g_positions := []; Part002.g_normals := [];
          Part002.g_indices := []; Part002.g_blueprintLines := [];
          Part002.stats := {| Part002.totalCutLength := 0; Part002.totalFoldLength := 0;
                              Part002.polyCount := 0 |} |}.
Proof.
  intros H.
  unfold MathEngine.generateKirigamiGeometry, Part002.generateKirigamiGeometry,
    MathEngine.columns, Part002.columns.
  rewrite H. split; reflexivity.
Qed.

Lemma no_columns_no_geometry_witness :
  cols (withGrid 12 0 initialState) = 0%nat
  /\ MathEngine.g_blueprintLines
       (@MathEngine.generateKirigamiGeometry exampleRuntime (withGrid 12 0 initialState)) = [].
Proof.
  split; [reflexivity|].
  rewrite (proj1 (@no_columns_no_geometry exampleRuntime (withGrid 12 0 initialState) eq_refl)).
  reflexivity.
Defined.

(** X10.  The thickness the generators use is [paperThickness || 0.1]: a
    thickness of 0 (or NaN) is replaced by 0.1, so a thickness that is not
    negative always gives a positive one and every segment gets its bottom
    face; with a negative thickness, a segment is its top face alone. *)
Theorem thickness_falls_back (st : AppState) :
  MathEngine.thickness st = Part002.thickness st
  /\ (is_zero (paperThickness st) = true \/ is_nan (paperThickness st) = true ->
      MathEngine.thickness st = 0.1)
  /\ ((0 <=? paperThickness st) = true -> (0 <? MathEngine.thickness st) = true)
  /\ ((paperThickness st <? 0) = true ->
      MathEngine.thickness st = paperThickness st
      /\ forall b v0 v1 v2 v3 n l r,
           MathEngine.pushVolumetricSegment b v0 v1 v2 v3 n (MathEngine.thickness st) l r
           = pushQuad b v0 v1 v2 v3 n
           /\ Part002.pushVolumetricSegment b v0 v1 v2 v3 n (Part002.thickness st) l r
              = pushQuad b v0 v1 v2 v3 n).
Proof.
  unfold MathEngine.thickness, Part002.thickness, or_else, truthy.
  split; [reflexivity|]. split; [|split].
  - intros [H|H]; rewrite H; [reflexivity|]. rewrite orb_true_r. reflexivity.
  - intros H. pose proof (leb_not_nan_r H) as Hn. rewrite Hn, orb_false_r.
    destruct (is_zero (paperThickness st)) eqn:Hz; cbn [negb]; [reflexivity|].
    apply positive_of_nonneg_nonzero; assumption.
  - intros H.
    assert (Hn : is_nan (paperThickness st) = false).
    { destruct (is_nan (paperThickness st)) eqn:E; [|reflexivity].
      rewrite (@ltb_nan_l (paperThickness st) 0 E) in H. discriminate H. }
    assert (Hz : is_zero (paperThickness st) = false).
    { unfold is_zero. rewrite FloatAxioms.eqb_spec. rewrite ltb_spec in H.
      unfold SFltb, SFeqb in *.
      change (Prim2SF zero) with (S754_zero false). change (Prim2SF 0) with (S754_zero false) in H.
      destruct (SFcompare (Prim2SF (paperThickness st)) (S754_zero false)) as [[]|]; congruence. }
    rewrite Hn, Hz. cbn [orb negb]. split; [reflexivity|].
    intros b v0 v1 v2 v3 n l r.
    unfold MathEngine.pushVolumetricSegment, Part002.pushVolumetricSegment. cbv zeta.
    rewrite (ltb_asym H). split; reflexivity.
Qed.

(* ================================================================== *)
(** ** The DXF export *)

Section DxfFacts.
Context {rt : Runtime}.
Variable toFixed : float -> nat -> string.

Lemma groups_entities (ls : list BlueprintLine) (rest : list string) :
  Dxf.groups (flat_map (Dxf.entity toFixed) ls ++ rest)
  = flat_map (Dxf.entityGroups toFixed) ls ++ Dxf.groups rest.
Proof.
  induction ls as [|l ls IH]; [reflexivity|].
  cbn [flat_map]. rewrite <- app_assoc. unfold Dxf.entityGroups at 1, Dxf.entity at 1.
  cbn [app Dxf.groups]. rewrite IH. reflexivity.
Qed.

Lemma groups_content (ls : list BlueprintLine) (rest : list string) :
  Dxf.groups (Dxf.header ++ flat_map (Dxf.entity toFixed) ls ++ rest)
  = Dxf.groups Dxf.header ++ flat_map (Dxf.entityGroups toFixed) ls ++ Dxf.groups rest.
Proof.
  unfold Dxf.header. cbn [app Dxf.groups]. rewrite groups_entities. reflexivity.
Qed.

Lemma declaredLayers_skip (c v : string) (rest : list (string * string)) :
  String.eqb c "  0" && String.eqb v "LAYER" = false ->
  Dxf.declaredLayers ((c, v) :: rest) = Dxf.declaredLayers rest.
Proof.
  intros H. cbn [Dxf.declaredLayers]. destruct rest as [|[c1 v1] rest]; [reflexivity|].
  rewrite H. reflexivity.
Qed.

Lemma declaredLayers_entities (ls : list BlueprintLine) (tail : list (string * string)) :
  Dxf.declaredLayers (flat_map (Dxf.entityGroups toFixed) ls ++ tail) = Dxf.declaredLayers tail.
Proof.
  induction ls as [|l ls IH]; [reflexivity|].
  cbn [flat_map]. rewrite <- app_assoc. unfold Dxf.entityGroups at 1, Dxf.entity at 1.
  cbn [app Dxf.groups].
  rewrite !declaredLayers_skip by reflexivity. exact IH.
Qed.

Lemma entityLayers_entities (ls : list BlueprintLine) :
  Dxf.entityLayers (flat_map (Dxf.entityGroups toFixed) ls) = map (fun l => Dxf.layerOf (type l)) ls.
Proof.
  unfold Dxf.entityLayers.
  induction ls as [|l ls IH]; [reflexivity|].
  cbn [flat_map]. rewrite filter_app, map_app, IH. reflexivity.
Qed.

Lemma lineEntities_entities (ls : list BlueprintLine) :
  List.length (Dxf.lineEntities (flat_map (Dxf.entityGroups toFixed) ls)) = List.length ls.
Proof.
  unfold Dxf.lineEntities.
  induction ls as [|l ls IH]; [reflexivity|].
  cbn [flat_map]. rewrite filter_app, length_app, IH. reflexivity.
Qed.

Lemma layerOf_declared (t : LineType) :
  In (Dxf.layerOf t) ["CUT"; "MOUNTAIN"; "VALLEY"; "OUTLINE"]%string.
Proof. destruct t; cbn; auto. Qed.

End DxfFacts.


(* ================================================================== *)
(** ** The history of the application state *)

Section HistoryFacts.

Lemma nth_error_tl (A : Type) (l : list A) (n : nat) :
  nth_error (tl l) n = nth_error l (S n).
Proof. destruct l; [destruct n|]; reflexivity. Qed.

Lemma length_tl (A : Type) (l : list A) : List.length (tl l) = (List.length l - 1)%nat.
Proof. destruct l; cbn; lia. Qed.

(** What [commitState] leaves: the index is that of the last entry, which
    is the state committed; the entry before it is the one the index
    pointed to. *)
Lemma commitState_cells (s : App.Store) :
  App.historyOk s ->
  let s' := App.applyCalls (App.commitState s) s in
  App.appState s' = App.appState s
  /\ App.historyOk s'
  /\ (0 < App.historyIndex s')%nat
  /\ nth_error (App.history s') (App.historyIndex s') = Some (App.appState s)
  /\ nth_error (App.history s') (App.historyIndex s' - 1)
     = nth_error (App.history s) (App.historyIndex s).
Proof.
  intros [Hi Hl]. destruct s as [a h i]. cbn [App.historyIndex App.history App.appState] in *.
  unfold App.commitState, App.applyCalls, App.historyOk.
  cbn [fold_left App.applyCall App.historyIndex App.history App.appState].
  assert (Hlen : List.length (firstn (i + 1) h ++ [a]) = (i + 2)%nat).
  { rewrite length_app, length_firstn. cbn [List.length]. lia. }
  destruct (20 <? List.length (firstn (i + 1) h ++ [a]))%nat eqn:E.
  - apply Nat.ltb_lt in E. rewrite Hlen in E.
    rewrite !nth_error_tl, length_tl, Hlen.
    replace (S (i + 2 - 1 - 1)) with (i + 1)%nat by lia.
    replace (S (i + 2 - 1 - 1 - 1)) with i by lia.
    repeat split; try lia.
    + rewrite nth_error_app2 by (rewrite length_firstn; lia).
      rewrite length_firstn. replace (i + 1 - Nat.min (i + 1) (List.length h))%nat with 0%nat by lia.
      reflexivity.
    + rewrite nth_error_app1 by (rewrite length_firstn; lia).
      rewrite nth_error_firstn. replace (i <? i + 1)%nat with true; [reflexivity|].
      symmetry. apply Nat.ltb_lt. lia.
  - apply Nat.ltb_ge in E. rewrite Hlen in *.
    replace (i + 2 - 1)%nat with (i + 1)%nat by lia.
    replace (i + 1 - 1)%nat with i by lia.
    repeat split; try lia.
    + rewrite nth_error_app2 by (rewrite length_firstn; lia).
      rewrite length_firstn. replace (i + 1 - Nat.min (i + 1) (List.length h))%nat with 0%nat by lia.
      reflexivity.
    + rewrite nth_error_app1 by (rewrite length_firstn; lia).
      rewrite nth_error_firstn. replace (i <? i + 1)%nat with true; [reflexivity|].
      symmetry. apply Nat.ltb_lt. lia.
Qed.

End HistoryFacts.

Section HistoryEvents.

Lemma editCommit_cells (s : App.Store) (set : AppState -> AppState) :
  App.historyOk s ->
  let s' := App.applyCalls (App.updateState set ++ App.commitState s) s in
  App.appState s' = set (App.appState s)
  /\ App.historyOk s'
  /\ (0 < App.historyIndex s')%nat
  /\ nth_error (App.history s') (App.historyIndex s') = Some (App.appState s)
  /\ nth_error (App.history s') (App.historyIndex s' - 1)
     = nth_error (App.history s) (App.historyIndex s).
Proof.
  intros H. destruct (commitState_cells H) as (_ & Hok & Hpos & Hlast & Hprev).
  cbv zeta. split; [reflexivity|]. exact (conj Hok (conj Hpos (conj Hlast Hprev))).
Qed.

Lemma undo_cells (s : App.Store) :
  App.historyOk s -> (0 < App.historyIndex s)%nat ->
  exists entry,
    nth_error (App.history s) (App.historyIndex s - 1) = Some entry
    /\ App.step s App.Undo
       = Some {| App.appState := entry; App.history := App.history s;
                 App.historyIndex := (App.historyIndex s - 1)%nat |}.
Proof.
  intros [Hi Hl] Hpos.
  destruct (nth_error (App.history s) (App.historyIndex s - 1)) as [entry|] eqn:E.
  - exists entry. split; [reflexivity|].
    unfold App.step, App.handle, App.undo.
    replace (0 <? App.historyIndex s)%nat with true by (symmetry; apply Nat.ltb_lt; exact Hpos).
    cbv zeta. rewrite E. reflexivity.
  - apply nth_error_None in E. lia.
Qed.

Lemma step_historyOk (s : App.Store) (e : App.Event) :
  App.historyOk s -> exists s', App.step s e = Some s' /\ App.historyOk s'.
Proof.
  intros H. destruct e as [set| |set|].
  - eexists. split; [reflexivity|]. exact H.
  - eexists. split; [reflexivity|]. exact (proj1 (proj2 (commitState_cells H))).
  - eexists. split; [reflexivity|]. exact (proj1 (proj2 (editCommit_cells set H))).
  - destruct (App.historyIndex s) as [|i] eqn:Ei.
    + exists s. split; [|exact H].
      unfold App.step, App.handle, App.undo. rewrite Ei. reflexivity.
    + destruct (@undo_cells s H ltac:(lia)) as (entry & _ & Hs).
      eexists. split; [exact Hs|].
      destruct H as [Hi Hl]. split; cbn [App.history App.historyIndex]; lia.
Qed.

End HistoryEvents.

(** X12.  From the initial cells, whatever the controls do in whatever order,
    every handler finds its entry, the index stays inside the history and
    the history never holds more than twenty entries. *)
Theorem history_stays_bounded (es : list App.Event) :
  exists s, App.run App.initialStore es = Some s /\ App.historyOk s.
Proof.
  assert (H0 : App.historyOk App.initialStore) by (split; cbn; lia).
  revert H0. generalize App.initialStore.
  induction es as [|e es IH]; intros s H.
  - exists s. split; [reflexivity|exact H].
  - destruct (step_historyOk e H) as (s' & Hs & H').
    destruct (IH s' H') as (s'' & Hr & H'').
    exists s''. split; [|exact H'']. cbn [App.run]. rewrite Hs. exact Hr.
Qed.

(** X13.  A commit stores the current state as the last entry and points the
    index at it; an undo right after it brings back the entry the index
    pointed to before the commit, also when the commit dropped the oldest
    entry. *)
Theorem commit_then_undo (s : App.Store) :
  App.historyOk s ->
  exists s1 s2,
    App.run s [App.Commit] = Some s1
    /\ App.appState s1 = App.appState s /\ App.recorded s1
    /\ App.historyIndex s1 = (List.length (App.history s1) - 1)%nat
    /\ App.run s [App.Commit; App.Undo] = Some s2
    /\ nth_error (App.history s) (App.historyIndex s) = Some (App.appState s2)
    /\ App.recorded s2 /\ App.historyOk s2.
Proof.
  intros H.
  destruct (commitState_cells H) as (Happ & Hok & Hpos & Hlast & Hprev).
  set (s1 := App.applyCalls (App.commitState s) s) in *.
  destruct (undo_cells Hok Hpos) as (entry & He & Hs).
  exists s1. eexists. split; [reflexivity|].
  split; [exact Happ|]. split; [unfold App.recorded; rewrite Hlast, Happ; reflexivity|].
  split.
  { subst s1. unfold App.commitState, App.applyCalls. cbn. reflexivity. }
  split.
  { cbn [App.run]. change (App.step s App.Commit) with (Some s1). cbv iota.
    rewrite Hs. reflexivity. }
  cbn [App.appState App.history App.historyIndex App.recorded].
  split; [rewrite <- Hprev; exact He|]. split; [exact He|].
  destruct Hok as [Hi Hl]. split; cbn [App.history App.historyIndex]; lia.
Qed.

Lemma commit_then_undo_witness :
  App.historyOk App.initialStore
  /\ exists s2, App.run App.initialStore [App.Commit; App.Undo] = Some s2
                /\ App.appState s2 = initialState.
Proof.
  assert (H : App.historyOk App.initialStore) by (split; cbn; lia).
  split; [exact H|].
  destruct (commit_then_undo H) as (s1 & s2 & _ & _ & _ & _ & Hr & He & _).
  exists s2. split; [exact Hr|]. cbn in He. congruence.
Defined.

(** X14.  Editing a field, committing and undoing gives back the state from
    before the edit, when that state was the entry at the index. *)
Theorem edit_commit_undo_restores (s : App.Store) (set : AppState -> AppState) :
  App.historyOk s -> App.recorded s ->
  exists s', App.run s [App.Edit set; App.Commit; App.Undo] = Some s'
             /\ App.appState s' = App.appState s
             /\ nth_error (App.history s') (App.historyIndex s' + 1) = Some (set (App.appState s)).
Proof.
  intros H Hrec.
  set (s0 := App.applyCalls (App.updateState set) s).
  assert (H0 : App.historyOk s0) by exact H.
  destruct (commitState_cells H0) as (Happ & Hok & Hpos & Hlast & Hprev).
  set (s1 := App.applyCalls (App.commitState s0) s0) in *.
  destruct (undo_cells Hok Hpos) as (entry & He & Hs).
  eexists. split.
  { cbn [App.run]. change (App.step s (App.Edit set)) with (Some s0).
    cbv iota. change (App.step s0 App.Commit) with (Some s1). cbv iota.
    rewrite Hs. reflexivity. }
  cbn [App.appState App.history App.historyIndex].
  split.
  - rewrite Hprev in He. change (nth_error (App.history s) (App.historyIndex s) = Some entry) in He.
    unfold App.recorded in Hrec. congruence.
  - replace (App.historyIndex s1 - 1 + 1)%nat with (App.historyIndex s1) by lia.
    exact Hlast.
Qed.

Lemma edit_commit_undo_restores_witness :
  App.historyOk App.initialStore /\ App.recorded App.initialStore
  /\ exists s', App.run App.initialStore
                  [App.Edit (withAmplitude 60); App.Commit; App.Undo] = Some s'
                /\ App.appState s' = initialState.
Proof.
  assert (H : App.historyOk App.initialStore) by (split; cbn; lia).
  assert (Hr : App.recorded App.initialStore) by reflexivity.
  split; [exact H|]. split; [exact Hr|].
  destruct (edit_commit_undo_restores (withAmplitude 60) H Hr) as (s' & Hrun & Happ & _).
  exists s'. split; [exact Hrun|exact Happ].
Defined.

(** X15.  A handler that edits and commits at once ([updateState(...);
    commitState()], the algorithm buttons) commits the state of the render
    it was created in: the entry it adds is the state before the edit.
    After two such clicks a single undo brings back the state from before
    both, and the state between them lies above the index. *)
Theorem edit_and_commit_records_previous_state
    (s : App.Store) (f g : AppState -> AppState) :
  App.historyOk s ->
  exists s1 s3,
    App.run s [App.EditCommit f] = Some s1
    /\ App.appState s1 = f (App.appState s)
    /\ nth_error (App.history s1) (App.historyIndex s1) = Some (App.appState s)
    /\ App.run s [App.EditCommit f; App.EditCommit g; App.Undo] = Some s3
    /\ App.appState s3 = App.appState s
    /\ nth_error (App.history s3) (App.historyIndex s3 + 1) = Some (f (App.appState s)).
Proof.
  intros H.
  destruct (editCommit_cells f H) as (Ha1 & Hok1 & Hpos1 & Hlast1 & Hprev1).
  set (s1 := App.applyCalls (App.updateState f ++ App.commitState s) s) in *.
  destruct (editCommit_cells g Hok1) as (Ha2 & Hok2 & Hpos2 & Hlast2 & Hprev2).
  set (s2 := App.applyCalls (App.updateState g ++ App.commitState s1) s1) in *.
  destruct (undo_cells Hok2 Hpos2) as (entry & He & Hs).
  exists s1. eexists.
  split; [reflexivity|]. split; [exact Ha1|]. split; [exact Hlast1|].
  split.
  { cbn [App.run]. change (App.step s (App.EditCommit f)) with (Some s1). cbv iota.
    change (App.step s1 (App.EditCommit g)) with (Some s2). cbv iota.
    rewrite Hs. reflexivity. }
  cbn [App.appState App.history App.historyIndex].
  split.
  - rewrite Hprev2, Hlast1 in He. congruence.
  - replace (App.historyIndex s2 - 1 + 1)%nat with (App.historyIndex s2) by lia.
    rewrite Hlast2, Ha1. reflexivity.
Qed.

Lemma edit_and_commit_records_previous_state_witness :
  App.historyOk App.initialStore
  /\ exists s3, App.run App.initialStore
                  [App.chooseAlgorithm stairs; App.chooseAlgorithm vase; App.Undo] = Some s3
                /\ algorithm (App.appState s3) = sphere.
Proof.
  assert (H : App.historyOk App.initialStore) by (split; cbn; lia).
  split; [exact H|].
  destruct (edit_and_commit_records_previous_state (withAlgorithm stairs) (withAlgorithm vase) H)
    as (s1 & s3 & _ & _ & _ & Hrun & Happ & _).
  exists s3. split; [exact Hrun|]. rewrite Happ. reflexivity.
Defined.

(** X16.  Undoing again and again walks back through the history and stops at
    its first entry: after as many undos as the index says, or more, the
    index is 0, the history is as it was, and the state is the first
    entry. *)
Theorem undo_walks_back_to_the_first_entry (s : App.Store) (more : nat) :
  App.historyOk s -> (0 < App.historyIndex s)%nat ->
  exists s',
    App.run s (repeat App.Undo (App.historyIndex s + more)) = Some s'
    /\ App.historyIndex s' = 0%nat
    /\ App.history s' = App.history s
    /\ nth_error (App.history s) 0 = Some (App.appState s').
Proof.
  intros Hok Hpos.
  assert (Hstay : forall t k, App.historyIndex t = 0%nat ->
                    App.run t (repeat App.Undo k) = Some t).
  { intros t k Ht. induction k as [|k IH]; [reflexivity|].
    cbn [repeat App.run]. unfold App.step, App.handle, App.undo. rewrite Ht. exact IH. }
  remember (App.historyIndex s) as n eqn:En.
  revert s Hok Hpos En. induction n as [|n IH]; intros s Hok Hpos En; [lia|].
  destruct (@undo_cells s Hok ltac:(lia)) as (entry & He & Hs).
  cbn [Nat.add repeat App.run]. rewrite Hs.
  set (t := {| App.appState := entry; App.history := App.history s;
               App.historyIndex := (App.historyIndex s - 1)%nat |}) in *.
  assert (Ht : App.historyIndex t = n) by (cbn; lia).
  destruct n as [|n].
  - exists t. split; [apply Hstay; exact Ht|]. split; [exact Ht|]. split; [reflexivity|].
    cbn [App.appState t]. rewrite <- He. f_equal. lia.
  - destruct (IH t) as (s' & Hr & Hi & Hh & H0).
    + destruct Hok as [Hi Hl]. split; cbn [App.history App.historyIndex t]; lia.
    + lia.
    + symmetry. exact Ht.
    + exists s'. split; [exact Hr|]. split; [exact Hi|]. split; [exact Hh|exact H0].
Qed.

Lemma undo_walks_back_to_the_first_entry_witness :
  exists s s',
    App.run App.initialStore [App.Edit (withAmplitude 60); App.Commit] = Some s
    /\ App.historyOk s /\ (0 < App.historyIndex s)%nat
    /\ App.run s (repeat App.Undo (App.historyIndex s + 3)) = Some s'
    /\ App.appState s' = initialState.
Proof.
  eexists. 
  assert (Hok : App.historyOk (App.applyCalls (App.commitState
                  (App.applyCalls (App.updateState (withAmplitude 60)) App.initialStore))
                  (App.applyCalls (App.updateState (withAmplitude 60)) App.initialStore))).
  { split; cbn; lia. }
  assert (Hpos : (0 < App.historyIndex (App.applyCalls (App.commitState
                  (App.applyCalls (App.updateState (withAmplitude 60)) App.initialStore))
                  (App.applyCalls (App.updateState (withAmplitude 60)) App.initialStore)))%nat).
  { cbn. lia. }
  destruct (undo_walks_back_to_the_first_entry 3 Hok Hpos) as (s' & Hr & _ & _ & H0).
  exists s'. split; [reflexivity|]. split; [exact Hok|]. split; [exact Hpos|].
  split; [exact Hr|]. cbn in H0. congruence.
Defined.

(* ================================================================== *)
(** ** The sketch pad *)

Section SketchFacts.

Lemma nonzero_finite_Prim2SF (x : float) :
  is_finite x = true -> is_zero x = false ->
  exists s m e, Prim2SF x = S754_finite s m e.
Proof.
  intros Hf Hz. apply is_finite_Prim2SF in Hf.
  unfold is_zero in Hz. rewrite FloatAxioms.eqb_spec in Hz.
  change (Prim2SF zero) with (S754_zero false) in Hz.
  destruct (Prim2SF x) as [s|s| |s m e]; cbn in Hf, Hz; try contradiction; try discriminate.
  eauto.
Qed.

(** A number divided by a finite number other than 0 is a number. *)
Lemma div_not_nan (x y : float) :
  is_nan x = false -> is_finite y = true -> is_zero y = false -> is_nan (x / y) = false.
Proof.
  intros Hx Hy Hz. destruct (nonzero_finite_Prim2SF Hy Hz) as (sy & my & ey & Ey).
  apply is_nan_false_Prim2SF. rewrite div_spec.
  apply is_nan_false_Prim2SF in Hx.
  destruct (Prim2SF x) as [sx|sx| |sx mx ex] eqn:Ex; try congruence.
  - rewrite Ey. discriminate.
  - rewrite Ey. discriminate.
  - eapply SFdiv_not_nan; [exact I|exact Ey].
Qed.

Lemma sub_not_nan (x y : float) :
  is_finite x = true -> is_finite y = true -> is_nan (x - y) = false.
Proof.
  intros Hx Hy. apply is_nan_false_Prim2SF. rewrite sub_spec.
  apply SFsub_not_nan; [|apply is_finite_Prim2SF, Hy].
  apply is_finite_Prim2SF in Hx. destruct (Prim2SF x); cbn in Hx; try contradiction; discriminate.
Qed.

Lemma one_minus_not_nan (q : float) : is_nan q = false -> is_nan (1 - q) = false.
Proof.
  rewrite !is_nan_false_Prim2SF, sub_spec. intros Hq.
  replace (Prim2SF 1) with (S754_finite false 4503599627370496 (-52)) by reflexivity.
  destruct (Prim2SF q) as [s|s| |s m e]; try congruence; try discriminate.
  apply binary_normalize_not_nan.
Qed.

Lemma clamp_in01 (v : float) : is_nan v = false -> in01 (Math_max 0 (Math_min 1 v)).
Proof.
  intros Hv. destruct (@Math_min_1 v Hv) as [Hn Hle]. apply Math_max_0; assumption.
Qed.

Lemma in01_not_nan (x : float) : in01 x -> is_nan x = false.
Proof.
  unfold in01. intros H. destruct (is_nan x) eqn:E; [|reflexivity].
  rewrite leb_spec in H. apply is_nan_Prim2SF in E. rewrite E in H. discriminate H.
Qed.

(** A number that is not above 0.01 is below 0.99. *)
Lemma low_then_below (x : float) :
  is_nan x = false -> (0.01 <? x) = false -> (x <? 0.99) = true.
Proof.
  rewrite is_nan_false_Prim2SF, !ltb_spec. unfold SFltb.
  destruct (Prim2SF 0.01) as [sa|sa| |sa ma ea] eqn:Ea; vm_compute in Ea; try discriminate Ea.
  destruct (Prim2SF 0.99) as [sb|sb| |sb mb eb] eqn:Eb; vm_compute in Eb; try discriminate Eb.
  injection Ea as <- <- <-. injection Eb as <- <- <-.
  destruct (Prim2SF x) as [s|s| |s m e]; intros Hn; [| |congruence|]; clear Hn.
  - destruct s; intros _; reflexivity.
  - destruct s; cbn [SFcompare]; intros H; [reflexivity|discriminate H].
  - destruct s; cbn [SFcompare]; [intros _; reflexivity|].
    destruct (Z.compare_spec (-59) e) as [H1|H1|H1];
      destruct (Z.compare_spec e (-53)) as [H2|H2|H2];
      try lia; intros H; first [reflexivity | discriminate H].
Qed.

Lemma last_In (A : Type) (l : list A) (d : A) : l <> [] -> In (List.last l d) l.
Proof.
  induction l as [|a l IH]; [congruence|]. intros _.
  destruct l as [|b l]; [left; reflexivity|].
  right. apply IH. discriminate.
Qed.

Lemma insert_Permutation (a : Point) (l : list Point) :
  Permutation (a :: l) (SketchPad.insert a l).
Proof.
  induction l as [|b l IH]; cbn [SketchPad.insert]; [reflexivity|].
  destruct (0 <? px a - px b); [|reflexivity].
  rewrite perm_swap. apply perm_skip, IH.
Qed.

Lemma sortByX_Permutation (l : list Point) : Permutation l (SketchPad.sortByX l).
Proof.
  induction l as [|a l IH]; cbn [SketchPad.sortByX]; [reflexivity|].
  rewrite <- insert_Permutation. apply perm_skip, IH.
Qed.

End SketchFacts.

(** X17.  [addPoint] on a canvas that has an extent: it gives up only when
    there is a last point, and otherwise appends exactly one point to the
    points it was given; the point lies in the unit square and its abscissa
    is not within 0.005 of that of the last point. *)
Theorem addPoint_appends_one_clamped_point
    (points : list Point) (rect : SketchPad.DOMRect) (e : SketchPad.PointerEvent) :
  SketchPad.onCanvas rect e ->
  match SketchPad.addPoint points rect e with
  | None => exists lastPt, SketchPad.lastPoint points = Some lastPt
  | Some newPoints =>
      exists p, newPoints = points ++ [p]
        /\ SketchPad.unitSquare p
        /\ forall lastPt, SketchPad.lastPoint points = Some lastPt ->
             (Math_abs (px lastPt - px p) <? 0.005) = false
  end.
Proof.
  intros (Hx & Hy & Hl & Ht & Hw & Hh & Hwz & Hhz).
  unfold SketchPad.addPoint. cbv zeta.
  set (x := Math_max 0 (Math_min 1 _)). set (y := Math_max 0 (Math_min 1 _)).
  assert (Hux : in01 x).
  { apply clamp_in01, div_not_nan; try assumption. apply sub_not_nan; assumption. }
  assert (Huy : in01 y).
  { apply clamp_in01, one_minus_not_nan, div_not_nan; try assumption.
    apply sub_not_nan; assumption. }
  destruct (SketchPad.lastPoint points) as [lastPt|].
  - destruct (Math_abs (px lastPt - x) <? 0.005) eqn:E.
    + exists lastPt. reflexivity.
    + eexists. split; [reflexivity|]. split; [split; assumption|].
      intros q Hq. injection Hq as <-. exact E.
  - eexists. split; [reflexivity|]. split; [split; assumption|].
    intros q Hq. discriminate Hq.
Qed.

Lemma addPoint_appends_one_clamped_point_witness :
  SketchPad.onCanvas
    {| SketchPad.left := 10; SketchPad.top := 20; SketchPad.width := 300; SketchPad.height := 160 |}
    {| SketchPad.clientX := 85; SketchPad.clientY := 60 |}
  /\ exists p,
       SketchPad.addPoint (sketchPoints initialState)
         {| SketchPad.left := 10; SketchPad.top := 20;
            SketchPad.width := 300; SketchPad.height := 160 |}
         {| SketchPad.clientX := 85; SketchPad.clientY := 60 |}
       = Some (sketchPoints initialState ++ [p])
       /\ SketchPad.unitSquare p.
Proof.
  assert (H : SketchPad.onCanvas
    {| SketchPad.left := 10; SketchPad.top := 20; SketchPad.width := 300; SketchPad.height := 160 |}
    {| SketchPad.clientX := 85; SketchPad.clientY := 60 |}).
  { unfold SketchPad.onCanvas, finite. cbn. repeat split; reflexivity. }
  split; [exact H|].
  pose proof (addPoint_appends_one_clamped_point (sketchPoints initialState) H) as Hadd.
  destruct (SketchPad.addPoint _ _ _) as [newPoints|] eqn:E.
  - destruct Hadd as (p & -> & Hp & _). exists p. split; [reflexivity|exact Hp].
  - vm_compute in E. discriminate E.
Defined.

(** X18.  [handlePointerUp] loses no point: its result is the points it was
    given, in the order of the sort, with at most one point put in front
    and at most one appended; a point it adds has abscissa 0 or 1 and the
    ordinate of a point that was there.  So points of the unit square stay
    in the unit square; so do the points of [handleReset] and of the
    initial state. *)
Theorem handlePointerUp_keeps_points (points : list Point) :
  (exists pre post,
     SketchPad.handlePointerUp points = pre ++ SketchPad.sortByX points ++ post
     /\ Permutation points (SketchPad.sortByX points)
     /\ (List.length pre <= 1)%nat /\ (List.length post <= 1)%nat
     /\ (forall p, In p pre -> px p = 0 /\ exists q, In q points /\ py p = py q)
     /\ (forall p, In p post -> px p = 1 /\ exists q, In q points /\ py p = py q))
  /\ (Forall SketchPad.unitSquare points ->
      Forall SketchPad.unitSquare (SketchPad.handlePointerUp points))
  /\ Forall SketchPad.unitSquare SketchPad.handleReset
  /\ Forall SketchPad.unitSquare (sketchPoints initialState).
Proof.
  assert (Hshape : exists pre post,
     SketchPad.handlePointerUp points = pre ++ SketchPad.sortByX points ++ post
     /\ Permutation points (SketchPad.sortByX points)
     /\ (List.length pre <= 1)%nat /\ (List.length post <= 1)%nat
     /\ (forall p, In p pre -> px p = 0 /\ exists q, In q points /\ py p = py q)
     /\ (forall p, In p post -> px p = 1 /\ exists q, In q points /\ py p = py q)).
  { pose proof (sortByX_Permutation points) as Hperm.
    unfold SketchPad.handlePointerUp. cbv zeta.
    destruct (SketchPad.sortByX points) as [|first rest] eqn:Es.
    { exists [], []. split; [reflexivity|]. split; [exact Hperm|].
      split; [cbn; lia|]. split; [cbn; lia|]. split; intros p []. }
    assert (Hfirst : In first points).
    { eapply Permutation_in; [symmetry; exact Hperm|left; reflexivity]. }
    set (pre := if 0.01 <? px first then [ {| px := 0; py := py first |} ] else []).
    assert (Epre : (if 0.01 <? px first
                    then {| px := 0; py := py first |} :: first :: rest
                    else first :: rest) = pre ++ first :: rest).
    { subst pre. destruct (0.01 <? px first); reflexivity. }
    rewrite Epre.
    assert (Hpre : forall p, In p pre -> px p = 0 /\ exists q, In q points /\ py p = py q).
    { subst pre. destruct (0.01 <? px first); intros p Hp; [|destruct Hp].
      destruct Hp as [<-|[]]. split; [reflexivity|]. exists first. split; [exact Hfirst|reflexivity]. }
    assert (Hlen : (List.length pre <= 1)%nat).
    { subst pre. destruct (0.01 <? px first); cbn; lia. }
    assert (Hlast : exists q, In q points /\ py (List.last (pre ++ first :: rest) first) = py q).
    { pose proof (@last_In _ (pre ++ first :: rest) first) as Hin.
      destruct (in_app_or _ _ _ (Hin ltac:(destruct pre; discriminate))) as [Hp|Hp].
      - destruct (Hpre _ Hp) as [_ Hq]. exact Hq.
      - eexists. split; [|reflexivity].
        eapply Permutation_in; [symmetry; exact Hperm|exact Hp]. }
    destruct (px (List.last (pre ++ first :: rest) first) <? 0.99).
    - exists pre, [ {| px := 1; py := py (List.last (pre ++ first :: rest) first) |} ].
      rewrite <- app_assoc. split; [reflexivity|]. split; [exact Hperm|].
      split; [exact Hlen|]. split; [cbn; lia|]. split; [exact Hpre|].
      intros p [<-|[]]. split; [reflexivity|exact Hlast].
    - exists pre, []. rewrite app_nil_r. split; [reflexivity|]. split; [exact Hperm|].
      split; [exact Hlen|]. split; [cbn; lia|]. split; [exact Hpre|]. intros p []. }
  split; [exact Hshape|]. split; [|split].
  - intros Hall. destruct Hshape as (pre & post & -> & Hperm & _ & _ & Hpre & Hpost).
    rewrite Forall_forall in *. intros p Hp.
    apply in_app_or in Hp. destruct Hp as [Hp|Hp].
    + destruct (Hpre p Hp) as [Hx (q & Hq & Hy)]. split; [rewrite Hx; reflexivity|].
      rewrite Hy. exact (proj2 (Hall q Hq)).
    + apply in_app_or in Hp. destruct Hp as [Hp|Hp].
      * apply Hall. eapply Permutation_in; [symmetry; exact Hperm|exact Hp].
      * destruct (Hpost p Hp) as [Hx (q & Hq & Hy)]. split; [rewrite Hx; reflexivity|].
        rewrite Hy. exact (proj2 (Hall q Hq)).
  - repeat (apply Forall_cons; [split; reflexivity|]). apply Forall_nil.
  - repeat (apply Forall_cons; [split; reflexivity|]). apply Forall_nil.
Qed.

(** X19.  After a stroke the curve spans the pad: when the abscissas are numbers
    and there is at least one point, [handlePointerUp] returns at least two
    points, the first at 0.01 or to the left of it and the last at 0.99 or
    to the right of it. *)
Theorem handlePointerUp_spans_the_pad (points : list Point) :
  Forall (fun p => is_nan (px p) = false) points -> points <> [] ->
  exists first middle last,
    SketchPad.handlePointerUp points = first :: middle ++ [last]
    /\ (px first <=? 0.01) = true /\ (0.99 <=? px last) = true.
Proof.
  intros Hnum Hne.
  pose proof (sortByX_Permutation points) as Hperm.
  assert (Hsorted : Forall (fun p => is_nan (px p) = false) (SketchPad.sortByX points)).
  { rewrite Forall_forall in *. intros p Hp. apply Hnum.
    eapply Permutation_in; [symmetry; exact Hperm|exact Hp]. }
  unfold SketchPad.handlePointerUp. cbv zeta.
  destruct (SketchPad.sortByX points) as [|first rest] eqn:Es.
  { apply Permutation_sym, Permutation_nil in Hperm. contradiction. }
  assert (Hf : is_nan (px first) = false) by (inversion Hsorted; assumption).
  set (sorted := if 0.01 <? px first then _ else _).
  assert (Hs : exists h t, sorted = h :: t /\ (px h <=? 0.01) = true
                 /\ Forall (fun p => is_nan (px p) = false) sorted
                 /\ (t = [] -> (px h <? 0.99) = true)).
  { subst sorted. destruct (0.01 <? px first) eqn:E.
    - eexists _, _. split; [reflexivity|]. split; [reflexivity|].
      split; [apply Forall_cons; [reflexivity|exact Hsorted]|]. discriminate.
    - exists first, rest. split; [reflexivity|].
      split; [apply not_ltb_leb; [exact Hf|reflexivity|exact E]|].
      split; [exact Hsorted|]. intros _. apply low_then_below; assumption. }
  destruct Hs as (h & t & Eh & Hh & Hall & Hone). rewrite Eh in *. clear Eh sorted.
  assert (Hl : In (List.last (h :: t) first) (h :: t)) by (apply last_In; discriminate).
  assert (Hln : is_nan (px (List.last (h :: t) first)) = false).
  { rewrite Forall_forall in Hall. apply Hall, Hl. }
  destruct (px (List.last (h :: t) first) <? 0.99) eqn:E.
  - exists h, t, {| px := 1; py := py (List.last (h :: t) first) |}.
    split; [reflexivity|]. split; [exact Hh|reflexivity].
  - destruct t as [|b t].
    { cbn in E. rewrite (Hone eq_refl) in E. discriminate E. }
    assert (Hd : b :: t <> []) by discriminate.
    exists h, (removelast (b :: t)), (List.last (b :: t) first).
    split; [f_equal; apply app_removelast_last, Hd|].
    split; [exact Hh|].
    change (List.last (h :: b :: t) first) with (List.last (b :: t) first) in E, Hln.
    apply not_ltb_leb; [reflexivity|exact Hln|exact E].
Qed.

Lemma handlePointerUp_spans_the_pad_witness :
  Forall (fun p => is_nan (px p) = false) [ {| px := 0.5; py := 0.25 |} ]
  /\ [ {| px := 0.5; py := 0.25 |} ] <> []
  /\ exists first middle last,
       SketchPad.handlePointerUp [ {| px := 0.5; py := 0.25 |} ] = first :: middle ++ [last]
       /\ (px first <=? 0.01) = true /\ (0.99 <=? px last) = true.
Proof.
  assert (H1 : Forall (fun p => is_nan (px p) = false) [ {| px := 0.5; py := 0.25 |} ]).
  { apply Forall_cons; [reflexivity|apply Forall_nil]. }
  assert (H2 : [ {| px := 0.5; py := 0.25 |} ] <> []) by discriminate.
  split; [exact H1|]. split; [exact H2|].
  exact (handlePointerUp_spans_the_pad H1 H2).
Defined.

(* ================================================================== *)
(** ** The sign of a difference

    For finite numbers [0 < a - b] holds exactly when [b < a]: the
    difference of two numbers is not rounded to zero. *)

Section SignOfDifference.

Lemma digits2_pos_size (p : positive) : digits2_pos p = Pos.size p.
Proof. induction p as [p IH|p IH|]; cbn; try rewrite IH; reflexivity. Qed.

Lemma digits2_pos_bounds (p : positive) :
  (2 ^ (Z.pos (digits2_pos p) - 1) <= Z.pos p < 2 ^ Z.pos (digits2_pos p))%Z.
Proof.
  rewrite digits2_pos_size.
  pose proof (Pos.size_gt p) as Hgt. pose proof (Pos.size_le p) as Hle.
  apply Pos2Z.pos_lt_pos in Hgt. apply Pos2Z.pos_le_pos in Hle.
  rewrite Pos2Z.inj_pow in Hgt, Hle.
  split; [|exact Hgt].
  replace (Z.pos (Pos.size p)) with (Z.pos (Pos.size p) - 1 + 1)%Z in Hle by lia.
  rewrite Z.pow_add_r in Hle by lia. change (2 ^ 1)%Z with 2%Z in Hle.
  change (Z.pos p~0) with (2 * Z.pos p)%Z in Hle. lia.
Qed.

Lemma shr_1_half (r : shr_record) : (0 <= shr_m r)%Z -> shr_m (shr_1 r) = (shr_m r / 2)%Z.
Proof.
  destruct r as [m b s]. cbn [shr_m]. intros H.
  rewrite <- Z.div2_div.
  destruct m as [|p|p]; [reflexivity| |lia].
  destruct p; reflexivity.
Qed.

Lemma iter_pos_shr_1_div (p : positive) :
  forall r, (0 <= shr_m r)%Z ->
  shr_m (iter_pos shr_1 p r) = (shr_m r / 2 ^ Z.pos p)%Z.
Proof.
  induction p as [p IH|p IH|]; intros r H; cbn [iter_pos].
  - rewrite IH by (apply iter_pos_shr_1_nonneg, shr_1_nonneg, H).
    rewrite IH by (apply shr_1_nonneg, H).
    rewrite shr_1_half by exact H.
    rewrite !Z.div_div by (try apply Z.pow_pos_nonneg; lia).
    f_equal.
    assert (E : Z.pos p~1 = (1 + Z.pos p + Z.pos p)%Z) by lia. rewrite E.
    rewrite !Z.pow_add_r by lia. change (2 ^ 1)%Z with 2%Z. lia.
  - rewrite IH by (apply iter_pos_shr_1_nonneg, H).
    rewrite IH by exact H.
    rewrite !Z.div_div by (try apply Z.pow_pos_nonneg; lia).
    f_equal.
    assert (E : Z.pos p~0 = (Z.pos p + Z.pos p)%Z) by lia. rewrite E.
    rewrite !Z.pow_add_r by lia. reflexivity.
  - rewrite shr_1_half by exact H. reflexivity.
Qed.

Variables prec emax : Z.
Hypothesis Hprec : (0 < prec)%Z.

(** Shifting to the exponent of the format keeps a mantissa positive when
    the exponent is not below the least one. *)
Lemma shr_fexp_pos (m e : Z) (l : location) :
  (0 < m)%Z -> (SpecFloat.emin prec emax <= e)%Z ->
  (0 < shr_m (fst (shr_fexp prec emax m e l)))%Z
  /\ (SpecFloat.emin prec emax <= snd (shr_fexp prec emax m e l))%Z.
Proof.
  intros Hm He. unfold shr_fexp, shr.
  assert (H0 : shr_m (shr_record_of_loc m l) = m) by (destruct l as [|[]]; reflexivity).
  destruct (fexp prec emax (Zdigits2 m + e) - e)%Z as [|q|q] eqn:En; cbn [fst snd];
    try (rewrite H0; split; assumption).
  destruct m as [|p|p]; try lia. cbn [Zdigits2] in En.
  unfold fexp in En. change IntDef.Z.max with Z.max in En.
  rewrite iter_pos_shr_1_div by (rewrite H0; lia). rewrite H0.
  pose proof (digits2_pos_bounds p) as [Hlo _].
  assert (Hq : Z.pos q = (Z.pos (digits2_pos p) - prec)%Z) by lia.
  split; [|lia].
  apply Z.div_str_pos. split; [apply Z.pow_pos_nonneg; lia|].
  etransitivity; [|exact Hlo]. apply Z.pow_le_mono_r; lia.
Qed.

Lemma round_nearest_even_ge (m : Z) (l : location) : (m <= round_nearest_even m l)%Z.
Proof. destruct l as [|[]]; cbn; try lia. destruct (Z.even m); lia. Qed.

(** Rounding a positive mantissa at an exponent that is not below the
    least one gives a finite number other than zero, or an infinity. *)
Lemma binary_round_aux_pos (sx : bool) (m e : Z) (l : location) :
  (0 < m)%Z -> (SpecFloat.emin prec emax <= e)%Z ->
  (exists m' e', binary_round_aux prec emax sx m e l = S754_finite sx m' e')
  \/ binary_round_aux prec emax sx m e l = S754_infinity sx.
Proof.
  intros Hm He. unfold binary_round_aux.
  destruct (shr_fexp_pos l Hm He) as [H1 H1e].
  destruct (shr_fexp prec emax m e l) as [mrs' e']. cbn [fst snd] in H1, H1e.
  pose proof (round_nearest_even_ge (shr_m mrs') (loc_of_shr_record mrs')) as Hr.
  destruct (@shr_fexp_pos (round_nearest_even (shr_m mrs') (loc_of_shr_record mrs'))
              e' loc_Exact ltac:(lia) H1e) as [H2 _].
  destruct (shr_fexp prec emax _ e' loc_Exact) as [mrs'' e'']. cbn [fst] in H2.
  destruct (shr_m mrs'') as [|p|p]; try lia.
  destruct (e'' <=? emax - prec)%Z; [left; eauto|right; reflexivity].
Qed.

Lemma binary_round_pos (sx : bool) (m : positive) (e : Z) :
  (SpecFloat.emin prec emax <= e)%Z ->
  (exists m' e', binary_round prec emax sx m e = S754_finite sx m' e')
  \/ binary_round prec emax sx m e = S754_infinity sx.
Proof.
  intros He. unfold binary_round.
  assert (Hf : (SpecFloat.emin prec emax <= fexp prec emax (Z.pos (digits2_pos m) + e))%Z).
  { unfold fexp. change IntDef.Z.max with Z.max. lia. }
  set (f := fexp prec emax (Z.pos (digits2_pos m) + e)) in *. clearbody f.
  destruct (shl_align m e f) as [mz ez] eqn:Ea.
  apply binary_round_aux_pos; [lia|].
  unfold shl_align in Ea.
  destruct (f - e)%Z; injection Ea as <- <-; lia.
Qed.

Lemma bounded_canonical (m : positive) (e : Z) :
  bounded prec emax m e = true ->
  (SpecFloat.emin prec emax <= e)%Z
  /\ (Z.pos (digits2_pos m) <= prec)%Z
  /\ ((SpecFloat.emin prec emax < e)%Z -> Z.pos (digits2_pos m) = prec).
Proof.
  unfold bounded, canonical_mantissa, fexp. change IntDef.Z.max with Z.max.
  intros H. apply andb_prop in H. destruct H as [H _]. apply Z.eqb_eq in H. lia.
Qed.

Lemma iter_xO_value (m d : positive) : Z.pos (Pos.iter xO m d) = (Z.pos m * 2 ^ Z.pos d)%Z.
Proof.
  induction d as [|d IH] using Pos.peano_ind.
  - cbn [Pos.iter]. change (2 ^ 1)%Z with 2%Z. lia.
  - rewrite Pos.iter_succ, Pos2Z.inj_xO, IH, Pos2Z.inj_succ, Z.pow_succ_r by lia. lia.
Qed.

Lemma shl_align_value (m : positive) (e ez : Z) :
  (ez <= e)%Z -> Z.pos (fst (shl_align m e ez)) = (Z.pos m * 2 ^ (e - ez))%Z.
Proof.
  intros H. unfold shl_align. destruct (ez - e)%Z as [|d|d] eqn:Ed; cbn [fst]; try lia.
  - replace (e - ez)%Z with 0%Z by lia. change (2 ^ 0)%Z with 1%Z. lia.
  - replace (e - ez)%Z with (Z.pos d) by lia. apply iter_xO_value.
Qed.

(** Numbers in canonical form compare by their exponents first. *)
Lemma canonical_compare (m1 : positive) (e1 : Z) (m2 : positive) (e2 : Z) :
  bounded prec emax m1 e1 = true -> bounded prec emax m2 e2 = true ->
  (Z.pos m1 * 2 ^ (e1 - Z.min e1 e2) ?= Z.pos m2 * 2 ^ (e2 - Z.min e1 e2))%Z
  = match (e1 ?= e2)%Z with
    | Eq => Pos.compare m1 m2
    | Lt => Lt
    | Gt => Gt
    end.
Proof.
  intros H1 H2.
  destruct (@bounded_canonical _ _ H1) as (Hmin1 & Hd1 & Hn1).
  destruct (@bounded_canonical _ _ H2) as (Hmin2 & Hd2 & Hn2).
  pose proof (digits2_pos_bounds m1) as [Hlo1 Hhi1].
  pose proof (digits2_pos_bounds m2) as [Hlo2 Hhi2].
  assert (Hstep : forall (ma mb : positive) (k : Z),
            (0 < k)%Z -> (Z.pos (digits2_pos ma) <= prec)%Z -> Z.pos (digits2_pos mb) = prec ->
            (Z.pos ma < Z.pos mb * 2 ^ k)%Z).
  { intros ma mb k Hk Ha Hb.
    pose proof (digits2_pos_bounds ma) as [_ Hhi]. pose proof (digits2_pos_bounds mb) as [Hlo _].
    rewrite Hb in Hlo.
    assert (Hp : (2 ^ Z.pos (digits2_pos ma) <= 2 ^ prec)%Z) by (apply Z.pow_le_mono_r; lia).
    assert (Hk2 : (2 ^ 1 <= 2 ^ k)%Z) by (apply Z.pow_le_mono_r; lia).
    change (2 ^ 1)%Z with 2%Z in Hk2.
    assert (Hpp : (2 ^ prec = 2 ^ (prec - 1) * 2)%Z).
    { replace prec with (prec - 1 + 1)%Z at 1 by lia. rewrite Z.pow_add_r by lia. reflexivity. }
    assert (Hm : (2 ^ (prec - 1) * 2 <= Z.pos mb * 2 ^ k)%Z).
    { apply Z.mul_le_mono_nonneg; try lia; apply Z.pow_nonneg; lia. }
    lia. }
  destruct (Z.compare_spec e1 e2) as [E|E|E].
  - subst e2. rewrite Z.min_id, Z.sub_diag. change (2 ^ 0)%Z with 1%Z.
    rewrite !Z.mul_1_r. reflexivity.
  - rewrite Z.min_l by lia. rewrite Z.sub_diag. change (2 ^ 0)%Z with 1%Z. rewrite Z.mul_1_r.
    apply Z.compare_lt_iff. apply Hstep; [lia|exact Hd1|apply Hn2; lia].
  - rewrite Z.min_r by lia. rewrite Z.sub_diag. change (2 ^ 0)%Z with 1%Z. rewrite Z.mul_1_r.
    apply Z.compare_gt_iff. apply Hstep; [lia|exact Hd2|apply Hn1; lia].
Qed.

(** The difference of two finite numbers in canonical form is positive
    exactly when the second is below the first. *)
Lemma SFsub_sign (x y : spec_float) :
  SpecFloat.valid_binary prec emax x = true -> SpecFloat.valid_binary prec emax y = true ->
  SFfinite x -> SFfinite y ->
  SFltb (S754_zero false) (SFsub prec emax x y) = SFltb y x.
Proof.
  destruct x as [sx|sx| |sx mx ex], y as [sy|sy| |sy my ey]; cbn [SFfinite];
    intros Vx Vy Fx Fy; try contradiction.
  - destruct sx, sy; reflexivity.
  - destruct sy; reflexivity.
  - destruct sx; reflexivity.
  - cbn [SpecFloat.valid_binary] in Vx, Vy.
    destruct (@bounded_canonical _ _ Vx) as (Hminx & _).
    destruct (@bounded_canonical _ _ Vy) as (Hminy & _).
    pose proof (@canonical_compare _ _ _ _ Vy Vx) as Hc.
    cbn [SFsub]. change IntDef.Z.min with Z.min.
    rewrite (Z.min_comm ey ex) in Hc.
    rewrite <- (@shl_align_value mx ex (Z.min ex ey)) in Hc by lia.
    rewrite <- (@shl_align_value my ey (Z.min ex ey)) in Hc by lia.
    set (X := Z.pos (fst (shl_align mx ex (Z.min ex ey)))) in *.
    set (Y := Z.pos (fst (shl_align my ey (Z.min ex ey)))) in *.
    assert (HX : (0 < X)%Z) by (subst X; lia). assert (HY : (0 < Y)%Z) by (subst Y; lia).
    clearbody X Y.
    assert (Hsign : SFltb (S754_zero false)
                      (binary_normalize prec emax (cond_Zopp sx X - cond_Zopp sy Y)
                         (Z.min ex ey) false)
                    = (0 <? cond_Zopp sx X - cond_Zopp sy Y)%Z).
    { unfold binary_normalize.
      destruct (cond_Zopp sx X - cond_Zopp sy Y)%Z as [|d|d]; [reflexivity| |].
      - destruct (@binary_round_pos false d (Z.min ex ey) ltac:(lia)) as [(m' & e' & ->)| ->];
          reflexivity.
      - destruct (@binary_round_pos true d (Z.min ex ey) ltac:(lia)) as [(m' & e' & ->)| ->];
          reflexivity. }
    rewrite Hsign. unfold SFltb. cbn [SFcompare]. change PosDef.Pos.compare_cont with Pos.compare_cont.
    change (Pos.compare_cont Eq my mx) with (Pos.compare my mx).
    destruct sx, sy; cbn [cond_Zopp].
    + destruct (ey ?= ex)%Z; [destruct (Pos.compare my mx)| |];
        match type of Hc with
        | _ = Eq => apply Z.compare_eq_iff in Hc
        | _ = Lt => apply -> Z.compare_lt_iff in Hc
        | _ = Gt => apply -> Z.compare_gt_iff in Hc
        end;
        cbv beta iota delta [CompOpp]; first [apply Z.ltb_lt; lia | apply Z.ltb_ge; lia].
    + apply Z.ltb_ge. lia.
    + apply Z.ltb_lt. lia.
    + destruct (ey ?= ex)%Z; [destruct (Pos.compare my mx)| |];
        match type of Hc with
        | _ = Eq => apply Z.compare_eq_iff in Hc
        | _ = Lt => apply -> Z.compare_lt_iff in Hc
        | _ = Gt => apply -> Z.compare_gt_iff in Hc
        end;
        cbv beta iota delta [CompOpp]; first [apply Z.ltb_lt; lia | apply Z.ltb_ge; lia].
Qed.

End SignOfDifference.

(** [0 < a - b] exactly when [b < a], for finite numbers. *)
Lemma difference_positive (a b : float) :
  is_finite a = true -> is_finite b = true -> (0 <? a - b) = (b <? a).
Proof.
  intros Ha Hb. rewrite !ltb_spec, sub_spec.
  change (Prim2SF 0) with (S754_zero false).
  apply SFsub_sign; try apply Prim2SF_valid; try apply is_finite_Prim2SF; try assumption.
  reflexivity.
Qed.

(* ================================================================== *)
(** ** The sketch is sorted when the stroke ends *)

Section SortFacts.

Lemma finite_not_nan (x : float) : is_finite x = true -> is_nan x = false.
Proof.
  unfold is_finite. intros H. apply negb_true_iff, orb_false_elim in H. exact (proj1 H).
Qed.

Lemma above_low_nonneg (x : float) : (0.01 <? x) = true -> (0 <=? x) = true.
Proof.
  rewrite ltb_spec, leb_spec. unfold SFltb, SFleb.
  change (Prim2SF 0) with (S754_zero false).
  destruct (Prim2SF 0.01) as [sa|sa| |sa ma ea] eqn:Ea; vm_compute in Ea; try discriminate Ea.
  injection Ea as <- <- <-.
  destruct (Prim2SF x) as [s|s| |s m e]; cbn [SFcompare]; try discriminate;
    destruct s; try discriminate; reflexivity.
Qed.

Lemma below_high_le_one (x : float) : (x <? 0.99) = true -> (x <=? 1) = true.
Proof.
  rewrite ltb_spec, leb_spec. unfold SFltb, SFleb.
  destruct (Prim2SF 0.99) as [sa|sa| |sa ma ea] eqn:Ea; vm_compute in Ea; try discriminate Ea.
  destruct (Prim2SF 1) as [sb|sb| |sb mb eb] eqn:Eb; vm_compute in Eb; try discriminate Eb.
  injection Ea as <- <- <-. injection Eb as <- <- <-.
  destruct (Prim2SF x) as [s|s| |s m e]; cbn [SFcompare]; try discriminate.
  - destruct s; reflexivity.
  - destruct s; [reflexivity|discriminate].
  - destruct s; [reflexivity|].
    destruct (Z.compare_spec e (-53)) as [H1|H1|H1];
      destruct (Z.compare_spec e (-52)) as [H2|H2|H2];
      try lia; intros H; first [reflexivity | discriminate H].
Qed.

Lemma insert_HdRel (b a : Point) (l : list Point) :
  SketchPad.leX b a -> HdRel SketchPad.leX b l -> HdRel SketchPad.leX b (SketchPad.insert a l).
Proof.
  intros Hba Hl. destruct l as [|b' l]; cbn [SketchPad.insert]; [constructor; exact Hba|].
  destruct (0 <? px a - px b'); constructor; [inversion Hl; assumption|exact Hba].
Qed.

Lemma insert_Sorted (a : Point) (l : list Point) :
  is_finite (px a) = true -> Forall (fun p => is_finite (px p) = true) l ->
  Sorted SketchPad.leX l -> Sorted SketchPad.leX (SketchPad.insert a l).
Proof.
  intros Ha Hall Hs. induction Hs as [|b l Hs IH Hb]; cbn [SketchPad.insert].
  - constructor; constructor.
  - inversion Hall as [|? ? Hfb Hall']; subst.
    rewrite (@difference_positive (px a) (px b) Ha Hfb).
    destruct (px b <? px a) eqn:E.
    + constructor; [apply IH, Hall'|].
      apply insert_HdRel; [apply ltb_leb, E|exact Hb].
    + constructor; [constructor; assumption|]. constructor.
      apply not_ltb_leb; [exact (@finite_not_nan _ Ha)|exact (@finite_not_nan _ Hfb)|exact E].
Qed.

Lemma sortByX_Sorted (l : list Point) :
  Forall (fun p => is_finite (px p) = true) l -> Sorted SketchPad.leX (SketchPad.sortByX l).
Proof.
  induction l as [|a l IH]; intros Hall; cbn [SketchPad.sortByX]; [constructor|].
  inversion Hall as [|? ? Ha Hall']; subst.
  apply insert_Sorted; [exact Ha| |apply IH, Hall'].
  rewrite Forall_forall in *. intros p Hp. apply Hall'.
  eapply Permutation_in; [symmetry; apply sortByX_Permutation|exact Hp].
Qed.

Lemma Sorted_snoc (l : list Point) (d new : Point) :
  Sorted SketchPad.leX l -> l <> [] -> SketchPad.leX (List.last l d) new ->
  Sorted SketchPad.leX (l ++ [new]).
Proof.
  intros Hs. induction Hs as [|b l Hs IH Hb]; [congruence|]. intros _ Hlast.
  destruct l as [|b' l].
  - cbn. constructor; [constructor; constructor|constructor; exact Hlast].
  - cbn [app]. constructor.
    + apply IH; [discriminate|exact Hlast].
    + constructor. inversion Hb; assumption.
Qed.

End SortFacts.

(** X20.  [handlePointerUp] sorts: when the abscissas of the points are finite
    numbers, the points it passes on are in the order of their abscissas,
    each no greater than the next, the two it may add included. *)
Theorem handlePointerUp_sorts_by_abscissa (points : list Point) :
  Forall (fun p => finite (px p)) points ->
  Sorted SketchPad.leX (SketchPad.sortByX points)
  /\ Sorted SketchPad.leX (SketchPad.handlePointerUp points).
Proof.
  intros Hall. pose proof (sortByX_Sorted Hall) as Hs. split; [exact Hs|].
  unfold SketchPad.handlePointerUp. cbv zeta.
  destruct (SketchPad.sortByX points) as [|first rest] eqn:Es; [constructor|].
  set (sorted := if 0.01 <? px first then _ else _).
  assert (Hsorted : Sorted SketchPad.leX sorted /\ sorted <> []).
  { subst sorted. destruct (0.01 <? px first) eqn:E; [|split; [exact Hs|discriminate]].
    split; [|discriminate]. constructor; [exact Hs|]. constructor.
    apply above_low_nonneg, E. }
  destruct Hsorted as [Hso Hne].
  destruct (px (List.last sorted first) <? 0.99) eqn:E; [|exact Hso].
  apply (@Sorted_snoc sorted first); [exact Hso|exact Hne|].
  apply below_high_le_one, E.
Qed.

Lemma handlePointerUp_sorts_by_abscissa_witness :
  Forall (fun p => finite (px p))
    [ {| px := 0.75; py := 0.5 |}; {| px := 0.25; py := 1 |}; {| px := 0.5; py := 0 |} ]
  /\ Sorted SketchPad.leX
       (SketchPad.handlePointerUp
          [ {| px := 0.75; py := 0.5 |}; {| px := 0.25; py := 1 |}; {| px := 0.5; py := 0 |} ]).
Proof.
  assert (H : Forall (fun p => finite (px p))
    [ {| px := 0.75; py := 0.5 |}; {| px := 0.25; py := 1 |}; {| px := 0.5; py := 0 |} ]).
  { repeat (apply Forall_cons; [reflexivity|]). apply Forall_nil. }
  split; [exact H|]. exact (proj2 (handlePointerUp_sorts_by_abscissa H)).
Defined.

Example handlePointerUp_example :
  SketchPad.handlePointerUp
    [ {| px := 0.75; py := 0.5 |}; {| px := 0.25; py := 1 |}; {| px := 0.5; py := 0 |} ]
  = [ {| px := 0; py := 1 |}; {| px := 0.25; py := 1 |}; {| px := 0.5; py := 0 |};
      {| px := 0.75; py := 0.5 |}; {| px := 1; py := 0.5 |} ].
Proof. vm_compute. reflexivity. Qed.

(* ================================================================== *)
(** ** Rounding keeps a bound that is a power of two

    A product or a sum whose exact value is at most [2^k] in magnitude is
    rounded to a number of magnitude at most [2^k]. *)

Section PowerOfTwoBound.

Lemma iter_pos_nat (A : Type) (f : A -> A) (p : positive) :
  forall x : A, iter_pos f p x = Nat.iter (Pos.to_nat p) f x.
Proof.
  induction p as [p IH|p IH|]; intros x; cbn [iter_pos].
  - rewrite !IH, Pos2Nat.inj_xI, <- Nat.iter_add, <- Nat.iter_succ_r.
    f_equal. lia.
  - rewrite !IH, Pos2Nat.inj_xO, <- Nat.iter_add. f_equal. lia.
  - reflexivity.
Qed.

(** Shifting out zeros leaves the location exact. *)
Lemma shr_1_exact (r : shr_record) (h : Z) :
  (0 <= h)%Z -> shr_m r = (2 * h)%Z -> shr_r r = false -> shr_s r = false ->
  shr_1 r = {| shr_m := h; shr_r := false; shr_s := false |}.
Proof.
  destruct r as [m b s]. cbn [shr_m shr_r shr_s]. intros Hh -> -> ->.
  destruct h as [|p|p]; [reflexivity|reflexivity|lia].
Qed.

Lemma iter_shr_1_exact (n : nat) :
  forall (r : shr_record) (q : Z),
  (0 <= q)%Z -> shr_m r = (q * 2 ^ Z.of_nat n)%Z -> shr_r r = false -> shr_s r = false ->
  Nat.iter n shr_1 r = {| shr_m := q; shr_r := false; shr_s := false |}.
Proof.
  induction n as [|n IH]; intros r q Hq Hm Hr Hs.
  - cbn [Nat.iter nat_rect]. destruct r as [m b s]. cbn [shr_m shr_r shr_s] in *.
    subst. f_equal. change (2 ^ Z.of_nat 0)%Z with 1%Z. lia.
  - rewrite Nat.iter_succ_r.
    assert (Hp : (0 < 2 ^ Z.of_nat n)%Z) by (apply Z.pow_pos_nonneg; lia).
    rewrite (@shr_1_exact r (q * 2 ^ Z.of_nat n)); try assumption; try nia.
    + apply IH; try reflexivity; assumption.
    + rewrite Hm, Nat2Z.inj_succ, Z.pow_succ_r by lia. lia.
Qed.

Lemma round_nearest_even_le (m : Z) (l : location) : (round_nearest_even m l <= m + 1)%Z.
Proof. destruct l as [|[]]; cbn; try lia. destruct (Z.even m); lia. Qed.

Variables prec emax : Z.
Hypothesis Hprec : (0 < prec)%Z.

(** The first half of a rounding: shift to the exponent of the format,
    then round the mantissa. *)
Lemma shr_fexp_below (m e k : Z) :
  (0 < m)%Z -> (e <= k)%Z -> (m <= 2 ^ (k - e))%Z -> (SpecFloat.emin prec emax <= k)%Z ->
  let r := shr_fexp prec emax m e loc_Exact in
  (0 <= shr_m (fst r))%Z
  /\ (snd r <= k)%Z
  /\ (round_nearest_even (shr_m (fst r)) (loc_of_shr_record (fst r)) <= 2 ^ (k - snd r))%Z.
Proof.
  intros Hm He Hle Hk. unfold shr_fexp, shr.
  destruct m as [|p|p]; try lia. cbn [Zdigits2 shr_record_of_loc].
  pose proof (digits2_pos_bounds p) as [Hlo Hhi].
  set (d := Z.pos (digits2_pos p)) in *.
  assert (Hd : (d + e <= k + 1)%Z).
  { destruct (Z.le_gt_cases (d + e) (k + 1)) as [H|H]; [exact H|exfalso].
    assert (Hpow : (2 ^ (k - e) < 2 ^ (d - 1))%Z) by (apply Z.pow_lt_mono_r; lia).
    lia. }
  assert (Hf : (fexp prec emax (d + e) <= k)%Z).
  { unfold fexp. change IntDef.Z.max with Z.max. lia. }
  destruct (fexp prec emax (d + e) - e)%Z as [|q|q] eqn:En; cbn [fst snd shr_m loc_of_shr_record
    round_nearest_even].
  - repeat split; lia.
  - assert (Hq : (0 < 2 ^ Z.pos q)%Z) by (apply Z.pow_pos_nonneg; lia).
    assert (Hsplit : (2 ^ (k - e) = 2 ^ (k - (e + Z.pos q)) * 2 ^ Z.pos q)%Z).
    { rewrite <- Z.pow_add_r by lia. f_equal. lia. }
    assert (Hb : (0 < 2 ^ (k - (e + Z.pos q)))%Z) by (apply Z.pow_pos_nonneg; lia).
    rewrite iter_pos_shr_1_div by (cbn; lia). cbn [shr_m].
    split; [apply Z.div_pos; lia|]. split; [lia|].
    destruct (Z.eq_dec (Z.pos p) (2 ^ (k - e))) as [Heq|Hne].
    + rewrite iter_pos_nat.
      rewrite (@iter_shr_1_exact (Pos.to_nat q) _ (2 ^ (k - (e + Z.pos q)))).
      * cbn [shr_m loc_of_shr_record round_nearest_even].
        rewrite Heq, Hsplit, Z.div_mul by lia. lia.
      * lia.
      * cbn [shr_m]. rewrite positive_nat_Z, Heq. exact Hsplit.
      * reflexivity.
      * reflexivity.
    + etransitivity; [apply round_nearest_even_le|].
      assert (Hlt : (Z.pos p / 2 ^ Z.pos q < 2 ^ (k - (e + Z.pos q)))%Z).
      { apply Z.div_lt_upper_bound; [exact Hq|]. 
        rewrite Z.mul_comm. lia. }
      lia.
  - repeat split; lia.
Qed.

(** Rounding a positive mantissa whose value is at most [2^k]. *)
Lemma binary_round_aux_below (s : bool) (m e k : Z) :
  (0 < m)%Z -> (e <= k)%Z -> (m <= 2 ^ (k - e))%Z ->
  (SpecFloat.emin prec emax <= k)%Z -> (k <= emax - prec)%Z ->
  match binary_round_aux prec emax s m e loc_Exact with
  | S754_zero s' => s' = s
  | S754_finite s' m' e' => s' = s /\ (e' <= k)%Z /\ (Z.pos m' <= 2 ^ (k - e'))%Z
  | _ => False
  end.
Proof.
  intros Hm He Hle Hk Hmax. unfold binary_round_aux.
  destruct (@shr_fexp_below m e k Hm He Hle Hk) as (H0 & He' & Hr).
  destruct (shr_fexp prec emax m e loc_Exact) as [mrs' e']. cbn [fst snd] in H0, He', Hr.
  pose proof (round_nearest_even_ge (shr_m mrs') (loc_of_shr_record mrs')) as Hge.
  set (m2 := round_nearest_even (shr_m mrs') (loc_of_shr_record mrs')) in *.
  destruct (Z.eq_dec m2 0) as [Hz|Hnz].
  - rewrite Hz. unfold shr_fexp, shr. cbn [Zdigits2 shr_record_of_loc].
    destruct (fexp prec emax (0 + e') - e')%Z as [|q|q]; cbn [shr_m]; try reflexivity.
    rewrite iter_pos_shr_1_div by (cbn; lia). cbn [shr_m]. reflexivity.
  - destruct (@shr_fexp_below m2 e' k ltac:(lia) He' Hr Hk) as (H0' & He'' & Hr').
    destruct (shr_fexp prec emax m2 e' loc_Exact) as [mrs'' e'']. cbn [fst snd] in H0', He'', Hr'.
    pose proof (round_nearest_even_ge (shr_m mrs'') (loc_of_shr_record mrs'')) as Hge'.
    destruct (shr_m mrs'') as [|p|p]; [reflexivity| |lia].
    replace (e'' <=? emax - prec)%Z with true by (symmetry; apply Z.leb_le; lia).
    repeat split; lia.
Qed.

(** The product of two numbers of magnitude at most [2^a] and [2^b]. *)
Lemma SFmul_below (x y : spec_float) (a b : Z) :
  SFbelow a x -> SFbelow b y ->
  (SpecFloat.emin prec emax <= a + b)%Z -> (a + b <= emax - prec)%Z ->
  SFbelow (a + b) (SFmul prec emax x y)
  /\ (SFnonneg x -> SFnonneg y -> SFnonneg (SFmul prec emax x y)).
Proof.
  destruct x as [sx|sx| |sx mx ex], y as [sy|sy| |sy my ey]; cbn [SFbelow SFmul];
    intros Hx Hy Hlo Hhi; try contradiction.
  - split; [exact I|]. intros _ _. exact I.
  - split; [exact I|]. intros _ _. exact I.
  - split; [exact I|]. intros _ _. exact I.
  - destruct Hx as [Hex Hmx], Hy as [Hey Hmy].
    assert (Hle : (Z.pos (mx * my) <= 2 ^ (a + b - (ex + ey)))%Z).
    { replace (a + b - (ex + ey))%Z with ((a - ex) + (b - ey))%Z by lia.
      rewrite Z.pow_add_r, Pos2Z.inj_mul by lia.
      apply Z.mul_le_mono_nonneg; lia. }
    pose proof (@binary_round_aux_below (xorb sx sy) (Z.pos (mx * my)) (ex + ey) (a + b)
                  ltac:(lia) ltac:(lia) Hle Hlo Hhi) as H.
    destruct (binary_round_aux prec emax (xorb sx sy) (Z.pos (mx * my)) (ex + ey) loc_Exact)
      as [s'|s'| |s' m' e']; try contradiction.
    + split; [exact I|]. intros _ _. exact I.
    + destruct H as (-> & He & Hm). split; [split; assumption|].
      destruct sx, sy; cbn; intros Hx' Hy'; try contradiction. exact I.
Qed.

End PowerOfTwoBound.

(* ================================================================== *)
(** ** Numbers between 0 and 1 *)

Section UnitInterval.

Lemma Prim2SF_one : Prim2SF 1 = S754_finite false 4503599627370496 (-52).
Proof. vm_compute. reflexivity. Qed.

Lemma Prim2SF_half : Prim2SF 0.5 = S754_finite false 4503599627370496 (-53).
Proof. vm_compute. reflexivity. Qed.

Lemma pow2_52 : (2 ^ 52 = 4503599627370496)%Z.
Proof. vm_compute. reflexivity. Qed.

Lemma Prim2SF_bounded (x : float) (s : bool) (m : positive) (e : Z) :
  Prim2SF x = S754_finite s m e -> bounded prec emax m e = true.
Proof.
  intros E. pose proof (Prim2SF_valid x) as V. rewrite E in V. exact V.
Qed.

(** A number that is not negative and of magnitude at most 1 is in [0,1]. *)
Lemma in01_of_SF (r : float) :
  SFnonneg (Prim2SF r) -> SFbelow 0 (Prim2SF r) -> in01 r.
Proof.
  unfold in01. rewrite !leb_spec. unfold SFleb.
  change (Prim2SF 0) with (S754_zero false).
  rewrite Prim2SF_one.
  remember 4503599627370496%positive as c eqn:Hc.
  assert (HcZ : Z.pos c = (2 ^ 52)%Z) by (rewrite Hc; symmetry; exact pow2_52).
  clear Hc.
  destruct (Prim2SF r) as [s|s| |s m e] eqn:E; cbn [SFnonneg SFbelow]; intros Hs Hb;
    try contradiction.
  - destruct s; reflexivity.
  - destruct s; [contradiction|]. destruct Hb as [He Hm].
    destruct (@bounded_canonical prec emax m e (@Prim2SF_bounded _ _ _ _ E)) as (Hmin & Hd & Hn).
    pose proof (digits2_pos_bounds m) as [Hlo Hhi].
    cbn [SFcompare andb]. change PosDef.Pos.compare_cont with Pos.compare_cont.
    destruct (Z.compare_spec e (-52)) as [Ee|Ee|Ee]; [| reflexivity |].
    + subst e. replace (0 - -52)%Z with 52%Z in Hm by lia.
      destruct (Pos.compare_cont Eq m c) eqn:Ec; try reflexivity.
      change (Pos.compare m c = Gt) in Ec. apply -> Pos.compare_gt_iff in Ec. lia.
    + exfalso.
      assert (Hdig : Z.pos (digits2_pos m) = prec).
      { apply Hn. unfold SpecFloat.emin. change prec with 53%Z. change emax with 1024%Z. lia. }
      rewrite Hdig in Hlo. replace (prec - 1)%Z with 52%Z in Hlo by reflexivity.
      assert (Hp : (2 ^ (0 - e) < 2 ^ 52)%Z) by (apply Z.pow_lt_mono_r; lia).
      lia.
Qed.

(** The other way round. *)
Lemma SF_of_le_one (r : float) (s : bool) (m : positive) (e : Z) :
  Prim2SF r = S754_finite s m e ->
  SFleb (S754_finite false m e) (Prim2SF 1) = true ->
  (e <= 0)%Z /\ (Z.pos m <= 2 ^ (0 - e))%Z.
Proof.
  intros E. rewrite Prim2SF_one.
  remember 4503599627370496%positive as c eqn:Hc.
  assert (HcZ : Z.pos c = (2 ^ 52)%Z) by (rewrite Hc; symmetry; exact pow2_52).
  clear Hc.
  unfold SFleb. cbn [SFcompare]. change PosDef.Pos.compare_cont with Pos.compare_cont.
  destruct (@bounded_canonical prec emax m e (@Prim2SF_bounded _ _ _ _ E)) as (Hmin & Hd & Hn).
  pose proof (digits2_pos_bounds m) as [Hlo Hhi].
  assert (Hhi' : (Z.pos m < 2 ^ 53)%Z).
  { eapply Z.lt_le_trans; [exact Hhi|]. apply Z.pow_le_mono_r; [lia|exact Hd]. }
  destruct (Z.compare_spec e (-52)) as [Ee|Ee|Ee]; try discriminate.
  - subst e. replace (0 - -52)%Z with 52%Z by lia.
    destruct (Pos.compare_cont Eq m c) eqn:Ec; try discriminate; intros _;
      change (Pos.compare m c = Eq) in Ec || change (Pos.compare m c = Lt) in Ec.
    + apply Pos.compare_eq in Ec. subst m. lia.
    + apply -> Pos.compare_lt_iff in Ec. lia.
  - intros _. split; [lia|].
    assert (Hp : (2 ^ 53 <= 2 ^ (0 - e))%Z) by (apply Z.pow_le_mono_r; lia).
    lia.
Qed.

Lemma below_of_abs_le_one (s : float) :
  (Math_abs s <=? 1) = true -> SFbelow 0 (Prim2SF s).
Proof.
  unfold Math_abs. rewrite leb_spec, abs_spec.
  destruct (Prim2SF s) as [sg|sg| |sg m e] eqn:E; cbn [SFabs SFbelow]; intros H;
    try exact I; try (rewrite Prim2SF_one in H; discriminate H).
  exact (@SF_of_le_one _ _ _ _ E H).
Qed.

Lemma SF_of_in01 (r : float) : in01 r -> SFnonneg (Prim2SF r) /\ SFbelow 0 (Prim2SF r).
Proof.
  unfold in01. intros H. apply andb_prop in H. destruct H as [H0 H1].
  rewrite leb_spec in H0, H1.
  change (Prim2SF 0) with (S754_zero false) in H0.
  destruct (Prim2SF r) as [sg|sg| |sg m e] eqn:E; cbn [SFnonneg SFbelow];
    try (split; exact I); try discriminate H0;
    try (destruct sg; try discriminate H0; rewrite Prim2SF_one in H1; discriminate H1).
  destruct sg; [discriminate H0|]. split; [exact I|]. exact (@SF_of_le_one _ _ _ _ E H1).
Qed.

Lemma abs_nonneg (s : float) : is_nan s = false -> (Math_abs s <=? 1) = true -> in01 (Math_abs s).
Proof.
  intros Hn H. pose proof (@below_of_abs_le_one s H) as Hb.
  apply in01_of_SF; unfold Math_abs; rewrite abs_spec;
    destruct (Prim2SF s) as [sg|sg| |sg m e]; cbn in *; try contradiction; auto.
Qed.

Lemma mul_nan_l (x y : float) : is_nan x = true -> is_nan (x * y) = true.
Proof.
  rewrite !is_nan_Prim2SF, mul_spec. intros ->. reflexivity.
Qed.

Lemma mul_nan_r (x y : float) : is_nan y = true -> is_nan (x * y) = true.
Proof.
  rewrite !is_nan_Prim2SF, mul_spec. intros ->. destruct (Prim2SF x); reflexivity.
Qed.

Lemma mul_below (a b : float) (ka kb : Z) :
  SFbelow ka (Prim2SF a) -> SFbelow kb (Prim2SF b) ->
  (-1074 <= ka + kb)%Z -> (ka + kb <= 971)%Z ->
  SFbelow (ka + kb) (Prim2SF (a * b))
  /\ (SFnonneg (Prim2SF a) -> SFnonneg (Prim2SF b) -> SFnonneg (Prim2SF (a * b))).
Proof.
  intros Ha Hb Hlo Hhi. rewrite mul_spec.
  apply (@SFmul_below prec emax ltac:(reflexivity) _ _ ka kb Ha Hb); assumption.
Qed.

(** The product of two numbers of [0,1]. *)
Lemma mul_in01 (a b : float) : in01 a -> in01 b -> in01 (a * b).
Proof.
  intros Ha Hb.
  destruct (@SF_of_in01 a Ha) as [Na Ba], (@SF_of_in01 b Hb) as [Nb Bb].
  destruct (@mul_below a b 0 0 Ba Bb ltac:(lia) ltac:(lia)) as [H1 H2].
  apply in01_of_SF; [apply H2; assumption|exact H1].
Qed.

(** Normalizing an integer between 0 and [2^(-ez)] at the exponent [ez]. *)
Lemma binary_normalize_unit (D ez : Z) :
  (ez <= 0)%Z -> (0 <= D <= 2 ^ (0 - ez))%Z ->
  SFnonneg (binary_normalize prec emax D ez false)
  /\ SFbelow 0 (binary_normalize prec emax D ez false).
Proof.
  intros Hez Hsum. unfold binary_normalize.
  destruct D as [|S|S]; [split; exact I| |lia].
  unfold binary_round.
  set (f := fexp prec emax (Z.pos (digits2_pos S) + ez)) in *.
  assert (Hfmin : (SpecFloat.emin prec emax <= f)%Z).
  { unfold f, fexp. change IntDef.Z.max with Z.max. lia. }
  clearbody f.
  destruct (shl_align S ez f) as [mz ez'] eqn:Ea.
  assert (Hal : (ez' <= ez)%Z /\ Z.pos mz = (Z.pos S * 2 ^ (ez - ez'))%Z).
  { unfold shl_align in Ea. destruct (f - ez)%Z as [|dd|dd] eqn:Ed; injection Ea as <- <-.
    - split; [lia|]. rewrite Z.sub_diag. change (2 ^ 0)%Z with 1%Z. lia.
    - split; [lia|]. rewrite Z.sub_diag. change (2 ^ 0)%Z with 1%Z. lia.
    - split; [lia|]. rewrite iter_xO_value. f_equal. f_equal. lia. }
  destruct Hal as [Hez' Hmz].
  assert (Hle : (Z.pos mz <= 2 ^ (0 - ez'))%Z).
  { rewrite Hmz. replace (0 - ez')%Z with ((0 - ez) + (ez - ez'))%Z by lia.
    rewrite Z.pow_add_r by lia.
    apply Z.mul_le_mono_nonneg_r; [apply Z.pow_nonneg; lia|lia]. }
  pose proof (@binary_round_aux_below prec emax ltac:(reflexivity) false (Z.pos mz) ez' 0
                ltac:(lia) ltac:(lia) Hle ltac:(cbv; discriminate) ltac:(cbv; discriminate))
    as H.
  destruct (binary_round_aux prec emax false (Z.pos mz) ez' loc_Exact)
    as [s'|s'| |s' m' e']; try contradiction.
  - split; exact I.
  - destruct H as (-> & He' & Hm'). split; [exact I|]. split; assumption.
Qed.

(** [y + 0.5] for [y] of magnitude at most one half. *)
Lemma add_half_in01 (y : float) : SFbelow (-1) (Prim2SF y) -> in01 (y + 0.5).
Proof.
  intros Hy.
  assert (H : SFnonneg (Prim2SF (y + 0.5)) /\ SFbelow 0 (Prim2SF (y + 0.5))).
  2:{ destruct H. apply in01_of_SF; assumption. }
  rewrite add_spec.
  rewrite Prim2SF_half.
  destruct (Prim2SF y) as [sg|sg| |sg m e] eqn:E; cbn [SFbelow] in Hy; try contradiction.
  - cbn [SF64add SFadd SFnonneg SFbelow]. split; [exact I|]. split; [lia|].
    replace (0 - -53)%Z with (1 + 52)%Z by lia. rewrite Z.pow_add_r, pow2_52 by lia. lia.
  - destruct Hy as [He Hm].
    unfold SF64add, SFadd. change IntDef.Z.min with Z.min.
    set (ez := Z.min e (-53)).
    assert (Hez : (ez <= e)%Z /\ (ez <= -53)%Z) by (unfold ez; lia).
    rewrite (@shl_align_value m e ez) by lia.
    rewrite (@shl_align_value 4503599627370496 (-53) ez) by lia.
    assert (Hhalf : (4503599627370496 * 2 ^ (-53 - ez) = 2 ^ (-1 - ez))%Z).
    { rewrite <- pow2_52, <- Z.pow_add_r by lia. f_equal. lia. }
    rewrite Hhalf. cbn [cond_Zopp].
    assert (Hmag : (Z.pos m * 2 ^ (e - ez) <= 2 ^ (-1 - ez))%Z).
    { replace (-1 - ez)%Z with ((-1 - e) + (e - ez))%Z by lia.
      rewrite Z.pow_add_r by lia.
      apply Z.mul_le_mono_nonneg_r; [apply Z.pow_nonneg; lia|exact Hm]. }
    assert (Hpos : (0 < Z.pos m * 2 ^ (e - ez))%Z).
    { apply Z.mul_pos_pos; [lia|apply Z.pow_pos_nonneg; lia]. }
    assert (Htwo : (2 ^ (-1 - ez) + 2 ^ (-1 - ez) = 2 ^ (0 - ez))%Z).
    { replace (0 - ez)%Z with (1 + (-1 - ez))%Z by lia.
      rewrite Z.pow_add_r by lia. change (2 ^ 1)%Z with 2%Z. lia. }
    set (A := (Z.pos m * 2 ^ (e - ez))%Z) in *. set (B := (2 ^ (-1 - ez))%Z) in *.
    assert (Hsum : (0 <= cond_Zopp sg A + B <= 2 ^ (0 - ez))%Z).
    { destruct sg; cbn [cond_Zopp]; lia. }
    clearbody A B. apply binary_normalize_unit; [lia|exact Hsum].
Qed.

(** [1 - u] for [u] in [0,1]. *)
Lemma one_minus_in01 (u : float) : in01 u -> in01 (1 - u).
Proof.
  intros Hu. destruct (@SF_of_in01 u Hu) as [Nu Bu].
  assert (H : SFnonneg (Prim2SF (1 - u)) /\ SFbelow 0 (Prim2SF (1 - u))).
  2:{ destruct H. apply in01_of_SF; assumption. }
  assert (Hone : SFnonneg (S754_finite false 4503599627370496 (-52))
                 /\ SFbelow 0 (S754_finite false 4503599627370496 (-52))).
  { cbn [SFnonneg SFbelow]. split; [exact I|]. split; [lia|].
    replace (0 - -52)%Z with 52%Z by lia. rewrite pow2_52. lia. }
  rewrite sub_spec, Prim2SF_one.
  destruct (Prim2SF u) as [sg|sg| |sg m e] eqn:E; cbn [SFbelow SFnonneg] in Nu, Bu;
    try contradiction.
  - exact Hone.
  - destruct sg; [contradiction|]. destruct Bu as [He Hm].
    unfold SF64sub, SFsub. change IntDef.Z.min with Z.min.
    set (ez := Z.min (-52) e).
    assert (Hez : (ez <= e)%Z /\ (ez <= -52)%Z) by (unfold ez; lia).
    rewrite (@shl_align_value m e ez) by lia.
    rewrite (@shl_align_value 4503599627370496 (-52) ez) by lia.
    assert (Hunit : (4503599627370496 * 2 ^ (-52 - ez) = 2 ^ (0 - ez))%Z).
    { rewrite <- pow2_52, <- Z.pow_add_r by lia. f_equal. lia. }
    rewrite Hunit. cbn [cond_Zopp].
    assert (Hmag : (Z.pos m * 2 ^ (e - ez) <= 2 ^ (0 - ez))%Z).
    { replace (0 - ez)%Z with ((0 - e) + (e - ez))%Z by lia.
      rewrite Z.pow_add_r by lia.
      apply Z.mul_le_mono_nonneg_r; [apply Z.pow_nonneg; lia|exact Hm]. }
    assert (Hpos : (0 < Z.pos m * 2 ^ (e - ez))%Z).
    { apply Z.mul_pos_pos; [lia|apply Z.pow_pos_nonneg; lia]. }
    set (A := (Z.pos m * 2 ^ (e - ez))%Z) in *. set (B := (2 ^ (0 - ez))%Z) in *.
    change IntDef.Z.sub with Z.sub.
    clearbody A. apply binary_normalize_unit; [lia|fold B; lia].
Qed.

Lemma half_below (x : float) : SFbelow 0 (Prim2SF x) -> SFbelow (-1) (Prim2SF (x * 0.5)).
Proof.
  intros Hx.
  assert (Hh : SFbelow (-1) (Prim2SF 0.5)).
  { rewrite Prim2SF_half. cbn [SFbelow]. split; [lia|]. replace (-1 - -53)%Z with 52%Z by lia. rewrite pow2_52. lia. }
  exact (proj1 (@mul_below x 0.5 0 (-1) Hx Hh ltac:(lia) ltac:(lia))).
Qed.

(** [x * 0.5 + 0.5] for [x] between -1 and 1. *)
Lemma half_plus_half (x : float) :
  is_nan x = true \/ (Math_abs x <=? 1) = true ->
  is_nan (x * 0.5 + 0.5) = true \/ in01 (x * 0.5 + 0.5).
Proof.
  intros [Hn|Hx].
  - left. apply add_nan_l, mul_nan_l, Hn.
  - right. apply add_half_in01, half_below, below_of_abs_le_one, Hx.
Qed.

End UnitInterval.

(* ================================================================== *)
(** ** The sign of products and quotients *)

Section Signs.

Lemma binary_round_aux_sign (p em : Z) (s : bool) (m e : Z) (l : location) :
  match binary_round_aux p em s m e l with
  | S754_zero s' | S754_infinity s' | S754_finite s' _ _ => s' = s
  | S754_nan => True
  end.
Proof.
  unfold binary_round_aux.
  destruct (shr_fexp p em m e l) as [mrs' e'].
  destruct (shr_fexp p em _ e' loc_Exact) as [mrs'' e''].
  destruct (shr_m mrs''); try reflexivity; try exact I.
  destruct (e'' <=? em - p)%Z; reflexivity.
Qed.

Lemma SFmul_notBelowZero (x y : spec_float) :
  SFnotBelowZero x -> SFnotBelowZero y -> SFnotBelowZero (SF64mul x y).
Proof.
  destruct x as [sx|sx| |sx mx ex], y as [sy|sy| |sy my ey]; cbn [SFnotBelowZero];
    intros Hx Hy; try exact I;
    try (destruct sx; try contradiction); try (destruct sy; try contradiction);
    try exact I.
  unfold SF64mul, SFmul. cbn [xorb].
  pose proof (binary_round_aux_sign prec emax false (Z.pos (mx * my)) (ex + ey) loc_Exact) as H.
  destruct (binary_round_aux prec emax false (Z.pos (mx * my)) (ex + ey) loc_Exact)
    as [s'|s'| |s' m' e']; try exact I; subst s'; exact I.
Qed.

Lemma SFsquare_notBelowZero (x : spec_float) : SFnotBelowZero (SF64mul x x).
Proof.
  destruct x as [sx|sx| |sx mx ex]; try exact I; try (destruct sx; exact I).
  unfold SF64mul, SFmul.
  pose proof (binary_round_aux_sign prec emax (xorb sx sx) (Z.pos (mx * mx)) (ex + ex)
                loc_Exact) as H.
  destruct (binary_round_aux prec emax (xorb sx sx) (Z.pos (mx * mx)) (ex + ex) loc_Exact)
    as [s'|s'| |s' m' e']; try exact I; subst s'; destruct sx; exact I.
Qed.

Lemma SFdiv_notBelowZero (x : spec_float) (my : positive) (ey : Z) :
  SFnotBelowZero x -> SFnotBelowZero (SF64div x (S754_finite false my ey)).
Proof.
  destruct x as [sx|sx| |sx mx ex]; cbn [SFnotBelowZero]; intros Hx; try exact I;
    try (destruct sx; try contradiction; exact I).
  destruct sx; [contradiction|].
  unfold SF64div, SFdiv. cbn [xorb].
  destruct (SFdiv_core_binary prec emax (Z.pos mx) ex (Z.pos my) ey) as [[mz ez] lz].
  pose proof (binary_round_aux_sign prec emax false mz ez lz) as H.
  destruct (binary_round_aux prec emax false mz ez lz) as [s'|s'| |s' m' e'];
    try exact I; subst s'; exact I.
Qed.

Lemma notBelowZero_of_ltb (x : float) : (x <? 0) = false -> SFnotBelowZero (Prim2SF x).
Proof.
  rewrite ltb_spec. change (Prim2SF 0) with (S754_zero false).
  destruct (Prim2SF x) as [s|s| |s m e]; cbn; try (intros; exact I);
    destruct s; try (intros; exact I); discriminate.
Qed.

Lemma opp_notBelowZero (x : float) :
  SFnotBelowZero (Prim2SF x) -> (0 <? - x) = false.
Proof.
  rewrite ltb_spec, opp_spec. change (Prim2SF 0) with (S754_zero false).
  destruct (Prim2SF x) as [s|s| |s m e]; cbn; try reflexivity;
    destruct s; try contradiction; reflexivity.
Qed.

Lemma Prim2SF_hundred : exists m e, Prim2SF 100 = S754_finite false m e.
Proof. eexists. eexists. vm_compute. reflexivity. Qed.

Lemma Prim2SF_two : exists m e, Prim2SF 2 = S754_finite false m e.
Proof. eexists. eexists. vm_compute. reflexivity. Qed.

(** The argument of the exponential of the gaussian profile. *)
Lemma gaussian_argument (x sp : float) :
  (sp <? 0) = false -> (0 <? - (x * x * sp / 100)) = false.
Proof.
  intros Hsp. apply opp_notBelowZero.
  destruct Prim2SF_hundred as (m & e & E).
  rewrite div_spec, E. apply SFdiv_notBelowZero.
  rewrite mul_spec. apply SFmul_notBelowZero; [|apply notBelowZero_of_ltb, Hsp].
  rewrite mul_spec. apply SFsquare_notBelowZero.
Qed.

(** The argument of the exponential of the ripple profile. *)
Lemma ripple_argument (x : float) : (0 <? - Math_abs x * 2) = false.
Proof.
  unfold Math_abs. rewrite ltb_spec, mul_spec, opp_spec, abs_spec.
  destruct Prim2SF_two as (m2 & e2 & E). rewrite E.
  change (Prim2SF 0) with (S754_zero false).
  destruct (Prim2SF x) as [s|s| |s m e]; try reflexivity.
  unfold SF64mul, SFmul, SFopp, SFabs. cbn [negb xorb].
  pose proof (binary_round_aux_sign prec emax true (Z.pos (m * m2)) (e + e2) loc_Exact) as H.
  destruct (binary_round_aux prec emax true (Z.pos (m * m2)) (e + e2) loc_Exact)
    as [s'|s'| |s' m' e']; try reflexivity; subst s'; reflexivity.
Qed.

(** [Math.min(1, Math.abs(v) + 0.1)]. *)
Lemma fractal_clamp (v : float) :
  is_nan v = true \/ in01 (Math_min 1 (Math_abs v + 0.1)).
Proof.
  destruct (is_nan v) eqn:Hv; [left; reflexivity|right].
  assert (Hy : match Prim2SF (Math_abs v + 0.1) with
               | S754_finite false _ _ | S754_infinity false => True
               | _ => False
               end).
  { unfold Math_abs. rewrite add_spec, abs_spec.
    apply is_nan_false_Prim2SF in Hv.
    assert (E : exists m e, Prim2SF 0.1 = S754_finite false m e
                            /\ (SpecFloat.emin prec emax <= e)%Z).
    { eexists. eexists. split; [vm_compute; reflexivity|]. vm_compute. discriminate. }
    destruct E as (m1 & e1 & E & He1). rewrite E.
    destruct (Prim2SF v) as [s|s| |s m e] eqn:Ev; try congruence; cbn [SFabs SF64add SFadd];
      try exact I.
    destruct (@bounded_canonical prec emax m e (@Prim2SF_bounded _ _ _ _ Ev)) as (Hmin & _).
    change IntDef.Z.min with Z.min. cbn [cond_Zopp].
    set (ez := Z.min e e1).
    assert (HX : (0 < Z.pos (fst (shl_align m e ez)))%Z) by lia.
    assert (HY : (0 < Z.pos (fst (shl_align m1 e1 ez)))%Z) by lia.
    unfold binary_normalize.
    destruct (Z.pos (fst (shl_align m e ez)) + Z.pos (fst (shl_align m1 e1 ez)))%Z
      as [|S|S] eqn:ES; try lia.
    destruct (@binary_round_pos prec emax ltac:(reflexivity) false S ez ltac:(unfold ez; lia))
      as [(m' & e' & ->)| ->]; exact I. }
  set (y := Math_abs v + 0.1) in *.
  assert (Hn : is_nan y = false).
  { apply is_nan_false_Prim2SF. destruct (Prim2SF y) as [s|s| |s m e]; try contradiction;
      discriminate. }
  assert (H0 : (0 <=? y) = true).
  { rewrite leb_spec. change (Prim2SF 0) with (S754_zero false).
    destruct (Prim2SF y) as [s|s| |s m e]; try contradiction;
      destruct s; try contradiction; reflexivity. }
  destruct (@Math_min_1 y Hn) as [_ Hle]. unfold in01. rewrite Hle, andb_true_r.
  unfold Math_min. rewrite Hn. change (is_nan 1 || false) with false. cbv iota.
  destruct (1 <? y); [reflexivity|]. destruct (y <? 1); [exact H0|].
  change (get_sign 1) with false. cbv iota. exact H0.
Qed.

Lemma ltb_zero_of_notBelowZero (x : float) : SFnotBelowZero (Prim2SF x) -> (x <? 0) = false.
Proof.
  rewrite ltb_spec. change (Prim2SF 0) with (S754_zero false).
  destruct (Prim2SF x) as [s|s| |s m e]; cbn; try reflexivity;
    destruct s; try contradiction; reflexivity.
Qed.

Lemma Prim2SF_tenth : exists m e, Prim2SF 0.1 = S754_finite false m e.
Proof. eexists. eexists. vm_compute. reflexivity. Qed.

(** A number that is not below 0.1 is NaN or positive. *)
Lemma not_below_tenth (y : float) :
  (y <? 0.1) = false ->
  match Prim2SF y with
  | S754_nan | S754_finite false _ _ | S754_infinity false => True
  | _ => False
  end.
Proof.
  rewrite ltb_spec. destruct Prim2SF_tenth as (m1 & e1 & E). rewrite E.
  destruct (Prim2SF y) as [s|s| |s m e]; try destruct s; intros H; try exact I;
    discriminate H.
Qed.

(** The exponents [Math.max(0.1, k)] and [1 / Math.max(0.1, k)] are not
    negative. *)
Lemma exponent_not_negative (k : float) : (Math_max 0.1 k <? 0) = false.
Proof.
  apply ltb_zero_of_notBelowZero.
  pose proof (not_below_tenth (Math_max_not_below_l 0.1 k)) as H.
  destruct (Prim2SF (Math_max 0.1 k)) as [s|s| |s m e]; try destruct s;
    try contradiction; exact I.
Qed.

Lemma reciprocal_not_negative (k : float) : (1 / Math_max 0.1 k <? 0) = false.
Proof.
  apply ltb_zero_of_notBelowZero. rewrite div_spec, Prim2SF_one.
  pose proof (not_below_tenth (Math_max_not_below_l 0.1 k)) as H.
  destruct (Prim2SF (Math_max 0.1 k)) as [s|s| |s m e]; try destruct s;
    try contradiction; try exact I.
  apply SFdiv_notBelowZero. exact I.
Qed.

Lemma sub_nan_r (x y : float) : is_nan y = true -> is_nan (x - y) = true.
Proof.
  rewrite !is_nan_Prim2SF, sub_spec. intros ->. destruct (Prim2SF x); reflexivity.
Qed.

Lemma one_minus_unit (u : float) :
  is_nan u = true \/ in01 u -> is_nan (1 - u) = true \/ in01 (1 - u).
Proof.
  intros [H|H]; [left; apply sub_nan_r, H|right; apply one_minus_in01, H].
Qed.

Lemma not_positive_le_one (x : float) :
  is_nan x = false -> (0 <? x) = false -> (x <=? 1) = true.
Proof.
  rewrite is_nan_false_Prim2SF, ltb_spec, leb_spec, Prim2SF_one.
  change (Prim2SF 0) with (S754_zero false).
  destruct (Prim2SF x) as [s|s| |s m e]; try destruct s; intros Hn H;
    try reflexivity; try congruence; discriminate H.
Qed.

(** [1 - |p|] is at most 1. *)
Lemma one_minus_abs_le_one (p : float) : is_nan p = false -> (1 - abs p <=? 1) = true.
Proof.
  intros Hp.
  assert (Hq : is_nan (abs p) = false) by (rewrite abs_is_nan; exact Hp).
  destruct (abs p <=? 1) eqn:Hle.
  - assert (Hin : in01 (1 - abs p)).
    { apply one_minus_in01. unfold in01. rewrite Hle, andb_true_r.
      apply not_ltb_leb; [reflexivity|exact Hq|apply abs_ltb_zero]. }
    unfold in01 in Hin. apply andb_prop in Hin. exact (proj2 Hin).
  - apply not_positive_le_one; [apply one_minus_not_nan, Hq|].
    destruct (is_finite (abs p)) eqn:Hf.
    + rewrite difference_positive; [|reflexivity|exact Hf].
      destruct (abs p <? 1) eqn:E; [|reflexivity].
      rewrite (ltb_leb E) in Hle. discriminate Hle.
    + unfold is_finite, is_infinity in Hf. rewrite Hq in Hf.
      rewrite FloatAxioms.eqb_spec, !abs_spec in Hf.
      change (Prim2SF infinity) with (S754_infinity false) in Hf.
      rewrite ltb_spec, sub_spec, abs_spec, Prim2SF_one.
      change (Prim2SF 0) with (S754_zero false).
      destruct (Prim2SF p) as [s|s| |s m e]; try discriminate Hf; reflexivity.
Qed.

(** [Math.max(0, 1 - |p|)]. *)
Lemma pyramid_base (p : float) :
  is_nan (Math_max 0 (1 - Math_abs p)) = true \/ in01 (Math_max 0 (1 - Math_abs p)).
Proof.
  unfold Math_abs. destruct (is_nan p) eqn:Hp.
  - left. unfold Math_max.
    rewrite (@sub_nan_r 1 (abs p)) by (rewrite abs_is_nan; exact Hp).
    rewrite orb_true_r. reflexivity.
  - right. apply Math_max_0; [|apply one_minus_abs_le_one, Hp].
    apply one_minus_not_nan. rewrite abs_is_nan. exact Hp.
Qed.

Lemma min_one_nonneg (y : float) :
  is_nan y = false -> (0 <=? y) = true -> in01 (Math_min 1 y).
Proof.
  intros Hn H0.
  destruct (@Math_min_1 y Hn) as [_ Hle]. unfold in01. rewrite Hle, andb_true_r.
  unfold Math_min. rewrite Hn. change (is_nan 1 || false) with false. cbv iota.
  destruct (1 <? y); [reflexivity|]. destruct (y <? 1); [exact H0|].
  change (get_sign 1) with false. cbv iota. exact H0.
Qed.

(** [Math.min(1, Math.max(0, x))]. *)
Lemma clamp_unit (x : float) :
  is_nan (Math_min 1 (Math_max 0 x)) = true \/ in01 (Math_min 1 (Math_max 0 x)).
Proof.
  destruct (is_nan x) eqn:Hx.
  - left. unfold Math_max. rewrite Hx, orb_true_r. reflexivity.
  - right.
    assert (H : is_nan (Math_max 0 x) = false /\ (0 <=? Math_max 0 x) = true).
    { unfold Math_max. rewrite Hx. change (is_nan 0 || false) with false. cbv iota.
      destruct (0 <? x) eqn:E; [split; [exact Hx|apply ltb_leb, E]|].
      destruct (x <? 0); [split; reflexivity|].
      change (get_sign 0) with false. cbv iota. split; reflexivity. }
    destruct H as [Hn H0]. apply min_one_nonneg; assumption.
Qed.

End Signs.

(* ================================================================== *)
(** ** The custom profile in a realm the formula can change *)

Section LiveFacts.
Context {rt : Runtime} {realm : Live.Realm}.

(** The clamp of a primitive value on the [Math] the engine provides. *)
Lemma Live_clampResult_primitive (v : float) (w : Live.World) :
  Live.MathOf w = Live.intactMath ->
  Live.clampResult (Live.Primitive v) w
  = Live.Normal (if is_nan v then 0 else Math_max 0 (Math_min 1 (Math_abs v))) w.
Proof.
  intros Hm. unfold Live.clampResult, Live.isNaNOf, Live.bind, Live.ToNumber, Live.ret.
  destruct (is_nan v); [reflexivity|].
  unfold Live.withMath. rewrite Hm. reflexivity.
Qed.

(** [isNaN] comes first: a NaN is 0 whatever has become of [Math]. *)
Lemma Live_clampResult_nan (v : float) (w : Live.World) :
  is_nan v = true -> Live.clampResult (Live.Primitive v) w = Live.Normal 0 w.
Proof.
  intros Hv. unfold Live.clampResult, Live.isNaNOf, Live.bind, Live.ToNumber, Live.ret.
  rewrite Hv. reflexivity.
Qed.

Lemma Live_tryCatch_never_throws (A : Type) (m : Live.M Live.World A) (a : A)
    (w w' : Live.World) :
  Live.tryCatch m (Live.ret a) w <> Live.Throw w'.
Proof.
  unfold Live.tryCatch, Live.ret. destruct (m w); discriminate.
Qed.

(** The clamp of the amplitude on the [Math] the engine provides. *)
Lemma Live_columnAmplitude_intact (st : AppState) (factor : float) (w : Live.World) :
  Live.MathOf w = Live.intactMath ->
  Live.columnAmplitude st factor w
  = Live.Normal (Math_min (Math_abs (amplitude st * factor)) (MathEngine.maxSafe st)) w.
Proof.
  intros Hm. unfold Live.columnAmplitude, Live.withMath. rewrite Hm. reflexivity.
Qed.

End LiveFacts.

Example fickle_value_gives_NaN :
  exists w w',
    @Live.customProfile exampleRealm
      (customState "{ n: 0, valueOf() { return this.n++ ? NaN : 0.5; } }") 1 w
    = Live.Normal nan w'
    /\ @Live.MathOf exampleRealm w' = @Live.intactMath exampleRealm exampleRuntime.
Proof.
  exists (freshWorld []). eexists. split; vm_compute; reflexivity.
Qed.

Example replaced_max_gives_seven :
  exists w w',
    @Live.customProfile exampleRealm (customState "(Math.max = () => 7, 0.5)") 1 w
    = Live.Normal 7 w'.
Proof. exists (freshWorld []). eexists. vm_compute. reflexivity. Qed.

Example endless_formula_never_returns :
  @Live.generateKirigamiGeometry exampleRealm (customState "(() => { for (;;) {} })()")
    (freshWorld [])
  = Live.NoReturn.
Proof. vm_compute. reflexivity. Qed.

(* ================================================================== *)
(** ** The shape factor *)

Lemma exampleRuntime_trigInRange : @trigInRange exampleRuntime.
Proof.
  assert (Hz : forall x : float, is_zero x = true -> (Math_abs x <=? 1) = true).
  { intros x Hx. unfold Math_abs, is_zero in *. rewrite leb_spec, abs_spec.
    rewrite FloatAxioms.eqb_spec in Hx. change (Prim2SF zero) with (S754_zero false) in Hx.
    destruct (Prim2SF x) as [s|s| |s m e]; try discriminate Hx; try reflexivity;
      destruct s; discriminate Hx. }
  intros x. cbn [Math_sin Math_cos exampleRuntime]. unfold exampleSin, exampleCos.
  destruct (is_zero x) eqn:E0; [split; right; [apply Hz, E0|reflexivity]|].
  destruct (x =? eighthTurn); [split; right; reflexivity|].
  destruct (x =? quarterTurn); [split; right; reflexivity|].
  split; left; reflexivity.
Qed.

Lemma exampleRuntime_expInRange : @expInRange exampleRuntime.
Proof.
  intros x _. cbn [Math_exp exampleRuntime]. unfold exampleExp.
  destruct (is_zero x); [right; reflexivity|left; reflexivity].
Qed.

Lemma exampleRuntime_powInRange : @powInRange exampleRuntime.
Proof.
  intros x y Hx _. cbn [Math_pow exampleRuntime]. unfold examplePow.
  destruct (is_zero y); [right; reflexivity|].
  destruct (y =? 1); [exact Hx|].
  destruct (y =? 2).
  { destruct Hx as [Hx|Hx]; [left; apply mul_nan_l, Hx|right; apply mul_in01; exact Hx]. }
  destruct (x =? 1).
  { destruct (is_nan y || is_infinity y); [left|right]; reflexivity. }
  destruct (is_zero x && (0 <? y)); [right|left]; reflexivity.
Qed.

Section ShapeFactor.
Context {rt : Runtime}.

Lemma abs_below_one (s : float) : (Math_abs s <? 1) = true -> in01 (Math_abs s).
Proof.
  intros H. apply abs_nonneg; [|apply ltb_leb, H].
  destruct (is_nan s) eqn:E; [|reflexivity].
  rewrite ltb_nan_l in H; [discriminate H|]. unfold Math_abs. rewrite abs_is_nan. exact E.
Qed.

(** The dome of the sphere and of the torus. *)
Lemma dome_unit (x k : float) :
  powInRange -> in01 x ->
  is_nan (Math_pow (1 - Math_pow x (Math_max 0.1 k)) (1 / Math_max 0.1 k)) = true
  \/ in01 (Math_pow (1 - Math_pow x (Math_max 0.1 k)) (1 / Math_max 0.1 k)).
Proof.
  intros Hpow Hx. apply Hpow; [|apply reciprocal_not_negative].
  apply one_minus_unit, Hpow; [right; exact Hx|apply exponent_not_negative].
Qed.

Lemma abs_unit (s : float) :
  is_nan s = true \/ (Math_abs s <=? 1) = true ->
  is_nan (Math_abs s) = true \/ in01 (Math_abs s).
Proof.
  intros [H|H].
  - left. unfold Math_abs. rewrite abs_is_nan. exact H.
  - destruct (is_nan s) eqn:Hn.
    + left. unfold Math_abs. rewrite abs_is_nan. exact Hn.
    + right. apply abs_nonneg; assumption.
Qed.

Lemma mul_unit (a b : float) :
  is_nan a = true \/ in01 a -> is_nan b = true \/ in01 b ->
  is_nan (a * b) = true \/ in01 (a * b).
Proof.
  intros [Ha|Ha] [Hb|Hb].
  - left. apply mul_nan_l, Ha.
  - left. apply mul_nan_l, Ha.
  - left. apply mul_nan_r, Hb.
  - right. apply mul_in01; assumption.
Qed.

Lemma noise_unit (s1 s2 : float) :
  is_nan s1 = true \/ (Math_abs s1 <=? 1) = true ->
  is_nan s2 = true \/ (Math_abs s2 <=? 1) = true ->
  is_nan (s1 * s2 * 0.5 + 0.5) = true \/ in01 (s1 * s2 * 0.5 + 0.5).
Proof.
  intros [H1|H1] [H2|H2].
  - left. apply add_nan_l, mul_nan_l, mul_nan_l, H1.
  - left. apply add_nan_l, mul_nan_l, mul_nan_l, H1.
  - left. apply add_nan_l, mul_nan_l, mul_nan_r, H2.
  - right. apply add_half_in01, half_below.
    exact (proj1 (@mul_below s1 s2 0 0 (@below_of_abs_le_one s1 H1)
                    (@below_of_abs_le_one s2 H2) ltac:(lia) ltac:(lia))).
Qed.

End ShapeFactor.



(** The vase profile at the centre column, with roughness 1, is 1.1 in
    every runtime that is exact at zero. *)
Lemma vase_value {rt : Runtime} :
  exactAtZero -> MathEngine.shapeFactor vaseState 1 = 1.1.
Proof.
  intros [Hc Hp]. cbv - [Math_sin Math_cos Math_pow Math_exp].
  rewrite ?Hc, ?Hp. cbv - [Math_sin Math_cos Math_pow Math_exp].
  rewrite ?Hc, ?Hp. reflexivity.
Qed.


(* ================================================================== *)
(** ** The custom formula *)

Lemma is_infinity_abs (v : float) : is_infinity v = true -> abs v = infinity /\ is_nan v = false.
Proof.
  unfold is_infinity. rewrite FloatAxioms.eqb_spec. intros H.
  assert (E : abs v = infinity).
  { apply Prim2SF_inj. change (Prim2SF infinity) with (S754_infinity false) in *.
    destruct (Prim2SF (abs v)) as [s|s| |s m e]; cbn in H; try discriminate H.
    destruct s; [discriminate H|reflexivity]. }
  split; [exact E|]. rewrite <- abs_is_nan, E. reflexivity.
Qed.




(* ================================================================== *)
(** ** The blueprint in a realm the formula can change *)

Lemma Live_stepLoop_S (st : AppState) (vR nR : Vector3) (c : nat) (a : float)
    (n i : nat) (pos : Vector3) (y : float) :
  Live.stepLoop st vR nR c a (S n) i pos y =
  let b := Live.stepBody st vR nR c a i pos y in
  let r := Live.stepLoop st vR nR c a n (S i) (snd (fst b)) (snd b) in
  (fst (fst b) ++ fst (fst r), snd (fst r), snd r).
Proof.
  cbn [Live.stepLoop]. cbv zeta.
  destruct (Live.stepBody st vR nR c a i pos y) as [[es p] y'].
  cbn [fst snd].
  destruct (Live.stepLoop st vR nR c a n (S i) p y') as [[es' p'] y'']. reflexivity.
Qed.

(** The lines of the strip depend neither on the fold nor on the vectors
    of the wall. *)
Lemma Live_stepLoop_fold (st : AppState) (t1 t2 : float) (v1 n1 v2 n2 : Vector3)
    (c : nat) (a : float) (n : nat) :
  forall (i : nat) (p1 p2 : Vector3) (y : float),
  linesOf (fst (fst (Live.stepLoop (withFoldProgress t1 st) v1 n1 c a n i p1 y)))
  = linesOf (fst (fst (Live.stepLoop (withFoldProgress t2 st) v2 n2 c a n i p2 y)))
  /\ snd (Live.stepLoop (withFoldProgress t1 st) v1 n1 c a n i p1 y)
     = snd (Live.stepLoop (withFoldProgress t2 st) v2 n2 c a n i p2 y).
Proof.
  induction n as [|n IH]; intros i p1 p2 y; [split; reflexivity|].
  rewrite !Live_stepLoop_S. cbv zeta. cbn [fst snd].
  assert (Hb : linesOf (fst (fst (Live.stepBody (withFoldProgress t1 st) v1 n1 c a i p1 y)))
               = linesOf (fst (fst (Live.stepBody (withFoldProgress t2 st) v2 n2 c a i p2 y)))
               /\ snd (Live.stepBody (withFoldProgress t1 st) v1 n1 c a i p1 y)
                  = snd (Live.stepBody (withFoldProgress t2 st) v2 n2 c a i p2 y)).
  { split; [|reflexivity].
    unfold Live.stepBody. cbv zeta. cbn [fst snd].
    change (Live.numSteps (withFoldProgress t1 st) a) with (Live.numSteps st a).
    change (Live.numSteps (withFoldProgress t2 st) a) with (Live.numSteps st a).
    rewrite !linesOf_app.
    destruct (i <? Live.numSteps st a - 1)%nat; reflexivity. }
  destruct Hb as [Hl Hy]. rewrite Hy.
  destruct (IH (S i)
              (snd (fst (Live.stepBody (withFoldProgress t1 st) v1 n1 c a i p1 y)))
              (snd (fst (Live.stepBody (withFoldProgress t2 st) v2 n2 c a i p2 y)))
              (snd (Live.stepBody (withFoldProgress t2 st) v2 n2 c a i p2 y))) as [Hl' Hy'].
  split; [|exact Hy'].
  rewrite !linesOf_app, Hl, Hl'. reflexivity.
Qed.

Lemma Live_columnBody_fold (st : AppState) (t1 t2 : float) (v1 n1 v2 n2 : Vector3)
    (c : nat) (a : float) :
  linesOf (Live.columnBody (withFoldProgress t1 st) v1 n1 c a)
  = linesOf (Live.columnBody (withFoldProgress t2 st) v2 n2 c a).
Proof.
  unfold Live.columnBody. rewrite !linesOf_app. f_equal.
  destruct (negb (Live.isFlat a)); [|reflexivity].
  unfold Live.strip. cbv zeta.
  change (Live.numSteps (withFoldProgress t1 st) a) with (Live.numSteps st a).
  change (Live.numSteps (withFoldProgress t2 st) a) with (Live.numSteps st a).
  pose proof (Live_stepLoop_fold st t1 t2 v1 n1 v2 n2 c a (Live.numSteps st a) 0
                (vec3 0 (Live.yAnchorFloor a) 0) (vec3 0 (Live.yAnchorFloor a) 0)
                (Live.yAnchorFloor a)) as [Hl Hy].
  destruct (Live.stepLoop (withFoldProgress t1 st) _ _ _ _ _ _ _ _) as [[es1 q1] y1'].
  destruct (Live.stepLoop (withFoldProgress t2 st) _ _ _ _ _ _ _ _) as [[es2 q2] y2'].
  cbn [fst snd] in Hl, Hy. subst y2'.
  rewrite !linesOf_app, Hl. reflexivity.
Qed.

(** On the [Math] the engine provides, the vectors of the wall are those
    of [MathEngine]. *)
Lemma Live_generate_intact {rt : Runtime} {realm : Live.Realm}
    (st : AppState) (w : Live.World) :
  Live.MathOf w = Live.intactMath ->
  Live.generateKirigamiGeometry st w
  = Live.bind
      (Live.columnsFrom st (MathEngine.vecRiser st) (MathEngine.normRiser st) (cols st) 0)
      (fun es =>
         let a := MathEngine.execute st es {| buf := noBuffers; blueprintLines := [] |} in
         Live.ret {| MathEngine.g_positions := Float32Array (positions (buf a));
                     MathEngine.g_normals := Float32Array (normals (buf a));
                     MathEngine.g_indices := indices (buf a);
                     MathEngine.g_blueprintLines := blueprintLines a |}) w.
Proof.
  intros Hm. unfold Live.generateKirigamiGeometry. cbv zeta.
  unfold Live.bind at 1 2 3 4. unfold Live.withMath.
  rewrite Hm.
  change (Live.call_cos Live.intactMath (MathEngine.alpha st) w)
    with (Live.Normal (Math_cos (MathEngine.alpha st)) w).
  cbv beta iota. rewrite Hm.
  change (Live.call_sin Live.intactMath (MathEngine.alpha st) w)
    with (Live.Normal (Math_sin (MathEngine.alpha st)) w).
  cbv beta iota. rewrite Hm.
  change (Live.call_sin Live.intactMath (MathEngine.alpha st) w)
    with (Live.Normal (Math_sin (MathEngine.alpha st)) w).
  cbv beta iota. rewrite Hm.
  change (Live.call_cos Live.intactMath (MathEngine.alpha st) w)
    with (Live.Normal (Math_cos (MathEngine.alpha st)) w).
  cbv beta iota. reflexivity.
Qed.

Section QuietRealm.
Context {rt : Runtime} {realm : Live.Realm}.
Variable st : AppState.
Variable w : Live.World.
Hypothesis Hquiet : Live.quiet (customFormula st) w.

(** In a quiet realm the factor of a column is a number and the realm
    stays as it is. *)
Lemma quiet_shapeFactor (c : nat) :
  exists r, Live.shapeFactor st c w = Live.Normal r w.
Proof.
  destruct Hquiet as [Hm Hrun].
  unfold Live.shapeFactor. destruct (MathEngine.isPopup c); [|eexists; reflexivity].
  unfold Live.customProfile.
  specialize (Hrun (MathEngine.normX st c) (frequency st) (of_nat c)).
  destruct (Live.runFormula _ _ _ _ w) as [|[v|o] w1|w1|w1|]; try contradiction.
  - eexists; reflexivity.
  - subst w1. unfold Live.tryCatch.
    rewrite (@Live_clampResult_primitive _ _ v w Hm). eexists; reflexivity.
  - subst w1. unfold Live.tryCatch.
    rewrite (@Live_clampResult_primitive _ _ 0 w Hm). eexists; reflexivity.
Qed.

Lemma quiet_column (c : nat) :
  exists a, forall (t : float) (vR nR : Vector3),
    Live.column (withFoldProgress t st) vR nR c w
    = Live.Normal (Live.columnBody (withFoldProgress t st) vR nR c a) w.
Proof.
  destruct (quiet_shapeFactor c) as [r Hr].
  destruct Hquiet as [Hm _].
  eexists. intros t vR nR. unfold Live.column, Live.bind.
  change (Live.shapeFactor (withFoldProgress t st) c w) with (Live.shapeFactor st c w).
  rewrite Hr.
  change (Live.columnAmplitude (withFoldProgress t st) r w)
    with (Live.columnAmplitude st r w).
  rewrite (@Live_columnAmplitude_intact _ _ st r w Hm). reflexivity.
Qed.

Lemma quiet_columnsFrom (t1 t2 : float) (v1 n1 v2 n2 : Vector3) (n : nat) :
  forall c : nat,
  exists es1 es2,
    Live.columnsFrom (withFoldProgress t1 st) v1 n1 n c w = Live.Normal es1 w
    /\ Live.columnsFrom (withFoldProgress t2 st) v2 n2 n c w = Live.Normal es2 w
    /\ linesOf es1 = linesOf es2.
Proof.
  induction n as [|n IH]; intros c.
  - exists [], []. repeat split.
  - destruct (quiet_column c) as [a Ha].
    destruct (IH (S c)) as (r1 & r2 & H1 & H2 & Hl).
    eexists. eexists. cbn [Live.columnsFrom]. unfold Live.bind.
    rewrite !Ha, H1, H2. split; [reflexivity|]. split; [reflexivity|].
    rewrite !linesOf_app, Hl.
    rewrite (Live_columnBody_fold st t1 t2 v1 n1 v2 n2 c a). reflexivity.
Qed.

Lemma quiet_generate (t1 t2 : float) :
  exists g1 g2,
    Live.generateKirigamiGeometry (withFoldProgress t1 st) w = Live.Normal g1 w
    /\ Live.generateKirigamiGeometry (withFoldProgress t2 st) w = Live.Normal g2 w
    /\ MathEngine.g_blueprintLines g1 = MathEngine.g_blueprintLines g2.
Proof.
  pose proof Hquiet as [Hm _].
  rewrite (@Live_generate_intact _ _ (withFoldProgress t1 st) w Hm), (@Live_generate_intact _ _ (withFoldProgress t2 st) w Hm).
  change (cols (withFoldProgress t1 st)) with (cols st).
  change (cols (withFoldProgress t2 st)) with (cols st).
  destruct (quiet_columnsFrom t1 t2
              (MathEngine.vecRiser (withFoldProgress t1 st))
              (MathEngine.normRiser (withFoldProgress t1 st))
              (MathEngine.vecRiser (withFoldProgress t2 st))
              (MathEngine.normRiser (withFoldProgress t2 st)) (cols st) 0)
    as (es1 & es2 & H1 & H2 & Hl).
  unfold Live.bind. rewrite H1, H2. unfold Live.ret.
  eexists. eexists. split; [reflexivity|]. split; [reflexivity|].
  cbn [MathEngine.g_blueprintLines]. rewrite !MathEngine_execute_lines, Hl. reflexivity.
Qed.

End QuietRealm.




(** With the formula [Math.random()] two runs in a row give two
    blueprints, in a realm whose [Math] no formula has changed. *)
Example random_formula_changes_blueprint :
  exists g1 g2,
    @Live.generateKirigamiGeometry exampleRealm (customState "Math.random()")
      (freshWorld [0.25; 0.75]) = Live.Normal g1 (freshWorld [0.75])
    /\ @Live.generateKirigamiGeometry exampleRealm (customState "Math.random()")
         (freshWorld [0.75]) = Live.Normal g2 (freshWorld [])
    /\ MathEngine.g_blueprintLines g1 <> MathEngine.g_blueprintLines g2.
Proof.
  eexists. eexists. split; [vm_compute; reflexivity|]. split; [vm_compute; reflexivity|].
  intros H. apply (f_equal (fun ls => map y2 (firstn 2 ls))) in H.
  vm_compute in H. discriminate H.
Qed.

(* ================================================================== *)
(** ** [MathEngine] is the generator in a quiet realm *)

Section Agreement.
Context {rt : Runtime} {realm : Live.Realm}.
Variable st : AppState.

Lemma Live_stepLoop_MathEngine (c n : nat) :
  forall (i : nat) (pos : Vector3) (y : float),
  Live.stepLoop st (MathEngine.vecRiser st) (MathEngine.normRiser st) c
    (MathEngine.columnAmplitude st c) n i pos y
  = MathEngine.stepLoop st c n i pos y.
Proof.
  induction n as [|n IH]; intros i pos y; [reflexivity|].
  rewrite Live_stepLoop_S, MathEngine_stepLoop_S. cbv zeta.
  change (Live.stepBody st (MathEngine.vecRiser st) (MathEngine.normRiser st) c
            (MathEngine.columnAmplitude st c) i pos y)
    with (MathEngine.stepBody st c i pos y).
  rewrite IH. reflexivity.
Qed.

Lemma Live_columnBody_MathEngine (c : nat) :
  Live.columnBody st (MathEngine.vecRiser st) (MathEngine.normRiser st) c
    (MathEngine.columnAmplitude st c)
  = MathEngine.column st c.
Proof.
  unfold Live.columnBody, MathEngine.column.
  change (Live.isFlat (MathEngine.columnAmplitude st c)) with (MathEngine.isFlat st c).
  f_equal. destruct (negb (MathEngine.isFlat st c)); [|reflexivity].
  unfold Live.strip, MathEngine.strip. cbv zeta.
  change (Live.numSteps st (MathEngine.columnAmplitude st c)) with (MathEngine.numSteps st c).
  change (Live.yAnchorFloor (MathEngine.columnAmplitude st c))
    with (MathEngine.yAnchorFloor st c).
  rewrite Live_stepLoop_MathEngine. reflexivity.
Qed.

Variable w : Live.World.
Hypothesis Hcustom : algorithm st = custom.
Hypothesis Hmath : Live.MathOf w = Live.intactMath.
Hypothesis Hreads : readsAs (customFormula st) w.

Lemma Live_shapeFactor_MathEngine (c : nat) :
  Live.shapeFactor st c w = Live.Normal (MathEngine.shapeFactor st c) w.
Proof.
  unfold Live.shapeFactor, MathEngine.shapeFactor.
  destruct (MathEngine.isPopup c); [|reflexivity].
  unfold Live.customProfile, MathEngine.profile. rewrite Hcustom. cbv zeta.
  specialize (Hreads (MathEngine.normX st c) (frequency st) (of_nat c)).
  destruct (Live.runFormula _ _ _ _ w) as [|[v|o] w1|w1|w1|]; try contradiction.
  - rewrite Hreads. reflexivity.
  - destruct Hreads as [-> ->]. unfold Live.tryCatch.
    rewrite (@Live_clampResult_primitive _ _ v w Hmath). reflexivity.
  - destruct Hreads as [-> ->]. unfold Live.tryCatch.
    rewrite (@Live_clampResult_primitive _ _ 0 w Hmath). reflexivity.
Qed.

Lemma Live_column_MathEngine (c : nat) :
  Live.column st (MathEngine.vecRiser st) (MathEngine.normRiser st) c w
  = Live.Normal (MathEngine.column st c) w.
Proof.
  unfold Live.column, Live.bind.
  rewrite Live_shapeFactor_MathEngine.
  rewrite (@Live_columnAmplitude_intact _ _ st (MathEngine.shapeFactor st c) w Hmath).
  unfold Live.ret. f_equal. apply Live_columnBody_MathEngine.
Qed.

Lemma Live_columnsFrom_MathEngine (n : nat) :
  forall c : nat,
  Live.columnsFrom st (MathEngine.vecRiser st) (MathEngine.normRiser st) n c w
  = Live.Normal (flat_map (MathEngine.column st) (seq c n)) w.
Proof.
  induction n as [|n IH]; intros c; [reflexivity|].
  cbn [Live.columnsFrom seq flat_map]. unfold Live.bind.
  rewrite Live_column_MathEngine, IH. reflexivity.
Qed.

(** In a realm whose [Math] is the engine's and in which the formula gives
    a primitive value or fails, and changes nothing, the generator returns
    what [MathEngine.generateKirigamiGeometry] computes. *)
Lemma Live_generate_MathEngine :
  Live.generateKirigamiGeometry st w
  = Live.Normal (MathEngine.generateKirigamiGeometry st) w.
Proof.
  rewrite (@Live_generate_intact _ _ st w Hmath). unfold Live.bind.
  rewrite Live_columnsFrom_MathEngine. reflexivity.
Qed.

End Agreement.

Example exampleRuntime_readsAs :
  @readsAs exampleRuntime exampleRealm "x" (freshWorld [])
  /\ @readsAs exampleRuntime exampleRealm "y" (freshWorld [])
  /\ @readsAs exampleRuntime exampleRealm "Infinity" (freshWorld []).
Proof. repeat split. Qed.

(* ================================================================== *)
(** ** The negligible column *)

(** A column whose factor is NaN is never flat: NaN is not below 0.5. *)
Lemma MathEngine_nan_factor_not_flat {rt : Runtime} (st : AppState) (c : nat) :
  is_nan (MathEngine.shapeFactor st c) = true -> MathEngine.isFlat st c = false.
Proof.
  intros H. unfold MathEngine.isFlat, MathEngine.columnAmplitude.
  apply ltb_nan_l. unfold Math_min, Math_abs.
  rewrite abs_is_nan, (@mul_nan_r (amplitude st) _ H). reflexivity.
Qed.

(** The lines of a column of [mathEngine.ts] that is not flat: two cut
    lines and a mountain line for each row. *)
Lemma MathEngine_popup_lines {rt : Runtime} (st : AppState) (c : nat) :
  MathEngine.isFlat st c = false ->
  countType cut (linesOf (MathEngine.column st c)) = 2%nat
  /\ countType mountain (linesOf (MathEngine.column st c)) = rows st.
Proof.
  intros Hflat. unfold MathEngine.column. rewrite Hflat. cbn [negb].
  rewrite linesOf_app, !countType_app.
  unfold MathEngine.strip. cbv zeta.
  assert (Hn : MathEngine.numSteps st c = rows st).
  { unfold MathEngine.numSteps. rewrite Hflat. reflexivity. }
  pose proof (@MathEngine_stepLoop_counts rt st c (MathEngine.numSteps st c) 0
                (vec3 0 (MathEngine.yAnchorFloor st c) 0)
                (MathEngine.yAnchorFloor st c) eq_refl) as (_ & Hm & _ & Hc).
  cbv zeta in Hm, Hc.
  destruct (MathEngine.stepLoop st _ _ _ _ _) as [[es q] y']. cbn [fst] in *.
  rewrite Hn in *.
  rewrite !linesOf_app, !countType_app, Hm, Hc. cbn. split; lia.
Qed.




(** The same in every runtime: the factor of that column is NaN whatever
    [Math.pow] returns. *)
Example noStepState_factor_is_NaN {rt : Runtime} (c : nat) :
  Nat.odd c = true -> is_nan (MathEngine.shapeFactor noStepState c) = true.
Proof.
  intros Hodd. unfold MathEngine.shapeFactor, MathEngine.isPopup. rewrite Hodd.
  unfold MathEngine.profile.
  change (algorithm noStepState) with steps. cbv beta iota zeta.
  change (frequency noStepState) with (-0.25).
  change (Math_floor (2 + -0.25 * 8)) with 0.
  match goal with |- context [Math_pow ?a ?b] => generalize (Math_pow a b); intros p end.
  apply is_nan_Prim2SF. rewrite div_spec.
  assert (Hz : SFzero (Prim2SF (Math_floor (p * 0)))
               \/ Prim2SF (Math_floor (p * 0)) = S754_nan).
  { unfold Math_floor.
    assert (Hp : SFzero (Prim2SF (p * 0)) \/ Prim2SF (p * 0) = S754_nan).
    { rewrite mul_spec. change (Prim2SF 0) with (S754_zero false).
      destruct (Prim2SF p) as [s|s| |s m e]; cbn; auto. }
    destruct Hp as [Hp|Hp].
    - destruct (Prim2SF (p * 0)) eqn:E; try contradiction. left. rewrite E. exact I.
    - rewrite Hp. right. exact Hp. }
  change (Prim2SF 0) with (S754_zero false).
  destruct Hz as [Hz|Hz]; [|rewrite Hz; reflexivity].
  destruct (Prim2SF (Math_floor (p * 0))); try contradiction. reflexivity.
Qed.
